(** * git-split-diffs: the side-by-side diff transformer

    A shallow embedding of [src/iterSideBySideDiffs.ts] and the properties
    of its specification.

    Conventions of the embedding.
    - A JavaScript string is the list of its UTF-16 code units ([jstring]);
      [length], [slice], [padEnd], [indexOf], ... count code units, as the
      JavaScript methods do.
    - A width of the configuration is an integer of [Z]. A line number is an
      IEEE double that holds an integer, an infinity or NaN ([jsnum]):
      [parseInt] and [++] round to the nearest double, as the program does,
      and [toString] prints the shortest decimal that reads back as the
      double.
    - A generator is the finite list of the lines it yields, together with
      the exception that ended it, if any ([Gen]).
    - [Theme] (module [themes]) and [wrapLineByWord] (module
      [wrapLineByWord]) are not part of the translated file: the theme is a
      record of string functions, the wrapper a function parameter. *)

From Stdlib Require Import ZArith List Bool Lia String Ascii DecimalString.
Import ListNotations.
Local Open Scope Z_scope.

(** ** JavaScript strings and numbers *)

Module JS.

Definition jstring := list N.

(** The code units of an ASCII literal. *)
Definition lit (s : String.string) : jstring :=
  map N_of_ascii (list_ascii_of_string s).

Definition length (s : jstring) : Z := Z.of_nat (List.length s).

Fixpoint eqb (s t : jstring) : bool :=
  match s, t with
  | [], [] => true
  | c :: s', d :: t' => N.eqb c d && eqb s' t'
  | _, _ => false
  end.

(** [s.startsWith(p)] *)
Fixpoint startsWith (s p : jstring) {struct p} : bool :=
  match p with
  | [] => true
  | c :: p' =>
      match s with
      | [] => false
      | d :: s' => N.eqb d c && startsWith s' p'
      end
  end.

(** Relative index of [slice]: negative counts from the end. *)
Definition relIndex (len i : Z) : Z :=
  if i <? 0 then Z.max (len + i) 0 else Z.min i len.

(** [s.slice(b, e)] *)
Definition slice (s : jstring) (b e : Z) : jstring :=
  let from := relIndex (length s) b in
  let to := relIndex (length s) e in
  firstn (Z.to_nat (to - from)) (skipn (Z.to_nat from) s).

(** [s.slice(b)] *)
Definition sliceFrom (s : jstring) (b : Z) : jstring :=
  slice s b (length s).

(** [s.padEnd(n, c)] and [s.padStart(n, c)] for a one-unit filler. *)
Definition padEnd (s : jstring) (n : Z) (c : N) : jstring :=
  s ++ repeat c (Z.to_nat (n - length s)).

Definition padStart (s : jstring) (n : Z) (c : N) : jstring :=
  repeat c (Z.to_nat (n - length s)) ++ s.

Definition SPACE : N := 32%N.

(** [s.split(sep)] for a one-unit separator: never empty. *)
Fixpoint split (sep : N) (s : jstring) : list jstring :=
  match s with
  | [] => [[]]
  | c :: s' =>
      if N.eqb c sep then [] :: split sep s'
      else match split sep s' with
           | f :: fs => (c :: f) :: fs
           | [] => [[c]]
           end
  end.

(** First position at or after [i] where [p] occurs in [s], the text that
    starts at position [i]; -1 if none. *)
Fixpoint indexOfFrom (s p : jstring) (i : Z) : Z :=
  if startsWith s p then i
  else match s with
       | [] => -1
       | _ :: s' => indexOfFrom s' p (i + 1)
       end.

(** [s.indexOf(p, from)] *)
Definition indexOf (s p : jstring) (from : Z) : Z :=
  let k := Z.min (Z.max from 0) (length s) in
  indexOfFrom (skipn (Z.to_nat k) s) p k.

(** Numbers. A line number is an IEEE double; the program computes them
    with [parseInt] and [++] only, so they are integers, infinities or NaN.
    [Num z] is the double that equals the integer [z]; the two zeros are one
    value here, since they print alike and increment alike. *)
Inductive jsnum := NaN | Infinity (negative : bool) | Num (z : Z).

(** The double nearest to an integer: 53 bits of significand, a tie goes to
    the even significand, and what rounds to 2^1024 or more is infinite. *)
Definition nearestDouble (z : Z) : jsnum :=
  let m := Z.abs z in
  if m <? 2 ^ 53 then Num z
  else
    let e := Z.log2 m - 52 in
    let q := Z.shiftr m e in
    let r := m - Z.shiftl q e in
    let half := 2 ^ (e - 1) in
    let q' := if (half <? r) || ((half =? r) && Z.odd q) then q + 1 else q in
    let v := Z.shiftl q' e in
    if 2 ^ 1024 <=? v then Infinity (z <? 0)
    else Num (if z <? 0 then - v else v).

(** [n++]: the double nearest to [n + 1]. *)
Definition incr (n : jsnum) : jsnum :=
  match n with
  | NaN => NaN
  | Infinity negative => Infinity negative
  | Num z => nearestDouble (z + 1)
  end.

(** The decimal digits of a natural number. *)
Definition decimalDigits (v : Z) : jstring :=
  lit (NilZero.string_of_int (Z.to_int v)).

(** [v] reads back as the double [m]. *)
Definition readsBackAs (m v : Z) : bool :=
  match nearestDouble v with
  | Num z => z =? m
  | _ => false
  end.

(** The two integers with [k] significant digits on either side of [m], the
    closer one first; when they are equally close, the one whose last
    significant digit is even. *)
Definition roundedTo (m k : Z) : list Z :=
  let p := length (decimalDigits m) - k in
  if p <? 0 then []
  else
    let lo := m / 10 ^ p * 10 ^ p in
    let hi := lo + 10 ^ p in
    if (2 * m <? lo + hi) || ((2 * m =? lo + hi) && Z.even (m / 10 ^ p))
    then [lo; hi] else [hi; lo].

(** The integer with the fewest significant digits that reads back as the
    double [m] (and the closest to [m] of these): what [toString] prints. Up
    to 2^53 a double is the only integer that reads back as itself; above,
    17 significant digits always suffice. *)
Definition shortest (m : Z) : Z :=
  if m <? 2 ^ 53 then m
  else
    match find (readsBackAs m)
            (flat_map (fun k => roundedTo m (Z.of_nat k)) (seq 1 17)) with
    | Some v => v
    | None => m
    end.

(** A digit string without its trailing zeros. *)
Fixpoint stripZeros (digits : jstring) : jstring :=
  match digits with
  | [] => []
  | d :: ds =>
      match stripZeros ds with
      | [] => if N.eqb d 48 then [] else [d]
      | significant => d :: significant
      end
  end.

(** The exponent notation, used from 10^21 on: the significant digits with a
    point after the first, and the power of ten. *)
Definition exponential (v : Z) : jstring :=
  let digits := decimalDigits v in
  let power := lit "e+" ++ decimalDigits (length digits - 1) in
  match stripZeros digits with
  | [] => digits ++ power
  | [d] => [d] ++ power
  | d :: ds => d :: lit "." ++ ds ++ power
  end.

(** [n.toString()] *)
Definition toString (n : jsnum) : jstring :=
  match n with
  | NaN => lit "NaN"
  | Infinity negative => (if negative then lit "-" else []) ++ lit "Infinity"
  | Num z =>
      let v := shortest (Z.abs z) in
      (if z <? 0 then lit "-" else [])
        ++ (if v <? 10 ^ 21 then decimalDigits v else exponential v)
  end.

Definition isDigit (c : N) : bool := (48 <=? c)%N && (c <=? 57)%N.

(** White space and line terminators skipped by [parseInt]. *)
Definition isWhiteSpace (c : N) : bool :=
  existsb (N.eqb c)
    [9; 10; 11; 12; 13; 32; 160; 5760; 8232; 8233; 8239; 8287; 12288; 65279]%N
  || ((8192 <=? c)%N && (c <=? 8202)%N).

Fixpoint trimStart (s : jstring) : jstring :=
  match s with
  | c :: s' => if isWhiteSpace c then trimStart s' else s
  | [] => []
  end.

(** Value of the longest prefix of decimal digits, after [acc]. *)
Fixpoint digitsValue (s : jstring) (acc : Z) : Z :=
  match s with
  | c :: s' =>
      if isDigit c then digitsValue s' (10 * acc + (Z.of_N c - 48)) else acc
  | [] => acc
  end.

(** [parseInt(s, 10)]: leading white space, an optional sign, then the
    longest run of digits; NaN if that run is empty, and otherwise the
    double nearest to the number the digits spell. *)
Definition parseInt (s : jstring) : jsnum :=
  let t := trimStart s in
  let neg := startsWith t (lit "-") in
  let body := if neg || startsWith t (lit "+") then skipn 1 t else t in
  match body with
  | c :: _ =>
      if isDigit c
      then nearestDouble
             (if neg then - digitsValue body 0 else digitsValue body 0)
      else NaN
  | [] => NaN
  end.

(** A variable typed [string] that may hold [undefined] at run time (an
    unmatched capture group of a regular expression). *)
Inductive value := undefined | str (s : jstring).

(** Truthiness of such a value: a non-empty string. *)
Definition truthy (v : value) : bool :=
  match v with
  | str (_ :: _) => true
  | _ => false
  end.

(** [v === w] *)
Definition strictEq (v w : value) : bool :=
  match v, w with
  | undefined, undefined => true
  | str s, str t => eqb s t
  | _, _ => false
  end.

(** A value inside a template literal. *)
Definition toStr (v : value) : jstring :=
  match v with
  | undefined => lit "undefined"
  | str s => s
  end.

(** [Math.max(x, ...rest)] on integers. *)
Definition Math_max (x : Z) (rest : list Z) : Z := fold_left Z.max rest x.

(** Positions of two arrays walked together until both are exhausted:
    [i < a.length || i < b.length], an element being absent past the end of
    its array. *)
Fixpoint zipLongest {A B : Type} (la : list A) (lb : list B)
  : list (option A * option B) :=
  match la, lb with
  | [], _ => map (fun b => (None, Some b)) lb
  | _, [] => map (fun a => (Some a, None)) la
  | a :: la', b :: lb' => (Some a, Some b) :: zipLongest la' lb'
  end.

End JS.

Import JS.

(** ** Configuration and theme *)

Record Config := {
  SCREEN_WIDTH : Z;
  LINE_NUMBER_WIDTH : Z;
  LINE_PREFIX_WIDTH : Z;
  MIN_LINE_WIDTH : Z;
  WRAP_LINES : bool
}.

Definition ThemeColor := jstring -> jstring.

Record Theme := {
  COMMIT_COLOR : ThemeColor;
  COMMIT_SHA_COLOR : ThemeColor;
  COMMIT_AUTHOR_COLOR : ThemeColor;
  COMMIT_DATE_COLOR : ThemeColor;
  BORDER_COLOR : ThemeColor;
  FILE_NAME_COLOR : ThemeColor;
  HUNK_HEADER_COLOR : ThemeColor;
  DELETED_LINE_COLOR : ThemeColor;
  DELETED_LINE_NO_COLOR : ThemeColor;
  INSERTED_LINE_COLOR : ThemeColor;
  INSERTED_LINE_NO_COLOR : ThemeColor;
  UNMODIFIED_LINE_COLOR : ThemeColor;
  UNMODIFIED_LINE_NO_COLOR : ThemeColor;
  MISSING_LINE_COLOR : ThemeColor
}.

(** ** Generators

    What a generator has yielded, and how it ended: with a value, or with
    the exception thrown after the yields. *)

Inductive Error := AssertionError | TypeError.

Definition Gen (A : Type) : Type := (list jstring * (Error + A))%type.

Definition ret {A} (a : A) : Gen A := ([], inr a).
Definition throw {A} (e : Error) : Gen A := ([], inl e).
Definition yield (l : jstring) : Gen unit := ([l], inr tt).
Definition yieldAll (ls : list jstring) : Gen unit := (ls, inr tt).

Definition bind {A B} (m : Gen A) (k : A -> Gen B) : Gen B :=
  match m with
  | (out, inl e) => (out, inl e)
  | (out, inr a) => let '(out', r) := k a in (out ++ out', r)
  end.

Notation "x <- m ;; k" := (bind m (fun x => k))
  (at level 61, m at next level, right associativity).
Notation "m ;;; k" := (bind m (fun _ => k))
  (at level 61, right associativity).


(** ** The transformer: [iterSideBySideDiff] *)

Record HunkLineHalf := {
  number : jstring;
  prefix : jstring;
  text : jstring
}.

Inductive ParserState := commit | diff | hunk.

(** The variables of one run of the returned generator. *)
Record State := {
  state : ParserState;
  fileNameA : value;
  fileNameB : value;
  startA : jsnum;
  startB : jsnum;
  hunkHeaderLine : jstring;
  hunkLines : list jstring
}.

Definition BOX_LINE : N := 9472%N.    (* U+2500 *)
Definition BLACK_SQUARE : N := 9632%N. (* U+25A0 *)

(** *** The binary-files pattern

    [BINARY_FILES_DIFF_REGEX]: the words [Binary files], then either [a/]
    and a first group or [/dev/null], then [ and ], then either [b/] and a
    second group or [/dev/null], then [ differ] at the end of the line. Each
    group is a greedy run of any units but line terminators. The matcher
    backtracks: the first group is tried from its longest extent down, and
    a group that takes no part in the match is [undefined]. *)

Definition isLineTerminator (c : N) : bool :=
  existsb (N.eqb c) [10; 13; 8232; 8233]%N.

Definition dotStar (s : jstring) : bool :=
  forallb (fun c => negb (isLineTerminator c)) s.

(** The second alternative and the end of the pattern. *)
Definition matchSideB (s : jstring) : option value :=
  let tail := lit " differ" in
  let viaGroup :=
    if startsWith s (lit "b/") then
      let r := skipn 2 s in
      let n := (List.length r - List.length tail)%nat in
      if (List.length tail <=? List.length r)%nat
         && eqb (skipn n r) tail && dotStar (firstn n r)
      then Some (str (firstn n r)) else None
    else None in
  match viaGroup with
  | Some v => Some v
  | None => if eqb s (lit "/dev/null differ") then Some undefined else None
  end.

(** The first group holding at most [k] units, and what follows it. *)
Fixpoint matchGroupA (t : jstring) (k : nat) : option (value * value) :=
  let attempt :=
    if dotStar (firstn k t) && startsWith (skipn k t) (lit " and ")
    then option_map (pair (str (firstn k t))) (matchSideB (skipn (k + 5) t))
    else None in
  match attempt with
  | Some r => Some r
  | None => match k with
            | O => None
            | S k' => matchGroupA t k'
            end
  end.

(** [line.match(BINARY_FILES_DIFF_REGEX)]: the two groups of a match. *)
Definition BINARY_FILES_DIFF_REGEX (line : jstring) : option (value * value) :=
  if startsWith line (lit "Binary files ") then
    let s := skipn 13 line in
    let viaGroup :=
      if startsWith s (lit "a/")
      then matchGroupA (skipn 2 s) (List.length (skipn 2 s))
      else None in
    match viaGroup with
    | Some r => Some r
    | None =>
        if startsWith s (lit "/dev/null and ")
        then option_map (pair undefined) (matchSideB (skipn 14 s))
        else None
    end
  else None.

(** The variables the closure [flushHunkChange] shares with the loop of
    [formatHunkSideBySide] over the lines of the hunk; [X] is the type of
    what is pushed, a formatted line in the transformer. *)
Record HunkAcc (X : Type) := {
  formattedLines : list X;
  linesA : list jstring;
  linesB : list jstring;
  lineNoA : jsnum;
  lineNoB : jsnum
}.
Arguments formattedLines {X}.
Arguments linesA {X}.
Arguments linesB {X}.
Arguments lineNoA {X}.
Arguments lineNoB {X}.

(** The half of a row that [flushHunkChange] makes of a buffered line. *)
Definition halfOf (lineNo : jsnum) (line : jstring) : HunkLineHalf :=
  {| number := toString lineNo;
     prefix := slice line 0 1;
     text := sliceFrom line 1 |}.

Section Transformer.

Variable cfg : Config.
Variable theme : Theme.
(** Module [wrapLineByWord] is not part of the translated file. *)
Variable wrapLineByWord : jstring -> Z -> list jstring.

Definition LINE_WIDTH : Z :=
  Math_max (SCREEN_WIDTH cfg / 2) [MIN_LINE_WIDTH cfg].

(** [Math.max] is called with this one argument. *)
Definition LINE_TEXT_WIDTH : Z :=
  Math_max
    (LINE_WIDTH - 1 - LINE_PREFIX_WIDTH cfg - 1 - LINE_NUMBER_WIDTH cfg) [].

Definition BLANK_LINE : jstring := padStart [] LINE_WIDTH SPACE.

Definition HORIZONTAL_SEPARATOR : jstring :=
  BORDER_COLOR theme (padStart [] (SCREEN_WIDTH cfg) BOX_LINE).

Definition fitTextToWidth (text : jstring) (width : Z) : list jstring :=
  if WRAP_LINES cfg then wrapLineByWord text width
  else [slice text 0 width].

Definition formatCommitLine (line : jstring) : jstring :=
  let label := hd [] (firstn 1 (split SPACE line)) in
  let labelled (labelColor : ThemeColor) :=
    COMMIT_COLOR theme
      (label ++ lit " "
         ++ labelColor (sliceFrom line (length label + 1))
         ++ padEnd [] (SCREEN_WIDTH cfg - length line) SPACE) in
  if eqb label (lit "commit") then labelled (COMMIT_SHA_COLOR theme)
  else if eqb label (lit "Author:") then labelled (COMMIT_AUTHOR_COLOR theme)
  else if eqb label (lit "Date:") then labelled (COMMIT_DATE_COLOR theme)
  else COMMIT_COLOR theme (padEnd line (SCREEN_WIDTH cfg) SPACE).

(** The indicator and the label of the banner; the label is [undefined]
    when the name it is taken from is. *)
Definition fileNameIndicatorAndLabel (fileNameA fileNameB : value)
  : jstring * value :=
  if negb (truthy fileNameA) then
    (INSERTED_LINE_COLOR theme [BLACK_SQUARE; BLACK_SQUARE], fileNameB)
  else if negb (truthy fileNameB) then
    (DELETED_LINE_COLOR theme [BLACK_SQUARE; BLACK_SQUARE], fileNameA)
  else if strictEq fileNameA fileNameB then
    (DELETED_LINE_COLOR theme [BLACK_SQUARE]
       ++ INSERTED_LINE_COLOR theme [BLACK_SQUARE], fileNameA)
  else
    (DELETED_LINE_COLOR theme [BLACK_SQUARE]
       ++ INSERTED_LINE_COLOR theme [BLACK_SQUARE],
     str (FILE_NAME_COLOR theme
            (toStr fileNameA ++ lit " -> " ++ toStr fileNameB))).

Definition formatFileName (fileNameA fileNameB : value) : Gen unit :=
  yield HORIZONTAL_SEPARATOR ;;;
  let '(indicator, label) := fileNameIndicatorAndLabel fileNameA fileNameB in
  match label with
  | undefined => throw TypeError   (* [label.padEnd] of undefined *)
  | str l =>
      yield (FILE_NAME_COLOR theme (lit " ")
               ++ indicator
               ++ FILE_NAME_COLOR theme
                    (lit " " ++ padEnd l (SCREEN_WIDTH cfg - 2 - 2) SPACE)) ;;;
      yield HORIZONTAL_SEPARATOR
  end.

Definition lineColorForLineHalf (lineHalf : option HunkLineHalf) : ThemeColor :=
  match lineHalf with
  | None => MISSING_LINE_COLOR theme
  | Some h =>
      if eqb (prefix h) (lit "-") then DELETED_LINE_COLOR theme
      else if eqb (prefix h) (lit "+") then INSERTED_LINE_COLOR theme
      else UNMODIFIED_LINE_COLOR theme
  end.

Definition lineNoColorForLineHalf (lineHalf : option HunkLineHalf)
  : ThemeColor :=
  match lineHalf with
  | None => MISSING_LINE_COLOR theme
  | Some h =>
      if eqb (prefix h) (lit "-") then DELETED_LINE_NO_COLOR theme
      else if eqb (prefix h) (lit "+") then INSERTED_LINE_NO_COLOR theme
      else UNMODIFIED_LINE_NO_COLOR theme
  end.

Definition formatHunkLineHalf (lineNo linePrefix lineText : jstring)
    (lineColor lineNoColor : ThemeColor) : jstring :=
  lineNoColor (padStart lineNo (LINE_NUMBER_WIDTH cfg) SPACE)
    ++ lineColor (lit " " ++ padStart linePrefix (LINE_PREFIX_WIDTH cfg) SPACE)
    ++ lineColor (lit " " ++ padEnd lineText LINE_TEXT_WIDTH SPACE).

(** Only the first fitted segment carries the line number and the prefix. *)
Definition formatAndFitHunkLineHalf (lineHalf : option HunkLineHalf)
    (lineColor lineNoColor : ThemeColor) : list jstring :=
  let lineNo := match lineHalf with Some h => number h | None => [] end in
  let linePrefix := match lineHalf with Some h => prefix h | None => [] end in
  let lineText := match lineHalf with Some h => text h | None => [] end in
  match fitTextToWidth lineText LINE_TEXT_WIDTH with
  | [] => []
  | first :: others =>
      formatHunkLineHalf lineNo linePrefix first lineColor lineNoColor
        :: map (fun t => formatHunkLineHalf [] [] t lineColor lineNoColor)
             others
  end.

Definition formatHunkLine (lineHalfA lineHalfB : option HunkLineHalf)
  : list jstring :=
  let lineColorA := lineColorForLineHalf lineHalfA in
  let lineNoColorA := lineNoColorForLineHalf lineHalfA in
  let formattedLinesA :=
    formatAndFitHunkLineHalf lineHalfA lineColorA lineNoColorA in
  let lineColorB := lineColorForLineHalf lineHalfB in
  let lineNoColorB := lineNoColorForLineHalf lineHalfB in
  let formattedLinesB :=
    formatAndFitHunkLineHalf lineHalfB lineColorB lineNoColorB in
  map (fun p : option jstring * option jstring =>
         let formattedLineA :=
           match fst p with Some l => l | None => lineColorA BLANK_LINE end in
         let formattedLineB :=
           match snd p with Some l => l | None => lineColorB BLANK_LINE end in
         formattedLineA ++ formattedLineB)
      (zipLongest formattedLinesA formattedLinesB).

(** *** The change-block accumulation of [formatHunkSideBySide]

    What is pushed for a row is a parameter, [emit]: [formatHunkLine] in the
    transformer, the row itself when the rows are observed. *)

Section Accumulation.

Context {X : Type}.
Variable emit : option HunkLineHalf -> option HunkLineHalf -> list X.

(** One turn of the loop of [flushHunkChange]. *)
Definition flushRow (acc : HunkAcc X) (p : option jstring * option jstring)
  : HunkAcc X :=
  let lineA := option_map (halfOf (lineNoA acc)) (fst p) in
  let lineB := option_map (halfOf (lineNoB acc)) (snd p) in
  {| formattedLines := formattedLines acc ++ emit lineA lineB;
     linesA := linesA acc;
     linesB := linesB acc;
     lineNoA := match fst p with
                | Some _ => incr (lineNoA acc)
                | None => lineNoA acc
                end;
     lineNoB := match snd p with
                | Some _ => incr (lineNoB acc)
                | None => lineNoB acc
                end |}.

Definition flushHunkChange (acc : HunkAcc X) : HunkAcc X :=
  fold_left flushRow (zipLongest (linesA acc) (linesB acc)) acc.

(** The body of the loop over [hunkLines]. *)
Definition accumulateLine (fileNameA fileNameB : value) (acc : HunkAcc X)
    (line : jstring) : HunkAcc X :=
  if startsWith line (lit "-") then
    {| formattedLines := formattedLines acc;
       linesA := linesA acc ++ [line];
       linesB := linesB acc;
       lineNoA := lineNoA acc;
       lineNoB := lineNoB acc |}
  else if startsWith line (lit "+") then
    {| formattedLines := formattedLines acc;
       linesA := linesA acc;
       linesB := linesB acc ++ [line];
       lineNoA := lineNoA acc;
       lineNoB := lineNoB acc |}
  else
    let acc' := flushHunkChange acc in
    {| formattedLines := formattedLines acc';
       linesA := if truthy fileNameA then [line] else [];
       linesB := if truthy fileNameB then [line] else [];
       lineNoA := lineNoA acc';
       lineNoB := lineNoB acc' |}.

(** The loop and the last flush, from the lines already pushed. *)
Definition accumulateHunk (header : list X) (hunkLines : list jstring)
    (lineNoA lineNoB : jsnum) (fileNameA fileNameB : value) : HunkAcc X :=
  flushHunkChange
    (fold_left (accumulateLine fileNameA fileNameB) hunkLines
       {| formattedLines := header;
          linesA := [];
          linesB := [];
          lineNoA := lineNoA;
          lineNoB := lineNoB |}).

End Accumulation.

Definition formatHunkSideBySide (hunkHeaderLine : jstring)
    (hunkLines : list jstring) (lineNoA lineNoB : jsnum)
    (fileNameA fileNameB : value) : list jstring :=
  formattedLines
    (accumulateHunk formatHunkLine
       (map (fun line =>
               HUNK_HEADER_COLOR theme (padEnd line (SCREEN_WIDTH cfg) SPACE))
          (fitTextToWidth hunkHeaderLine (SCREEN_WIDTH cfg)))
       hunkLines lineNoA lineNoB fileNameA fileNameB).

(** *** The returned generator *)

Definition initialState : State :=
  {| state := commit;
     fileNameA := str [];
     fileNameB := str [];
     startA := Num (-1);
     startB := Num (-1);
     hunkHeaderLine := [];
     hunkLines := [] |}.

Definition yieldFileName (st : State) : Gen unit :=
  formatFileName (fileNameA st) (fileNameB st).

Definition yieldHunk (st : State) : Gen State :=
  yieldAll
    (formatHunkSideBySide (hunkHeaderLine st) (hunkLines st)
       (startA st) (startB st) (fileNameA st) (fileNameB st)) ;;;
  ret {| state := state st;
         fileNameA := fileNameA st;
         fileNameB := fileNameB st;
         startA := startA st;
         startB := startB st;
         hunkHeaderLine := hunkHeaderLine st;
         hunkLines := [] |}.

Definition setState (s : ParserState) (st : State) : State :=
  {| state := s;
     fileNameA := fileNameA st;
     fileNameB := fileNameB st;
     startA := startA st;
     startB := startB st;
     hunkHeaderLine := hunkHeaderLine st;
     hunkLines := hunkLines st |}.

Definition setFileNames (a b : value) (st : State) : State :=
  {| state := state st;
     fileNameA := a;
     fileNameB := b;
     startA := startA st;
     startB := startB st;
     hunkHeaderLine := hunkHeaderLine st;
     hunkLines := hunkLines st |}.

(** The start numbers of a hunk header line, or the exception of the first
    failing step: the two positions, the two assertions on them, the two
    fields and their first parts, the assertion on the sign and the number
    of each side. *)
Definition parseHunkHeader (line : jstring) : Error + (jsnum * jsnum) :=
  let hunkHeaderStart := indexOf line (lit "@@ ") 0 in
  let hunkHeaderEnd := indexOf line (lit " @@") (hunkHeaderStart + 1) in
  if negb (0 <=? hunkHeaderStart) then inl AssertionError
  else if negb (hunkHeaderStart <? hunkHeaderEnd) then inl AssertionError
  else
    let hunkHeader := slice line (hunkHeaderStart + 3) hunkHeaderEnd in
    match split SPACE hunkHeader with
    | aHeader :: bHeader :: _ =>
        let startAString := hd [] (split 44%N aHeader) in
        let startBString := hd [] (split 44%N bHeader) in
        if negb (startsWith startAString (lit "-")) then inl AssertionError
        else if negb (startsWith startBString (lit "+")) then inl AssertionError
        else inr (parseInt (sliceFrom startAString 1),
                  parseInt (sliceFrom startBString 1))
    | _ => inl TypeError   (* [bHeader.split] of undefined *)
    end.

(** The switch on the state, after the transitions. *)
Definition handleLine (st : State) (line : jstring) : Gen State :=
  match state st with
  | commit => yield (formatCommitLine line) ;;; ret st
  | diff =>
      if startsWith line (lit "--- a/") then
        ret (setFileNames (str (sliceFrom line 6)) (fileNameB st) st)
      else if startsWith line (lit "+++ b/") then
        ret (setFileNames (fileNameA st) (str (sliceFrom line 6)) st)
      else if startsWith line (lit "rename from ") then
        ret (setFileNames (str (sliceFrom line 12)) (fileNameB st) st)
      else if startsWith line (lit "rename to ") then
        ret (setFileNames (fileNameA st) (str (sliceFrom line 10)) st)
      else if startsWith line (lit "Binary files") then
        match BINARY_FILES_DIFF_REGEX line with
        | Some (a, b) => ret (setFileNames a b st)
        | None => ret st
        end
      else ret st
  | hunk =>
      ret {| state := state st;
             fileNameA := fileNameA st;
             fileNameB := fileNameB st;
             startA := startA st;
             startB := startB st;
             hunkHeaderLine := hunkHeaderLine st;
             hunkLines := hunkLines st ++ [line] |}
  end.

(** What the three transitions do first: the pending banner or hunk. *)
Definition flushPending (st : State) : Gen State :=
  match state st with
  | diff => yieldFileName st ;;; ret st
  | hunk => yieldHunk st
  | commit => ret st
  end.

(** One turn of the loop over the input lines. *)
Definition step (st : State) (line : jstring) : Gen State :=
  if startsWith line (lit "commit ") then
    st1 <- match state st with
           | diff => yieldFileName st ;;; ret st
           | hunk => st' <- yieldHunk st ;; yield HORIZONTAL_SEPARATOR ;;; ret st'
           | commit => ret st
           end ;;
    handleLine (setState commit st1) line
  else if startsWith line (lit "diff --git") then
    st1 <- flushPending st ;;
    handleLine (setFileNames (str []) (str []) (setState diff st1)) line
  else if startsWith line (lit "@@") then
    st1 <- flushPending st ;;
    match parseHunkHeader line with
    | inl e => throw e
    | inr (a, b) =>
        ret {| state := hunk;
               fileNameA := fileNameA st1;
               fileNameB := fileNameB st1;
               startA := a;
               startB := b;
               hunkHeaderLine := line;
               hunkLines := hunkLines st1 |}
    end
  else handleLine st line.

(** The loop over the input lines. *)
Fixpoint feed (st : State) (lines : list jstring) : Gen State :=
  match lines with
  | [] => ret st
  | line :: rest => st' <- step st line ;; feed st' rest
  end.

(** After the last line. *)
Definition finish (st : State) : Gen unit :=
  match state st with
  | diff => yieldFileName st
  | hunk => st' <- yieldHunk st ;; ret tt
  | commit => ret tt
  end.

Definition iterSideBySideDiff (lines : list jstring) : Gen unit :=
  st <- feed initialState lines ;; finish st.

End Transformer.

(** ** The rows of a hunk

    The accumulation run with the row itself as what is pushed: the pairs of
    line halves that [flushHunkChange] hands to [formatHunkLine], in order. *)

Definition Row : Type := (option HunkLineHalf * option HunkLineHalf)%type.

Definition rowEmit (lineA lineB : option HunkLineHalf) : list Row :=
  [(lineA, lineB)].

Definition hunkRowsAcc (hunkLines : list jstring) (lineNoA lineNoB : jsnum)
    (fileNameA fileNameB : value) : HunkAcc Row :=
  accumulateHunk rowEmit [] hunkLines lineNoA lineNoB fileNameA fileNameB.

Definition hunkRows (hunkLines : list jstring) (lineNoA lineNoB : jsnum)
    (fileNameA fileNameB : value) : list Row :=
  formattedLines (hunkRowsAcc hunkLines lineNoA lineNoB fileNameA fileNameB).

(** The consumed (non-missing) halves of each side. *)
Definition lefts (rows : list Row) : list HunkLineHalf :=
  flat_map (fun r : Row => match fst r with Some h => [h] | None => [] end)
    rows.

Definition rights (rows : list Row) : list HunkLineHalf :=
  flat_map (fun r : Row => match snd r with Some h => [h] | None => [] end)
    rows.

(** The raw line a half was cut from. *)
Definition rawLine (h : HunkLineHalf) : jstring := prefix h ++ text h.

Definition formatRow (cfg : Config) (theme : Theme)
    (wrapLineByWord : jstring -> Z -> list jstring) (r : Row) : list jstring :=
  formatHunkLine cfg theme wrapLineByWord (fst r) (snd r).

(** The classes of a raw hunk line. *)
Definition isDeletion (line : jstring) : bool := startsWith line (lit "-").
Definition isInsertion (line : jstring) : bool := startsWith line (lit "+").
Definition isContext (line : jstring) : bool :=
  negb (isDeletion line) && negb (isInsertion line).

(** The lines that reach the buffer of each side. *)
Definition reachesA (fileNameA : value) (line : jstring) : bool :=
  isDeletion line || (isContext line && truthy fileNameA).

Definition reachesB (fileNameB : value) (line : jstring) : bool :=
  negb (isDeletion line) && (isInsertion line || truthy fileNameB).

(** A line that is no transition marker of the state machine. *)
Definition isMarker (line : jstring) : bool :=
  startsWith line (lit "commit ")
  || startsWith line (lit "diff --git")
  || startsWith line (lit "@@").

(** The first space-delimited word of a line, [line.split(' ', 1)[0]]. *)
Definition firstWord (line : jstring) : jstring :=
  hd [] (firstn 1 (split SPACE line)).

Definition isCommitLabel (label : jstring) : bool :=
  eqb label (lit "commit") || eqb label (lit "Author:")
  || eqb label (lit "Date:").

(** The counter after [k] consumed lines. *)
Definition advance (n : jsnum) (k : nat) : jsnum := Nat.iter k incr n.

(** The halves of consecutive lines of one side, numbered from [n]. *)
Fixpoint halvesFrom (n : jsnum) (ls : list jstring) : list HunkLineHalf :=
  match ls with
  | [] => []
  | l :: ls' => halfOf n l :: halvesFrom (incr n) ls'
  end.

(** What a flush changes: the lines pushed and the two counters. *)
Definition observe {X : Type} (acc : HunkAcc X) : list X * jsnum * jsnum :=
  (formattedLines acc, lineNoA acc, lineNoB acc).

(** The accumulator of the transformer, which pushes [emit] of each row
    after [header], against the accumulator of the rows. *)
Definition follows {X : Type}
    (emit : option HunkLineHalf -> option HunkLineHalf -> list X)
    (header : list X) (acc : HunkAcc X) (racc : HunkAcc Row) : Prop :=
  formattedLines acc
  = header ++ flat_map (fun r : Row => emit (fst r) (snd r))
                (formattedLines racc)
  /\ linesA acc = linesA racc /\ linesB acc = linesB racc
  /\ lineNoA acc = lineNoA racc /\ lineNoB acc = lineNoB racc.

(** The accumulator of the code against the state of the walk of the
    specification: the same, or holding back a context line that the walk
    has already flushed. *)
Definition lagsBehind (acc : HunkAcc Row) (A B : list jstring)
    (s : list Row * jsnum * jsnum) : Prop :=
  (linesA acc = A /\ linesB acc = B /\ observe acc = s)
  \/ exists c,
       linesA acc = c :: A /\ linesB acc = c :: B
       /\ s = (formattedLines acc
                 ++ [(Some (halfOf (lineNoA acc) c),
                      Some (halfOf (lineNoB acc) c))],
               incr (lineNoA acc), incr (lineNoB acc)).

(** The lines of the hunk header, as [formatHunkSideBySide] pushes them. *)
Definition hunkHeaderLines (cfg : Config) (theme : Theme)
    (wrapLineByWord : jstring -> Z -> list jstring) (hunkHeaderLine : jstring)
  : list jstring :=
  map (fun line =>
         HUNK_HEADER_COLOR theme (padEnd line (SCREEN_WIDTH cfg) SPACE))
    (fitTextToWidth cfg wrapLineByWord hunkHeaderLine (SCREEN_WIDTH cfg)).

(** The body line of the banner for an indicator and a label. *)
Definition bannerBody (cfg : Config) (theme : Theme)
    (indicator label : jstring) : jstring :=
  FILE_NAME_COLOR theme (lit " ")
    ++ indicator
    ++ FILE_NAME_COLOR theme
         (lit " " ++ padEnd label (SCREEN_WIDTH cfg - 2 - 2) SPACE).

(** *** Hunk headers with two fields *)

Definition AT_SIGN : N := 64%N.
Definition COMMA : N := 44%N.

(** A field of a hunk header: no space and no at-sign in it. *)
Definition isField (s : jstring) : bool :=
  forallb (fun c => negb (N.eqb c SPACE) && negb (N.eqb c AT_SIGN)) s.

(** A header line with two fields between its delimiters. *)
Definition twoFieldHeader (fa fb rest : jstring) : jstring :=
  lit "@@ " ++ fa ++ lit " " ++ fb ++ lit " @@" ++ rest.

(** The part of a field before its first comma, [field.split(',')[0]]. *)
Definition firstPart (field : jstring) : jstring := hd [] (split COMMA field).

(** *** Widths with the colour escapes excluded *)

(** The units that open an escape sequence: ESC and CSI. *)
Definition isEscape (c : N) : bool := N.eqb c 27 || N.eqb c 155.

(** Text that holds no escape sequence. *)
Definition plainText (s : jstring) : Prop :=
  forallb (fun c => negb (isEscape c)) s = true.

Definition themeColors (theme : Theme) : list ThemeColor :=
  [COMMIT_COLOR theme; COMMIT_SHA_COLOR theme; COMMIT_AUTHOR_COLOR theme;
   COMMIT_DATE_COLOR theme; BORDER_COLOR theme; FILE_NAME_COLOR theme;
   HUNK_HEADER_COLOR theme; DELETED_LINE_COLOR theme;
   DELETED_LINE_NO_COLOR theme; INSERTED_LINE_COLOR theme;
   INSERTED_LINE_NO_COLOR theme; UNMODIFIED_LINE_COLOR theme;
   UNMODIFIED_LINE_NO_COLOR theme; MISSING_LINE_COLOR theme].

(** [width] measures a text with its escape sequences excluded, in code
    units, on the texts whose escape sequences are [complete]: plain text
    has its length, widths add up, and the colours of the theme add escape
    sequences only. *)
Record Measured (theme : Theme) (complete : jstring -> Prop)
    (width : jstring -> Z) : Prop := {
  measured_plain : forall s,
    plainText s -> complete s /\ width s = length s;
  measured_app : forall s t,
    complete s -> complete t ->
    complete (s ++ t) /\ width (s ++ t) = width s + width t;
  measured_color : forall c,
    In c (themeColors theme) ->
    forall s, complete s -> complete (c s) /\ width (c s) = width s
}.

(** A complete text of width [n]. *)
Definition sized (complete : jstring -> Prop) (width : jstring -> Z)
    (s : jstring) (n : Z) : Prop :=
  complete s /\ width s = n.

(** A line half whose number and prefix fit their columns. *)
Definition fitsColumns (cfg : Config) (half : option HunkLineHalf) : Prop :=
  match half with
  | None => True
  | Some h =>
      plainText (number h) /\ plainText (prefix h) /\ plainText (text h)
      /\ length (number h) <= LINE_NUMBER_WIDTH cfg
      /\ length (prefix h) <= LINE_PREFIX_WIDTH cfg
  end.

(** ** The words of the specification *)

Module Spec.

(** Section 4.4, Flush: rows by position [i], the left half from [A[i]]
    with the running A counter if [i < len(A)], else missing; the right
    half likewise; a counter advances once per consumed row of its side. *)
Definition flushRowAt (A B : list jstring)
    (s : list Row * jsnum * jsnum) (i : nat) : list Row * jsnum * jsnum :=
  let '(rows, nA, nB) := s in
  (rows ++ [(option_map (halfOf nA) (nth_error A i),
             option_map (halfOf nB) (nth_error B i))],
   match nth_error A i with Some _ => incr nA | None => nA end,
   match nth_error B i with Some _ => incr nB | None => nB end).

Definition flush (A B : list jstring) (s : list Row * jsnum * jsnum)
  : list Row * jsnum * jsnum :=
  fold_left (flushRowAt A B)
    (seq 0 (Nat.max (List.length A) (List.length B))) s.

(** Section 4.4, the walk: deletions to buffer A, insertions to buffer B;
    a context line flushes the buffers, then is a singleton block on both
    sides, flushed at once; a last flush after the last line. *)
Fixpoint walk (lines A B : list jstring) (s : list Row * jsnum * jsnum)
  : list Row * jsnum * jsnum :=
  match lines with
  | [] => flush A B s
  | line :: rest =>
      if isDeletion line then walk rest (A ++ [line]) B s
      else if isInsertion line then walk rest A (B ++ [line]) s
      else walk rest [] [] (flush [line] [line] (flush A B s))
  end.

Definition rows (hunkLines : list jstring) (startA startB : jsnum)
  : list Row :=
  fst (fst (walk hunkLines [] [] ([], startA, startB))).




(** Section 4.4 as the claim of the rows, whatever the file names. *)
Definition contextOnBothSides (hunkLines : list jstring)
    (startA startB : jsnum) (fileNameA fileNameB : value) : Prop :=
  hunkRows hunkLines startA startB fileNameA fileNameB
  = rows hunkLines startA startB.


(** Section 6 as a claim: every emitted line is SCREEN_WIDTH wide. *)
Definition everyLineFillsScreen (cfg : Config) (theme : Theme)
    (wrapLineByWord : jstring -> Z -> list jstring) (width : jstring -> Z)
    (lines : list jstring) : Prop :=
  Forall (fun l => width l = SCREEN_WIDTH cfg)
    (fst (iterSideBySideDiff cfg theme wrapLineByWord lines)).

(** Section 3: LINE_TEXT_WIDTH clamped to be non-negative. *)
Definition LINE_TEXT_WIDTH (cfg : Config) : Z :=
  Z.max 0 (LINE_WIDTH cfg - 1 - LINE_PREFIX_WIDTH cfg - 1
           - LINE_NUMBER_WIDTH cfg).

(** Section 6: a valid configuration. *)
Definition validConfig (cfg : Config) : Prop :=
  0 < SCREEN_WIDTH cfg /\ 0 <= LINE_NUMBER_WIDTH cfg /\
  0 <= LINE_PREFIX_WIDTH cfg /\ 0 <= MIN_LINE_WIDTH cfg.

End Spec.

(** ** Lines, rows and states of the further properties *)

(** The text [p] occurs somewhere in [s]. *)
Definition occursIn (p s : jstring) : Prop :=
  exists before after, s = before ++ p ++ after.

(** A row that shows a line on at least one side. *)
Definition covered (r : Row) : Prop := fst r <> None \/ snd r <> None.

(** One side of a binary-files line: the path behind its prefix, or the
    null device for a side that does not exist. *)
Definition sideText (pathPrefix : jstring) (name : value) : jstring :=
  match name with
  | str path => pathPrefix ++ path
  | undefined => lit "/dev/null"
  end.

(** The line git prints for a binary file with these names. *)
Definition binaryFilesLine (nameA nameB : value) : jstring :=
  lit "Binary files " ++ sideText (lit "a/") nameA
    ++ lit " and " ++ sideText (lit "b/") nameB ++ lit " differ".

(** A captured name holds no line terminator. *)
Definition onOneLine (name : value) : Prop :=
  match name with
  | str path => dotStar path = true
  | undefined => True
  end.

(** A line that the diff state recognises as carrying a file name. *)
Definition isFileHeader (line : jstring) : bool :=
  startsWith line (lit "--- a/") || startsWith line (lit "+++ b/")
  || startsWith line (lit "rename from ") || startsWith line (lit "rename to ")
  || startsWith line (lit "Binary files").

(** The machine at the start of a diff section. *)
Definition diffSectionStart (st : State) : State :=
  setFileNames (str []) (str []) (setState diff st).

(** The machine at the start of a hunk. *)
Definition hunkStart (st : State) (line : jstring) (a b : jsnum) : State :=
  {| state := hunk;
     fileNameA := fileNameA st;
     fileNameB := fileNameB st;
     startA := a;
     startB := b;
     hunkHeaderLine := line;
     hunkLines := [] |}.

(** Outside a hunk the buffer of hunk lines is empty. *)
Definition bufferIdle (st : State) : Prop :=
  state st = hunk \/ hunkLines st = [].

(** The text of a line half; a missing half has the empty text. *)
Definition halfText (half : option HunkLineHalf) : jstring :=
  match half with Some h => text h | None => [] end.

(** A fitted segment that is plain and no wider than the text column. *)
Definition segmentFits (cfg : Config) (segment : jstring) : Prop :=
  plainText segment /\ length segment <= LINE_TEXT_WIDTH cfg.

(** ** Data of the examples *)

(** Colours switched off: every colour function is the identity. *)
Definition plainTheme : Theme :=
  let id := fun s : jstring => s in
  Build_Theme id id id id id id id id id id id id id id.

(** A wrapper for the examples, which all truncate. *)
Definition noWrap (text : jstring) (width : Z) : list jstring := [text].

Definition screen24 : Config :=
  {| SCREEN_WIDTH := 24;
     LINE_NUMBER_WIDTH := 2;
     LINE_PREFIX_WIDTH := 1;
     MIN_LINE_WIDTH := 0;
     WRAP_LINES := false |}.

Definition narrowScreen : Config :=
  {| SCREEN_WIDTH := 10;
     LINE_NUMBER_WIDTH := 5;
     LINE_PREFIX_WIDTH := 1;
     MIN_LINE_WIDTH := 0;
     WRAP_LINES := false |}.


Definition sampleBody : list jstring := map lit ["+bar"; " qux"]%string.

(** The machine after [sampleLines], and what it has emitted by then. *)
Definition sampleState : State :=
  {| state := hunk;
     fileNameA := str (lit "f");
     fileNameB := str (lit "f");
     startA := Num 1;
     startB := Num 1;
     hunkHeaderLine := lit "@@ -1,2 +1,3 @@";
     hunkLines := [lit "-foo"] |}.

Definition sampleBanner : list jstring :=
  fst (formatFileName screen24 plainTheme (str (lit "f")) (str (lit "f"))).

(** A commit message line of 37 units, for a screen of 24. *)
Definition longLine : jstring := lit "    a line that is wider than screen.".



(** The screen of the examples in wrap mode, and a wrapper that cuts a text
    in two at the width. *)
Definition wrapScreen24 : Config :=
  {| SCREEN_WIDTH := 24;
     LINE_NUMBER_WIDTH := 2;
     LINE_PREFIX_WIDTH := 1;
     MIN_LINE_WIDTH := 0;
     WRAP_LINES := true |}.

Definition cutInTwo (text : jstring) (width : Z) : list jstring :=
  [firstn (Z.to_nat width) text; skipn (Z.to_nat width) text].

(** The header lines of a diff section, and the machine after them. *)
Definition sampleSection : list jstring :=
  map lit ["diff --git a/f b/f"; "--- a/f"; "+++ b/f"]%string.

Definition sampleSectionState : State :=
  {| state := diff;
     fileNameA := str (lit "f");
     fileNameB := str (lit "f");
     startA := Num (-1);
     startB := Num (-1);
     hunkHeaderLine := [];
     hunkLines := [] |}.


(** * Properties *)

(** ** Strings *)

Lemma eqb_refl (s : jstring) : eqb s s = true.
Proof. induction s as [|c s IH]; simpl; [reflexivity|]. now rewrite N.eqb_refl. Qed.

Lemma eqb_eq (s t : jstring) : eqb s t = true <-> s = t.
Proof.
  split; [|intros ->; apply eqb_refl].
  revert t; induction s as [|c s IH]; intros [|d t]; simpl; try discriminate; auto.
  intros H; apply andb_true_iff in H as [Hc Hs].
  apply N.eqb_eq in Hc; subst; f_equal; auto.
Qed.

Lemma length_nonneg (s : jstring) : 0 <= length s.
Proof. unfold length; lia. Qed.

Lemma length_append (s t : jstring) : length (s ++ t) = length s + length t.
Proof. unfold length; rewrite List.length_app; lia. Qed.

Lemma length_of_repeat (c : N) (n : nat) : length (repeat c n) = Z.of_nat n.
Proof. unfold length; now rewrite repeat_length. Qed.

Lemma padEnd_length (s : jstring) (n : Z) (c : N) :
  length (padEnd s n c) = Z.max (length s) n.
Proof.
  unfold padEnd; rewrite length_append, length_of_repeat.
  pose proof (length_nonneg s); lia.
Qed.

Lemma padStart_length (s : jstring) (n : Z) (c : N) :
  length (padStart s n c) = Z.max (length s) n.
Proof.
  unfold padStart; rewrite length_append, length_of_repeat.
  pose proof (length_nonneg s); lia.
Qed.

Lemma padEnd_short (s : jstring) (n : Z) (c : N) :
  n <= length s -> padEnd s n c = s.
Proof.
  intros H; unfold padEnd.
  replace (Z.to_nat (n - length s)) with O by lia.
  apply app_nil_r.
Qed.

Lemma slice_prefix_length (s : jstring) (w : Z) :
  0 <= w -> length (slice s 0 w) = Z.min w (length s).
Proof.
  intros Hw; unfold slice, relIndex.
  pose proof (length_nonneg s) as Hs.
  destruct (0 <? 0) eqn:E0; [lia|].
  destruct (w <? 0) eqn:Ew; [lia|].
  unfold length in *.
  rewrite (Z.min_l 0) by lia; simpl skipn.
  rewrite length_firstn. lia.
Qed.

Lemma slice_head_tail (line : jstring) :
  slice line 0 1 ++ sliceFrom line 1 = line.
Proof.
  destruct line as [|c r]; [reflexivity|].
  unfold sliceFrom, slice, relIndex.
  assert (Hl : length (c :: r) = Z.of_nat (List.length r) + 1)
    by (unfold length; simpl List.length; lia).
  rewrite Hl.
  replace (0 <? 0) with false by reflexivity.
  replace (1 <? 0) with false by reflexivity.
  destruct (Z.of_nat (List.length r) + 1 <? 0) eqn:E; [lia|].
  rewrite (Z.min_l 0), (Z.min_l 1), Z.min_id by lia.
  replace (Z.to_nat (1 - 0)) with 1%nat by lia.
  replace (Z.to_nat (Z.of_nat (List.length r) + 1 - 1)) with (List.length r) by lia.
  simpl. now rewrite firstn_all.
Qed.

Lemma rawLine_halfOf (n : jsnum) (line : jstring) :
  rawLine (halfOf n line) = line.
Proof. apply slice_head_tail. Qed.

Lemma startsWith_app (s p : jstring) :
  startsWith s p = true -> s = p ++ skipn (List.length p) s.
Proof.
  revert s; induction p as [|c p IH]; intros s H; [reflexivity|].
  destruct s as [|d s]; [discriminate|]. simpl in H.
  apply andb_true_iff in H as [Hc Hs]. apply N.eqb_eq in Hc; subst.
  simpl; f_equal; auto.
Qed.

Lemma startsWith_prefix (p r : jstring) : startsWith (p ++ r) p = true.
Proof. induction p as [|c p IH]; simpl; [reflexivity|]. now rewrite N.eqb_refl. Qed.

(** ** Walking two arrays together *)

Lemma nth_error_seq_all {A : Type} (l : list A) :
  map (nth_error l) (seq 0 (List.length l)) = map Some l.
Proof.
  induction l as [|a l IH]; [reflexivity|].
  simpl. f_equal. rewrite <- seq_shift, map_map. exact IH.
Qed.

Lemma zipLongest_nil_r {A B : Type} (la : list A) :
  zipLongest la (@nil B) = map (fun a => (Some a, None)) la.
Proof. destruct la; reflexivity. Qed.

Lemma zipLongest_by_position {A B : Type} (la : list A) (lb : list B) :
  zipLongest la lb =
  map (fun i => (nth_error la i, nth_error lb i))
    (seq 0 (Nat.max (List.length la) (List.length lb))).
Proof.
  revert lb; induction la as [|a la IH]; intros lb.
  - simpl. transitivity (map (fun o : option B => (@None A, o)) (map Some lb)).
    + now rewrite map_map.
    + rewrite <- nth_error_seq_all, map_map.
      apply map_ext; intros i. now destruct i.
  - destruct lb as [|b lb].
    + rewrite zipLongest_nil_r.
      transitivity (map (fun o : option A => (o, @None B)) (map Some (a :: la))).
      * now rewrite map_map.
      * rewrite <- nth_error_seq_all, map_map. rewrite Nat.max_0_r.
        apply map_ext; intros i. now destruct i.
    + simpl. f_equal. rewrite <- seq_shift, map_map. apply IH.
Qed.

Lemma lefts_app (r1 r2 : list Row) : lefts (r1 ++ r2) = lefts r1 ++ lefts r2.
Proof. apply flat_map_app. Qed.

Lemma rights_app (r1 r2 : list Row) : rights (r1 ++ r2) = rights r1 ++ rights r2.
Proof. apply flat_map_app. Qed.

(** ** One flush *)

Section Flush.

Context {X : Type} (emit : option HunkLineHalf -> option HunkLineHalf -> list X).

Lemma flush_keeps_buffers (ps : list (option jstring * option jstring))
    (acc : HunkAcc X) :
  linesA (fold_left (flushRow emit) ps acc) = linesA acc /\
  linesB (fold_left (flushRow emit) ps acc) = linesB acc.
Proof.
  revert acc; induction ps as [|p ps IH]; intros acc; [now split|].
  simpl. destruct (IH (flushRow emit acc p)) as [HA HB].
  now rewrite HA, HB.
Qed.

(** A flush reads the buffers it zips, the lines pushed so far and the two
    counters, and nothing else of the accumulator. *)
Lemma flush_observe (ps : list (option jstring * option jstring))
    (acc acc' : HunkAcc X) :
  observe acc = observe acc' ->
  observe (fold_left (flushRow emit) ps acc)
  = observe (fold_left (flushRow emit) ps acc').
Proof.
  revert acc acc'; induction ps as [|p ps IH]; intros acc acc' H; [exact H|].
  simpl. apply IH. unfold observe in *. simpl.
  injection H as H1 H2 H3. now rewrite H1, H2, H3.
Qed.

End Flush.

(** The rows of a flush, side by side. *)
Lemma flush_rows_left (la lb : list jstring) (acc : HunkAcc Row) :
  let acc' := fold_left (flushRow rowEmit) (zipLongest la lb) acc in
  lefts (formattedLines acc')
  = lefts (formattedLines acc) ++ halvesFrom (lineNoA acc) la
  /\ lineNoA acc' = advance (lineNoA acc) (List.length la).
Proof.
  revert lb acc; induction la as [|a la IH]; intros lb acc.
  - simpl zipLongest. revert acc.
    induction lb as [|b lb IHb]; intros acc; simpl.
    + now rewrite app_nil_r.
    + destruct (IHb (flushRow rowEmit acc (None, Some b))) as [H1 H2].
      rewrite H1, H2. simpl. rewrite lefts_app. simpl.
      now rewrite app_nil_r.
  - destruct lb as [|b lb].
    + specialize (IH [] (flushRow rowEmit acc (Some a, None))).
      rewrite zipLongest_nil_r in *. simpl in *.
      destruct IH as [H1 H2]. rewrite H1, H2, lefts_app. simpl.
      rewrite <- app_assoc. split; [reflexivity|].
      unfold advance. now rewrite <- Nat.iter_succ_r.
    + specialize (IH lb (flushRow rowEmit acc (Some a, Some b))).
      simpl in *. destruct IH as [H1 H2]. rewrite H1, H2, lefts_app. simpl.
      rewrite <- app_assoc. split; [reflexivity|].
      unfold advance. now rewrite <- Nat.iter_succ_r.
Qed.

Lemma flush_rows_right (la lb : list jstring) (acc : HunkAcc Row) :
  let acc' := fold_left (flushRow rowEmit) (zipLongest la lb) acc in
  rights (formattedLines acc')
  = rights (formattedLines acc) ++ halvesFrom (lineNoB acc) lb
  /\ lineNoB acc' = advance (lineNoB acc) (List.length lb).
Proof.
  revert lb acc; induction la as [|a la IH]; intros lb acc.
  - simpl zipLongest. revert acc.
    induction lb as [|b lb IHb]; intros acc; simpl.
    + now rewrite app_nil_r.
    + destruct (IHb (flushRow rowEmit acc (None, Some b))) as [H1 H2].
      rewrite H1, H2. simpl. rewrite rights_app. simpl.
      rewrite <- app_assoc. split; [reflexivity|].
      unfold advance. now rewrite <- Nat.iter_succ_r.
  - destruct lb as [|b lb].
    + specialize (IH [] (flushRow rowEmit acc (Some a, None))).
      rewrite zipLongest_nil_r in *. simpl in *.
      destruct IH as [H1 H2]. rewrite H1, H2, rights_app. simpl.
      now rewrite app_nil_r.
    + specialize (IH lb (flushRow rowEmit acc (Some a, Some b))).
      simpl in *. destruct IH as [H1 H2]. rewrite H1, H2, rights_app. simpl.
      rewrite <- app_assoc. split; [reflexivity|].
      unfold advance. now rewrite <- Nat.iter_succ_r.
Qed.

(** ** The columns of a hunk *)

Lemma nearestDouble_exact (z : Z) :
  - 2 ^ 53 <= z <= 2 ^ 53 -> nearestDouble z = Num z.
Proof.
  intros Hz. unfold nearestDouble.
  destruct (Z.abs z <? 2 ^ 53) eqn:E; [reflexivity|].
  apply Z.ltb_ge in E.
  assert (H : z = 2 ^ 53 \/ z = - 2 ^ 53) by lia.
  destruct H as [-> | ->]; vm_compute; reflexivity.
Qed.

Lemma advance_Num (a : Z) (k : nat) :
  - 2 ^ 53 <= a -> a + Z.of_nat k <= 2 ^ 53 ->
  advance (Num a) k = Num (a + Z.of_nat k).
Proof.
  intros Ha. induction k as [|k IH]; intros Hk.
  - simpl. f_equal. lia.
  - unfold advance in *. rewrite Nat.iter_succ, IH by lia.
    cbn [incr]. rewrite nearestDouble_exact by lia. f_equal. lia.
Qed.

Lemma advance_add (n : jsnum) (j k : nat) :
  advance (advance n j) k = advance n (j + k).
Proof. unfold advance. rewrite Nat.add_comm. now rewrite Nat.iter_add. Qed.

Lemma halvesFrom_length (n : jsnum) (ls : list jstring) :
  List.length (halvesFrom n ls) = List.length ls.
Proof. revert n; induction ls as [|l ls IH]; intros n; simpl; auto. Qed.

Lemma halvesFrom_numbers (n : jsnum) (ls : list jstring) (j : nat) :
  map number (halvesFrom (advance n j) ls)
  = map (fun i => toString (advance n i)) (seq j (List.length ls)).
Proof.
  revert j; induction ls as [|l ls IH]; intros j; [reflexivity|].
  simpl. f_equal. change (incr (advance n j)) with (advance n (S j)).
  apply IH.
Qed.

Lemma halvesFrom_raw (n : jsnum) (ls : list jstring) :
  map rawLine (halvesFrom n ls) = ls.
Proof.
  revert n; induction ls as [|l ls IH]; intros n; [reflexivity|].
  simpl. now rewrite rawLine_halfOf, IH.
Qed.

Lemma halvesFrom_app (n : jsnum) (l1 l2 : list jstring) :
  halvesFrom n (l1 ++ l2)
  = halvesFrom n l1 ++ halvesFrom (advance n (List.length l1)) l2.
Proof.
  revert n; induction l1 as [|l l1 IH]; intros n; [reflexivity|].
  cbn [app halvesFrom List.length]. rewrite IH. do 2 f_equal.
  unfold advance. now rewrite Nat.iter_succ_r.
Qed.

Lemma halvesFrom_In (n : jsnum) (ls : list jstring) (h : HunkLineHalf) :
  In h (halvesFrom n ls) -> exists n' l, In l ls /\ h = halfOf n' l.
Proof.
  revert n; induction ls as [|l ls IH]; intros n; [contradiction|].
  intros [<- | H].
  - exists n, l. split; [now left|reflexivity].
  - destruct (IH _ H) as (n' & l' & Hin & ->).
    exists n', l'. split; [now right|reflexivity].
Qed.

Lemma reaches_deletion (fA fB : value) (l : jstring) :
  startsWith l (lit "-") = true ->
  reachesA fA l = true /\ reachesB fB l = false.
Proof. intros E. unfold reachesA, reachesB, isDeletion. now rewrite E. Qed.

Lemma reaches_insertion (fA fB : value) (l : jstring) :
  startsWith l (lit "-") = false -> startsWith l (lit "+") = true ->
  reachesA fA l = false /\ reachesB fB l = true.
Proof.
  intros Ed Ei. unfold reachesA, reachesB, isContext, isDeletion, isInsertion.
  now rewrite Ed, Ei.
Qed.

Lemma reaches_context (fA fB : value) (l : jstring) :
  startsWith l (lit "-") = false -> startsWith l (lit "+") = false ->
  reachesA fA l = truthy fA /\ reachesB fB l = truthy fB.
Proof.
  intros Ed Ei. unfold reachesA, reachesB, isContext, isDeletion, isInsertion.
  now rewrite Ed, Ei.
Qed.

(** The columns of the rows: on each side the lines that reach it, in
    order, numbered on from the counter. *)
Lemma accumulate_columns (fA fB : value) (lines : list jstring)
    (acc : HunkAcc Row) :
  let acc' :=
    flushHunkChange rowEmit (fold_left (accumulateLine rowEmit fA fB) lines acc) in
  let la := linesA acc ++ filter (reachesA fA) lines in
  let lb := linesB acc ++ filter (reachesB fB) lines in
  (lefts (formattedLines acc')
   = lefts (formattedLines acc) ++ halvesFrom (lineNoA acc) la
   /\ lineNoA acc' = advance (lineNoA acc) (List.length la))
  /\ (rights (formattedLines acc')
      = rights (formattedLines acc) ++ halvesFrom (lineNoB acc) lb
      /\ lineNoB acc' = advance (lineNoB acc) (List.length lb)).
Proof.
  revert acc; induction lines as [|l ls IH]; intros acc.
  - cbn [fold_left filter]. rewrite !app_nil_r. unfold flushHunkChange. split.
    + apply flush_rows_left.
    + apply flush_rows_right.
  - cbn [fold_left filter].
    specialize (IH (accumulateLine rowEmit fA fB acc l)). cbv zeta in *.
    destruct IH as [[IHA IHa] [IHB IHb]]. rewrite IHA, IHa, IHB, IHb.
    unfold accumulateLine.
    destruct (startsWith l (lit "-")) eqn:Ed.
    { destruct (reaches_deletion fA fB l Ed) as [-> ->].
      cbn [formattedLines linesA linesB lineNoA lineNoB].
      rewrite <- !app_assoc. repeat split. }
    destruct (startsWith l (lit "+")) eqn:Ei.
    { destruct (reaches_insertion fA fB l Ed Ei) as [-> ->].
      cbn [formattedLines linesA linesB lineNoA lineNoB].
      rewrite <- !app_assoc. repeat split. }
    destruct (reaches_context fA fB l Ed Ei) as [-> ->].
    cbn [formattedLines linesA linesB lineNoA lineNoB].
    unfold flushHunkChange.
    destruct (flush_rows_left (linesA acc) (linesB acc) acc) as [HL Hl].
    destruct (flush_rows_right (linesA acc) (linesB acc) acc) as [HR Hr].
    rewrite HL, Hl, HR, Hr.
    rewrite !halvesFrom_app, !List.length_app, <- !advance_add, <- !app_assoc.
    destruct (truthy fA), (truthy fB); repeat split;
      rewrite !advance_add; f_equal; cbn [List.length]; lia.
Qed.

Lemma hunkRows_columns (lines : list jstring) (nA nB : jsnum) (fA fB : value) :
  let rows := hunkRows lines nA nB fA fB in
  let acc := hunkRowsAcc lines nA nB fA fB in
  lefts rows = halvesFrom nA (filter (reachesA fA) lines)
  /\ rights rows = halvesFrom nB (filter (reachesB fB) lines)
  /\ lineNoA acc = advance nA (List.length (filter (reachesA fA) lines))
  /\ lineNoB acc = advance nB (List.length (filter (reachesB fB) lines)).
Proof.
  unfold hunkRows, hunkRowsAcc, accumulateHunk.
  destruct (accumulate_columns fA fB lines
           {| formattedLines := []; linesA := []; linesB := [];
              lineNoA := nA; lineNoB := nB |}) as [[H1 H2] [H3 H4]].
  cbv zeta. now rewrite H1, H2, H3, H4.
Qed.

(** ** What is pushed is the rows, formatted *)

Section Emit.

Context {X : Type}.
Variable emit : option HunkLineHalf -> option HunkLineHalf -> list X.
Variable header : list X.

Lemma flushRow_follows acc racc p :
  follows emit header acc racc ->
  follows emit header (flushRow emit acc p) (flushRow rowEmit racc p).
Proof.
  intros (Hf & HA & HB & HnA & HnB). unfold follows, flushRow; simpl.
  rewrite Hf, HA, HB, HnA, HnB, flat_map_app. simpl.
  rewrite app_nil_r, app_assoc. repeat split; reflexivity.
Qed.

Lemma flush_follows ps acc racc :
  follows emit header acc racc ->
  follows emit header (fold_left (flushRow emit) ps acc)
    (fold_left (flushRow rowEmit) ps racc).
Proof.
  revert acc racc; induction ps as [|p ps IH]; intros acc racc H; [exact H|].
  simpl. apply IH. now apply flushRow_follows.
Qed.

Lemma flushHunkChange_follows acc racc :
  follows emit header acc racc ->
  follows emit header (flushHunkChange emit acc) (flushHunkChange rowEmit racc).
Proof.
  intros H. unfold flushHunkChange.
  destruct H as (Hf & HA & HB & HnA & HnB). rewrite HA, HB.
  apply flush_follows. repeat split; assumption.
Qed.

Lemma accumulateLine_follows fA fB acc racc line :
  follows emit header acc racc ->
  follows emit header (accumulateLine emit fA fB acc line)
    (accumulateLine rowEmit fA fB racc line).
Proof.
  intros H. unfold accumulateLine.
  destruct (startsWith line (lit "-")).
  { destruct H as (Hf & HA & HB & HnA & HnB).
    unfold follows; simpl. rewrite HA. repeat split; assumption. }
  destruct (startsWith line (lit "+")).
  { destruct H as (Hf & HA & HB & HnA & HnB).
    unfold follows; simpl. rewrite HB. repeat split; assumption. }
  apply flushHunkChange_follows in H.
  destruct H as (Hf & HA & HB & HnA & HnB).
  unfold follows; simpl. repeat split; assumption.
Qed.

Lemma accumulate_follows fA fB lines acc racc :
  follows emit header acc racc ->
  follows emit header (fold_left (accumulateLine emit fA fB) lines acc)
    (fold_left (accumulateLine rowEmit fA fB) lines racc).
Proof.
  revert acc racc; induction lines as [|l ls IH]; intros acc racc H; [exact H|].
  simpl. apply IH. now apply accumulateLine_follows.
Qed.

Lemma accumulateHunk_rows lines nA nB fA fB :
  formattedLines (accumulateHunk emit header lines nA nB fA fB)
  = header ++ flat_map (fun r : Row => emit (fst r) (snd r))
                (hunkRows lines nA nB fA fB).
Proof.
  unfold hunkRows, hunkRowsAcc, accumulateHunk.
  apply flushHunkChange_follows, accumulate_follows.
  unfold follows; simpl. rewrite app_nil_r. repeat split; reflexivity.
Qed.

End Emit.

Lemma formatHunkSideBySide_rows cfg theme wrap hdr lines nA nB fA fB :
  formatHunkSideBySide cfg theme wrap hdr lines nA nB fA fB
  = hunkHeaderLines cfg theme wrap hdr
    ++ flat_map (formatRow cfg theme wrap) (hunkRows lines nA nB fA fB).
Proof. unfold formatHunkSideBySide. apply accumulateHunk_rows. Qed.

(** C5. Line-number law, for start values [a] and [b] and numbers that stay
    within the integers a double counts exactly (up to 2^53): the rows of a
    hunk are what [formatHunkSideBySide] formats after the header; their
    consumed left halves are, in order, the lines that reach the left
    column, numbered [a], [a+1], ..., and their consumed right halves the
    lines that reach the right column, numbered [b], [b+1], ...; each
    counter ends at its start plus the number of rows consumed on its side,
    so a missing half advances nothing. *)
Theorem line_number_law cfg theme wrap hdr lines (a b : Z) fA fB :
  let rows := hunkRows lines (Num a) (Num b) fA fB in
  - 2 ^ 53 <= a ->
  a + Z.of_nat (List.length (filter (reachesA fA) lines)) <= 2 ^ 53 ->
  - 2 ^ 53 <= b ->
  b + Z.of_nat (List.length (filter (reachesB fB) lines)) <= 2 ^ 53 ->
  formatHunkSideBySide cfg theme wrap hdr lines (Num a) (Num b) fA fB
  = hunkHeaderLines cfg theme wrap hdr ++ flat_map (formatRow cfg theme wrap) rows
  /\ map rawLine (lefts rows) = filter (reachesA fA) lines
  /\ map rawLine (rights rows) = filter (reachesB fB) lines
  /\ map number (lefts rows)
     = map (fun i => toString (Num (a + Z.of_nat i)))
         (seq 0 (List.length (lefts rows)))
  /\ map number (rights rows)
     = map (fun i => toString (Num (b + Z.of_nat i)))
         (seq 0 (List.length (rights rows)))
  /\ lineNoA (hunkRowsAcc lines (Num a) (Num b) fA fB)
     = Num (a + Z.of_nat (List.length (lefts rows)))
  /\ lineNoB (hunkRowsAcc lines (Num a) (Num b) fA fB)
     = Num (b + Z.of_nat (List.length (rights rows))).
Proof.
  intros rows Ha Hna Hb Hnb.
  destruct (hunkRows_columns lines (Num a) (Num b) fA fB) as (HL & HR & HA & HB).
  fold rows in HL, HR.
  split; [apply formatHunkSideBySide_rows|].
  rewrite HL, HR, HA, HB, !halvesFrom_length, !halvesFrom_raw.
  repeat split.
  - rewrite (halvesFrom_numbers (Num a) _ 0).
    apply map_ext_in; intros i Hi. apply in_seq in Hi.
    now rewrite advance_Num by lia.
  - rewrite (halvesFrom_numbers (Num b) _ 0).
    apply map_ext_in; intros i Hi. apply in_seq in Hi.
    now rewrite advance_Num by lia.
  - now apply advance_Num.
  - now apply advance_Num.
Qed.

(** ** The walk of the specification *)

Lemma fold_left_map {A B C : Type} (f : A -> C -> A) (g : B -> C)
    (l : list B) (a : A) :
  fold_left f (map g l) a = fold_left (fun a x => f a (g x)) l a.
Proof. revert a; induction l as [|x l IH]; intros a; simpl; auto. Qed.

(** The flush of the code is the flush of the specification, position by
    position. *)
Lemma spec_flush_observe (A B : list jstring) (acc : HunkAcc Row) :
  observe (fold_left (flushRow rowEmit) (zipLongest A B) acc)
  = Spec.flush A B (observe acc).
Proof.
  rewrite zipLongest_by_position, fold_left_map. unfold Spec.flush.
  generalize (seq 0 (Nat.max (List.length A) (List.length B))) as idx.
  intros idx; revert acc; induction idx as [|i idx IH]; intros acc;
    [reflexivity|].
  simpl. now rewrite IH.
Qed.

Lemma lagsBehind_flush (acc : HunkAcc Row) A B s :
  lagsBehind acc A B s ->
  observe (flushHunkChange rowEmit acc) = Spec.flush A B s.
Proof.
  unfold flushHunkChange.
  intros [(HA & HB & Hs) | (c & HA & HB & Hs)].
  - rewrite HA, HB, <- Hs. apply spec_flush_observe.
  - rewrite HA, HB, Hs.
    transitivity
      (observe (fold_left (flushRow rowEmit) (zipLongest A B)
                  (flushRow rowEmit acc (Some c, Some c)))); [reflexivity|].
    rewrite spec_flush_observe. reflexivity.
Qed.

Lemma walk_accumulate (fA fB : value) (lines : list jstring) :
  truthy fA = true -> truthy fB = true ->
  forall (acc : HunkAcc Row) A B s,
    lagsBehind acc A B s ->
    Spec.walk lines A B s
    = observe (flushHunkChange rowEmit
                 (fold_left (accumulateLine rowEmit fA fB) lines acc)).
Proof.
  intros HfA HfB. induction lines as [|l ls IH]; intros acc A B s H.
  - simpl. symmetry. now apply lagsBehind_flush.
  - simpl. unfold accumulateLine at 2, isDeletion, isInsertion.
    destruct (startsWith l (lit "-")) eqn:Ed.
    { apply IH. destruct H as [(HA & HB & Hs) | (c & HA & HB & Hs)].
      - left. simpl. now rewrite HA.
      - right. exists c. simpl. now rewrite HA. }
    destruct (startsWith l (lit "+")) eqn:Ei.
    { apply IH. destruct H as [(HA & HB & Hs) | (c & HA & HB & Hs)].
      - left. simpl. now rewrite HB.
      - right. exists c. simpl. now rewrite HB. }
    apply IH. right. exists l. rewrite HfA, HfB. simpl.
    repeat split.
    rewrite <- (lagsBehind_flush acc A B s H).
    reflexivity.
Qed.

Lemma hunkRows_spec (lines : list jstring) (nA nB : jsnum) (fA fB : value) :
  truthy fA = true -> truthy fB = true ->
  hunkRows lines nA nB fA fB = Spec.rows lines nA nB.
Proof.
  intros HfA HfB. unfold Spec.rows, hunkRows, hunkRowsAcc, accumulateHunk.
  rewrite (walk_accumulate fA fB lines HfA HfB
             {| formattedLines := []; linesA := []; linesB := [];
                lineNoA := nA; lineNoB := nB |} [] [] ([], nA, nB)).
  - reflexivity.
  - left. repeat split.
Qed.

(** C1, as amended. When [fileNameA] and [fileNameB] are both non-empty,
    the rows of a hunk are those of the specification: a line that is
    neither a deletion nor an insertion flushes the buffers as a change
    block and is then a singleton block on both sides, flushed at once.
    Whatever the names, the left column holds, in order and numbered on
    from the start, the deletions and, if [fileNameA] is non-empty, the
    context lines; the right column the insertions and, if [fileNameB] is
    non-empty, the context lines. *)
Theorem context_line_rows cfg theme wrap hdr lines nA nB fA fB :
  (truthy fA = true -> truthy fB = true ->
   Spec.contextOnBothSides lines nA nB fA fB
   /\ formatHunkSideBySide cfg theme wrap hdr lines nA nB fA fB
      = hunkHeaderLines cfg theme wrap hdr
        ++ flat_map (formatRow cfg theme wrap) (Spec.rows lines nA nB))
  /\ lefts (hunkRows lines nA nB fA fB)
     = halvesFrom nA (filter (reachesA fA) lines)
  /\ rights (hunkRows lines nA nB fA fB)
     = halvesFrom nB (filter (reachesB fB) lines).
Proof.
  split.
  - intros HfA HfB. unfold Spec.contextOnBothSides.
    rewrite formatHunkSideBySide_rows, (hunkRows_spec lines nA nB fA fB HfA HfB).
    now split.
  - destruct (hunkRows_columns lines nA nB fA fB) as (HL & HR & _).
    now split.
Qed.

(** ** Generators *)

Lemma bind_inr {A B} (m : Gen A) (k : A -> Gen B) out a :
  m = (out, inr a) -> bind m k = (out ++ fst (k a), snd (k a)).
Proof. intros ->. simpl. now destruct (k a). Qed.

Lemma bind_inl {A B} (m : Gen A) (k : A -> Gen B) out e :
  m = (out, inl e) -> bind m k = (out, inl e).
Proof. now intros ->. Qed.

Lemma bind_assoc {A B C} (m : Gen A) (k : A -> Gen B) (h : B -> Gen C) :
  bind (bind m k) h = bind m (fun a => bind (k a) h).
Proof.
  destruct m as [out [e|a]]; [reflexivity|]. simpl.
  destruct (k a) as [out1 [e|b]]; [reflexivity|]. simpl.
  destruct (h b) as [out2 r]. now rewrite app_assoc.
Qed.

Lemma bind_ext {A B} (m : Gen A) (k k' : A -> Gen B) :
  (forall a, k a = k' a) -> bind m k = bind m k'.
Proof.
  intros H. destruct m as [out [e|a]]; simpl; [reflexivity|]. now rewrite H.
Qed.

Lemma bind_ret_l {A B} (a : A) (k : A -> Gen B) : bind (ret a) k = k a.
Proof. unfold ret; simpl. now destruct (k a). Qed.

(** From [startsWith line p = true] to [line = p ++ rest]. *)
Ltac expose_prefix H :=
  match type of H with
  | startsWith ?line ?p = true =>
      let E := fresh "E" in
      let rest := fresh "rest" in
      pose proof (startsWith_app _ _ H) as E;
      set (rest := skipn _ line) in E;
      clearbody rest; subst line
  end.

(** ** The loop over the input *)

Section Machine.

Variable cfg : Config.
Variable theme : Theme.
Variable wrap : jstring -> Z -> list jstring.

Lemma feed_app (st : State) (l1 l2 : list jstring) :
  feed cfg theme wrap st (l1 ++ l2)
  = bind (feed cfg theme wrap st l1) (fun st' => feed cfg theme wrap st' l2).
Proof.
  revert st; induction l1 as [|l l1 IH]; intros st.
  - cbn [feed app]. now rewrite bind_ret_l.
  - cbn [feed app]. rewrite bind_assoc. apply bind_ext. intros st'. apply IH.
Qed.

Lemma step_plain_line (st : State) (line : jstring) :
  isMarker line = false ->
  step cfg theme wrap st line = handleLine cfg theme st line.
Proof.
  unfold isMarker, step. intros H.
  apply orb_false_iff in H as [H H3]. apply orb_false_iff in H as [H1 H2].
  now rewrite H1, H2, H3.
Qed.

(** In the hunk state, lines that are no markers are buffered. *)
Lemma feed_hunk_body (st : State) (body : list jstring) :
  state st = hunk ->
  forallb (fun l => negb (isMarker l)) body = true ->
  feed cfg theme wrap st body
  = ret {| state := hunk;
           fileNameA := fileNameA st;
           fileNameB := fileNameB st;
           startA := startA st;
           startB := startB st;
           hunkHeaderLine := hunkHeaderLine st;
           hunkLines := hunkLines st ++ body |}.
Proof.
  revert st; induction body as [|l body IH]; intros st Hst Hb.
  - cbn [feed]. rewrite app_nil_r. destruct st; simpl in *. now subst.
  - cbn [forallb] in Hb. apply andb_true_iff in Hb as [Hl Hb].
    apply negb_true_iff in Hl.
    cbn [feed]. rewrite (step_plain_line st l Hl).
    unfold handleLine. rewrite Hst, bind_ret_l.
    rewrite IH; [|reflexivity|assumption].
    cbn. now rewrite <- app_assoc.
Qed.

Lemma yieldHunk_flushes (st : State) :
  yieldHunk cfg theme wrap st
  = (formatHunkSideBySide cfg theme wrap (hunkHeaderLine st) (hunkLines st)
       (startA st) (startB st) (fileNameA st) (fileNameB st),
     inr {| state := state st;
            fileNameA := fileNameA st;
            fileNameB := fileNameB st;
            startA := startA st;
            startB := startB st;
            hunkHeaderLine := hunkHeaderLine st;
            hunkLines := [] |}).
Proof. unfold yieldHunk, yieldAll. cbn [bind ret]. now rewrite app_nil_r. Qed.

End Machine.

(** ** Transitions *)

Section Transitions.

Variable cfg : Config.
Variable theme : Theme.
Variable wrap : jstring -> Z -> list jstring.

Lemma firstWord_commit (line : jstring) :
  startsWith line (lit "commit ") = true -> firstWord line = lit "commit".
Proof.
  intros H. expose_prefix H. unfold firstWord. cbn.
  now destruct (split SPACE rest).
Qed.

(** C9. In the hunk state a commit-boundary line emits the flushed hunk,
    then one horizontal separator (and then the commit line itself); a
    diff-section line, a hunk-header line and the end of the input emit the
    flushed hunk and nothing after it. *)
Theorem commit_boundary_separator (st : State) (line : jstring) :
  state st = hunk ->
  let flushed :=
    formatHunkSideBySide cfg theme wrap (hunkHeaderLine st) (hunkLines st)
      (startA st) (startB st) (fileNameA st) (fileNameB st) in
  (startsWith line (lit "commit ") = true ->
   fst (step cfg theme wrap st line)
   = flushed ++ [HORIZONTAL_SEPARATOR cfg theme; formatCommitLine cfg theme line])
  /\ (startsWith line (lit "diff --git") = true ->
      fst (step cfg theme wrap st line) = flushed)
  /\ (startsWith line (lit "@@") = true ->
      fst (step cfg theme wrap st line) = flushed)
  /\ fst (finish cfg theme wrap st) = flushed.
Proof.
  intros Hst flushed. pose proof (yieldHunk_flushes cfg theme wrap st) as Hy.
  fold flushed in Hy. clearbody flushed. repeat split.
  - intros H. unfold step. rewrite H, Hst, Hy. unfold handleLine.
    cbn. now rewrite <- app_assoc.
  - intros H. unfold step, flushPending.
    replace (startsWith line (lit "commit ")) with false
      by (expose_prefix H; reflexivity).
    rewrite H, Hst, Hy. unfold handleLine. cbn [state setState setFileNames].
    expose_prefix H. cbn. now rewrite ?app_nil_r.
  - intros H. unfold step, flushPending.
    replace (startsWith line (lit "commit ")) with false
      by (expose_prefix H; reflexivity).
    replace (startsWith line (lit "diff --git")) with false
      by (expose_prefix H; reflexivity).
    rewrite H, Hst, Hy. cbn [bind].
    destruct (parseHunkHeader line) as [e|[a b]]; cbn;
      now rewrite ?app_nil_r.
  - unfold finish. rewrite Hst, Hy. cbn. now rewrite ?app_nil_r.
Qed.

End Transitions.

(** ** The banner *)

Lemma eqb_neq (s t : jstring) : s <> t -> eqb s t = false.
Proof.
  intros H. destruct (eqb s t) eqn:E; [|reflexivity].
  apply eqb_eq in E. contradiction.
Qed.

Lemma formatFileName_same (cfg : Config) (theme : Theme) (c : N) (a : jstring) :
  formatFileName cfg theme (str (c :: a)) (str (c :: a))
  = ([HORIZONTAL_SEPARATOR cfg theme;
      bannerBody cfg theme
        (DELETED_LINE_COLOR theme [BLACK_SQUARE]
           ++ INSERTED_LINE_COLOR theme [BLACK_SQUARE]) (c :: a);
      HORIZONTAL_SEPARATOR cfg theme], inr tt).
Proof.
  unfold formatFileName, fileNameIndicatorAndLabel. cbn [truthy negb strictEq].
  now rewrite eqb_refl.
Qed.

(** C7. The banner of a pair of file names, each a string or, after a
    binary-files line, [undefined]; a name is empty when it is the empty
    string or [undefined]. The separator is SCREEN_WIDTH box-drawing units
    in the border colour. When [fileNameA] is empty and [fileNameB] is a
    string, the banner is the separator, a body with two squares in the
    inserted colour and the label [fileNameB], and the separator again;
    when [fileNameA] is not empty and [fileNameB] is, the body has two
    squares in the deleted colour and the label [fileNameA]; when neither
    is empty, it has one square in the deleted colour and one in the
    inserted colour, with the label [fileNameA] when the names are equal
    and the label "fileNameA -> fileNameB", in the file-name colour, when
    they differ. But when [fileNameA] is empty and [fileNameB] is
    [undefined], the banner is the top separator alone and a TypeError, and
    that is what a diff section ends with whose binary-files line names the
    null device on both sides. *)
Theorem file_name_banner (cfg : Config) (theme : Theme)
    (wrap : jstring -> Z -> list jstring) (fileNameA fileNameB : value) :
  let sep := HORIZONTAL_SEPARATOR cfg theme in
  let banner indicator label :=
    ([sep; bannerBody cfg theme indicator label; sep], @inr Error unit tt) in
  let inserted := INSERTED_LINE_COLOR theme in
  let deleted := DELETED_LINE_COLOR theme in
  sep = BORDER_COLOR theme (repeat BOX_LINE (Z.to_nat (SCREEN_WIDTH cfg)))
  /\ (truthy fileNameA = false ->
      forall b, fileNameB = str b ->
      formatFileName cfg theme fileNameA fileNameB
      = banner (inserted [BLACK_SQUARE; BLACK_SQUARE]) b)
  /\ (truthy fileNameB = false ->
      forall a, fileNameA = str a -> a <> [] ->
      formatFileName cfg theme fileNameA fileNameB
      = banner (deleted [BLACK_SQUARE; BLACK_SQUARE]) a)
  /\ (forall a b,
        fileNameA = str a -> fileNameB = str b ->
        a <> [] -> b <> [] -> a = b ->
        formatFileName cfg theme fileNameA fileNameB
        = banner (deleted [BLACK_SQUARE] ++ inserted [BLACK_SQUARE]) a)
  /\ (forall a b,
        fileNameA = str a -> fileNameB = str b ->
        a <> [] -> b <> [] -> a <> b ->
        formatFileName cfg theme fileNameA fileNameB
        = banner (deleted [BLACK_SQUARE] ++ inserted [BLACK_SQUARE])
            (FILE_NAME_COLOR theme (a ++ lit " -> " ++ b)))
  /\ (truthy fileNameA = false -> fileNameB = undefined ->
      formatFileName cfg theme fileNameA fileNameB = ([sep], inl TypeError))
  /\ iterSideBySideDiff cfg theme wrap
       [lit "diff --git a/x b/x";
        lit "Binary files /dev/null and /dev/null differ"]
     = ([sep], inl TypeError).
Proof.
  cbv zeta. split; [|repeat split].
  - unfold HORIZONTAL_SEPARATOR, padStart.
    change (length []) with 0. rewrite Z.sub_0_r. now rewrite app_nil_r.
  - intros HA b ->. unfold formatFileName, fileNameIndicatorAndLabel.
    now rewrite HA.
  - intros HB a -> Ha. destruct a as [|c a]; [contradiction|].
    unfold formatFileName, fileNameIndicatorAndLabel. cbn [truthy negb].
    rewrite HB. cbn [negb]. reflexivity.
  - intros a b -> -> Ha Hb <-. destruct a as [|c a]; [contradiction|].
    apply formatFileName_same.
  - intros a b -> -> Ha Hb Hab. destruct a as [|c a]; [contradiction|].
    destruct b as [|d b]; [contradiction|].
    unfold formatFileName, fileNameIndicatorAndLabel. cbn [truthy negb strictEq].
    now rewrite (eqb_neq _ _ Hab).
  - intros HA ->. unfold formatFileName, fileNameIndicatorAndLabel.
    now rewrite HA.
Qed.

(** ** Widths of the configuration *)

Lemma LINE_WIDTH_max (cfg : Config) :
  LINE_WIDTH cfg = Z.max (SCREEN_WIDTH cfg / 2) (MIN_LINE_WIDTH cfg)
  /\ MIN_LINE_WIDTH cfg <= LINE_WIDTH cfg.
Proof. unfold LINE_WIDTH, Math_max. simpl. lia. Qed.

Lemma LINE_TEXT_WIDTH_difference (cfg : Config) :
  LINE_TEXT_WIDTH cfg
  = LINE_WIDTH cfg - 1 - LINE_PREFIX_WIDTH cfg - 1 - LINE_NUMBER_WIDTH cfg.
Proof. reflexivity. Qed.

(** C2. LINE_WIDTH is the larger of half the screen width, rounded down,
    and MIN_LINE_WIDTH. LINE_TEXT_WIDTH is the difference
    LINE_WIDTH - 1 - LINE_PREFIX_WIDTH - 1 - LINE_NUMBER_WIDTH and is not
    clamped: on the valid configuration [narrowScreen] (width 10, numbers 5,
    prefix 1) it is -3, where the specification has 0. *)
Theorem line_text_width_not_clamped :
  (forall cfg,
     LINE_WIDTH cfg = Z.max (SCREEN_WIDTH cfg / 2) (MIN_LINE_WIDTH cfg)
     /\ MIN_LINE_WIDTH cfg <= LINE_WIDTH cfg
     /\ LINE_TEXT_WIDTH cfg
        = LINE_WIDTH cfg - 1 - LINE_PREFIX_WIDTH cfg - 1 - LINE_NUMBER_WIDTH cfg)
  /\ Spec.validConfig narrowScreen
  /\ LINE_TEXT_WIDTH narrowScreen = -3
  /\ Spec.LINE_TEXT_WIDTH narrowScreen = 0.
Proof.
  split.
  - intros cfg. destruct (LINE_WIDTH_max cfg) as [H1 H2].
    repeat split; assumption.
  - repeat split; unfold Spec.validConfig; simpl; lia.
Qed.

(** ** Searching and cutting *)

Lemma indexOfFrom_here (s p : jstring) (i : Z) :
  startsWith s p = true -> indexOfFrom s p i = i.
Proof. intros H. destruct s; simpl; now rewrite H. Qed.

Lemma indexOfFrom_next (c : N) (s p : jstring) (i : Z) :
  startsWith (c :: s) p = false ->
  indexOfFrom (c :: s) p i = indexOfFrom s p (i + 1).
Proof. intros H. cbn [indexOfFrom]. now rewrite H. Qed.

Lemma no_at_sign_closer (s rest : jstring) :
  forallb (fun c => negb (N.eqb c AT_SIGN)) s = true ->
  startsWith (s ++ lit " @@" ++ rest) (lit "@@") = false.
Proof.
  destruct s as [|c s]; [reflexivity|]. cbn [forallb]. intros H.
  apply andb_true_iff in H as [H _]. apply negb_true_iff in H.
  cbn. unfold AT_SIGN in H. now rewrite H.
Qed.

Lemma indexOfFrom_closer (s rest : jstring) (i : Z) :
  forallb (fun c => negb (N.eqb c AT_SIGN)) s = true ->
  indexOfFrom (s ++ lit " @@" ++ rest) (lit " @@") i = i + length s.
Proof.
  revert i; induction s as [|c s IH]; intros i H.
  - rewrite indexOfFrom_here; [unfold length; simpl; lia|reflexivity].
  - cbn [forallb] in H. apply andb_true_iff in H as [Hc Hs].
    cbn [app]. rewrite indexOfFrom_next.
    + rewrite IH by assumption. unfold length. cbn [List.length]. lia.
    + change (N.eqb c SPACE
              && startsWith (s ++ lit " @@" ++ rest) (lit "@@") = false).
      rewrite (no_at_sign_closer s rest Hs). apply andb_false_r.
Qed.

Lemma firstn_app_exact {A : Type} (l r : list A) :
  firstn (List.length l) (l ++ r) = l.
Proof. induction l as [|a l IH]; simpl; [reflexivity|now rewrite IH]. Qed.

Lemma split_no_separator (sep : N) (s : jstring) :
  forallb (fun c => negb (N.eqb c sep)) s = true -> split sep s = [s].
Proof.
  induction s as [|c s IH]; [reflexivity|]. cbn [forallb]. intros H.
  apply andb_true_iff in H as [Hc Hs]. apply negb_true_iff in Hc.
  cbn [split]. now rewrite Hc, IH.
Qed.

Lemma split_at_separator (sep : N) (a b : jstring) :
  forallb (fun c => negb (N.eqb c sep)) a = true ->
  split sep (a ++ sep :: b) = a :: split sep b.
Proof.
  induction a as [|c a IH]; cbn [forallb app split]; intros H.
  - now rewrite N.eqb_refl.
  - apply andb_true_iff in H as [Hc Ha]. apply negb_true_iff in Hc.
    now rewrite Hc, IH.
Qed.

Lemma isField_no_space (s : jstring) :
  isField s = true -> forallb (fun c => negb (N.eqb c SPACE)) s = true.
Proof.
  unfold isField. rewrite !forallb_forall. intros H c Hc.
  specialize (H c Hc). now apply andb_true_iff in H as [H _].
Qed.

Lemma isField_no_at_sign (s : jstring) :
  isField s = true -> forallb (fun c => negb (N.eqb c AT_SIGN)) s = true.
Proof.
  unfold isField. rewrite !forallb_forall. intros H c Hc.
  specialize (H c Hc). now apply andb_true_iff in H as [_ H].
Qed.

Lemma forallb_app_true {A} (f : A -> bool) (l1 l2 : list A) :
  forallb f l1 = true -> forallb f l2 = true -> forallb f (l1 ++ l2) = true.
Proof. intros H1 H2. rewrite forallb_app. now rewrite H1, H2. Qed.

(** The two positions and the text between them, for a two-field header. *)
Lemma twoFieldHeader_cut (fa fb rest : jstring) :
  isField fa = true -> isField fb = true ->
  let line := twoFieldHeader fa fb rest in
  indexOf line (lit "@@ ") 0 = 0
  /\ indexOf line (lit " @@") 1 = 3 + length (fa ++ lit " " ++ fb)
  /\ slice line 3 (3 + length (fa ++ lit " " ++ fb)) = fa ++ lit " " ++ fb.
Proof.
  intros Ha Hb line. set (R := fa ++ lit " " ++ fb).
  assert (HR : forallb (fun c => negb (N.eqb c AT_SIGN)) R = true).
  { apply forallb_app_true; [now apply isField_no_at_sign|].
    apply forallb_app_true; [reflexivity|now apply isField_no_at_sign]. }
  assert (Hline : line = lit "@@ " ++ R ++ lit " @@" ++ rest).
  { unfold line, twoFieldHeader, R. now rewrite <- !app_assoc. }
  assert (Hlen : length line = 3 + length R + 3 + length rest).
  { rewrite Hline, !length_append.
    change (length (lit "@@ ")) with 3. change (length (lit " @@")) with 3.
    lia. }
  pose proof (length_nonneg R) as HR0. pose proof (length_nonneg rest) as Hr0.
  split; [|split].
  - unfold indexOf. rewrite Z.max_id, Z.min_l by lia. simpl skipn.
    apply indexOfFrom_here. rewrite Hline. apply startsWith_prefix.
  - unfold indexOf. rewrite Z.max_l, Z.min_l by lia.
    rewrite Hline.
    change (skipn (Z.to_nat 1) (lit "@@ " ++ R ++ lit " @@" ++ rest))
      with (AT_SIGN :: (SPACE :: R) ++ lit " @@" ++ rest).
    rewrite indexOfFrom_next by reflexivity.
    rewrite indexOfFrom_closer.
    + unfold length. cbn [List.length]. lia.
    + cbn [forallb]. now rewrite HR.
  - unfold slice, relIndex. rewrite Hlen.
    replace (3 <? 0) with false by reflexivity.
    destruct (3 + length R <? 0) eqn:E; [lia|].
    rewrite !Z.min_l by lia.
    replace (Z.to_nat (3 + length R - 3)) with (List.length R)
      by (unfold length; lia).
    rewrite Hline.
    change (skipn (Z.to_nat 3) (lit "@@ " ++ R ++ lit " @@" ++ rest))
      with (R ++ lit " @@" ++ rest).
    apply firstn_app_exact.
Qed.

(** ** Hunk headers *)

Lemma split_nonempty (sep : N) (s : jstring) : split sep s <> [].
Proof.
  destruct s as [|c s]; cbn [split]; [discriminate|].
  destruct (N.eqb c sep); [discriminate|]. now destruct (split sep s).
Qed.

Lemma firstPart_startsWith (c : N) (s : jstring) :
  N.eqb c COMMA = false ->
  startsWith (firstPart s) [c] = startsWith s [c].
Proof.
  intros Hc. destruct s as [|d s]; [reflexivity|].
  unfold firstPart. cbn [split].
  destruct (N.eqb d COMMA) eqn:Ed.
  - apply N.eqb_eq in Ed. subst d. change (false = N.eqb COMMA c && true).
    now rewrite N.eqb_sym, Hc.
  - now destruct (split COMMA s).
Qed.

Lemma parseHunkHeader_two_fields (fa fb rest : jstring) :
  isField fa = true -> isField fb = true ->
  parseHunkHeader (twoFieldHeader fa fb rest)
  = if startsWith fa (lit "-") && startsWith fb (lit "+")
    then inr (parseInt (sliceFrom (firstPart fa) 1),
              parseInt (sliceFrom (firstPart fb) 1))
    else inl AssertionError.
Proof.
  intros Ha Hb.
  destruct (twoFieldHeader_cut fa fb rest Ha Hb) as (H1 & H2 & H3).
  unfold parseHunkHeader. rewrite H1. change (0 + 1) with 1. rewrite H2.
  change (0 + 3) with 3. rewrite H3.
  pose proof (length_nonneg (fa ++ lit " " ++ fb)) as Hl.
  replace (0 <=? 0) with true by reflexivity.
  replace (0 <? 3 + length (fa ++ lit " " ++ fb)) with true
    by (symmetry; apply Z.ltb_lt; lia).
  cbn [negb].
  change (fa ++ lit " " ++ fb) with (fa ++ SPACE :: fb).
  rewrite split_at_separator by now apply isField_no_space.
  rewrite split_no_separator by now apply isField_no_space.
  cbv beta iota zeta.
  change (hd [] (split 44 fa)) with (firstPart fa).
  change (hd [] (split 44 fb)) with (firstPart fb).
  change (lit "-") with [45%N]. change (lit "+") with [43%N].
  rewrite !firstPart_startsWith by reflexivity.
  destruct (startsWith fa [45%N]), (startsWith fb [43%N]); reflexivity.
Qed.










Section Headers.

Variable cfg : Config.
Variable theme : Theme.
Variable wrap : jstring -> Z -> list jstring.



End Headers.

(** ** Widths of the emitted lines *)

Lemma plainText_app (s t : jstring) :
  plainText s -> plainText t -> plainText (s ++ t).
Proof. unfold plainText. intros Hs Ht. rewrite forallb_app. now rewrite Hs, Ht. Qed.

Lemma plainText_repeat (c : N) (n : nat) :
  isEscape c = false -> plainText (repeat c n).
Proof.
  intros Hc. unfold plainText. induction n as [|n IH]; [reflexivity|].
  simpl. now rewrite Hc, IH.
Qed.

Lemma plainText_firstn (n : nat) (s : jstring) :
  plainText s -> plainText (firstn n s).
Proof.
  unfold plainText. revert n; induction s as [|c s IH]; intros [|n] H;
    try reflexivity.
  simpl in *. apply andb_true_iff in H as [Hc Hs]. now rewrite Hc, IH.
Qed.

Lemma plainText_skipn (n : nat) (s : jstring) :
  plainText s -> plainText (skipn n s).
Proof.
  unfold plainText. revert n; induction s as [|c s IH]; intros [|n] H;
    try reflexivity; try exact H.
  simpl in *. apply andb_true_iff in H as [Hc Hs]. now apply IH.
Qed.

Lemma plainText_slice (s : jstring) (b e : Z) :
  plainText s -> plainText (slice s b e).
Proof. intros H. unfold slice. now apply plainText_firstn, plainText_skipn. Qed.

Lemma plainText_padEnd (s : jstring) (n : Z) :
  plainText s -> plainText (padEnd s n SPACE).
Proof. intros H. apply plainText_app; [exact H|now apply plainText_repeat]. Qed.

Lemma plainText_padStart (s : jstring) (n : Z) (c : N) :
  isEscape c = false -> plainText s -> plainText (padStart s n c).
Proof. intros Hc H. apply plainText_app; [now apply plainText_repeat|exact H]. Qed.

Lemma firstWord_cases (line : jstring) :
  firstWord line = line \/ exists rest, line = firstWord line ++ SPACE :: rest.
Proof.
  unfold firstWord. induction line as [|c s IH]; [now left|].
  cbn [split]. destruct (N.eqb c SPACE) eqn:Ec.
  - apply N.eqb_eq in Ec. subst c. right. now exists s.
  - destruct (split SPACE s) as [|f fs] eqn:Es.
    + now destruct (split_nonempty SPACE s).
    + cbn in *. destruct IH as [IH | [rest IH]].
      * left. now rewrite IH.
      * right. exists rest. now rewrite IH at 1.
Qed.

Lemma skipn_app_exact {A : Type} (l r : list A) :
  skipn (List.length l) (l ++ r) = r.
Proof. induction l as [|a l IH]; simpl; [reflexivity|exact IH]. Qed.

Lemma sliceFrom_app (p r : jstring) : sliceFrom (p ++ r) (length p) = r.
Proof.
  unfold sliceFrom, slice, relIndex. rewrite length_append.
  pose proof (length_nonneg p). pose proof (length_nonneg r).
  destruct (length p <? 0) eqn:E1; [lia|].
  destruct (length p + length r <? 0) eqn:E2; [lia|].
  rewrite !Z.min_l by lia.
  replace (Z.to_nat (length p)) with (List.length p) by (unfold length; lia).
  replace (Z.to_nat (length p + length r - length p)) with (List.length r)
    by (unfold length; lia).
  rewrite skipn_app_exact. apply firstn_all.
Qed.


Lemma plainText_lit_uint (d : Decimal.uint) :
  plainText (lit (NilEmpty.string_of_uint d)).
Proof. unfold plainText. induction d; simpl; auto. Qed.

Lemma plainText_decimalDigits (v : Z) : plainText (decimalDigits v).
Proof.
  unfold decimalDigits, NilZero.string_of_int.
  assert (H : forall d, plainText (lit (NilZero.string_of_uint d))).
  { intros d. unfold NilZero.string_of_uint.
    destruct d; try reflexivity; apply plainText_lit_uint. }
  destruct (Z.to_int v) as [d|d]; [apply H|].
  unfold plainText. cbn [lit list_ascii_of_string map forallb].
  apply andb_true_iff. split; [reflexivity|apply H].
Qed.

Lemma plainText_cons (c : N) (s : jstring) :
  plainText (c :: s) <-> isEscape c = false /\ plainText s.
Proof.
  unfold plainText. cbn [forallb]. rewrite andb_true_iff, negb_true_iff.
  reflexivity.
Qed.

Lemma plainText_stripZeros (s : jstring) :
  plainText s -> plainText (stripZeros s).
Proof.
  induction s as [|c s IH]; [trivial|].
  intros H. apply plainText_cons in H as [Hc Hs]. specialize (IH Hs).
  cbn [stripZeros]. destruct (stripZeros s) as [|d t].
  - destruct (N.eqb c 48); [reflexivity|]. now apply plainText_cons.
  - now apply plainText_cons.
Qed.

Lemma plainText_exponential (v : Z) : plainText (exponential v).
Proof.
  unfold exponential.
  pose proof (plainText_decimalDigits v) as Hd.
  assert (Hp : plainText
                 (lit "e+" ++ decimalDigits (length (decimalDigits v) - 1)))
    by (apply plainText_app; [reflexivity|apply plainText_decimalDigits]).
  pose proof (plainText_stripZeros _ Hd) as Hs.
  destruct (stripZeros (decimalDigits v)) as [|d [|d' ds]].
  - now apply plainText_app.
  - now apply plainText_app.
  - apply plainText_cons in Hs as [Hc Hs]. apply plainText_cons.
    split; [exact Hc|].
    apply plainText_app; [reflexivity|now apply plainText_app].
Qed.

Lemma toString_plain (n : jsnum) : plainText (toString n).
Proof.
  destruct n as [|negative|z]; [reflexivity|now destruct negative|].
  unfold toString. apply plainText_app; [now destruct (z <? 0)|].
  destruct (shortest (Z.abs z) <? 10 ^ 21);
    [apply plainText_decimalDigits|apply plainText_exponential].
Qed.

Lemma row_left_In (rows : list Row) (r : Row) (h : HunkLineHalf) :
  In r rows -> fst r = Some h -> In h (lefts rows).
Proof.
  intros Hin Hf. unfold lefts. apply in_flat_map. exists r.
  split; [exact Hin|]. rewrite Hf. now left.
Qed.

Lemma row_right_In (rows : list Row) (r : Row) (h : HunkLineHalf) :
  In r rows -> snd r = Some h -> In h (rights rows).
Proof.
  intros Hin Hf. unfold rights. apply in_flat_map. exists r.
  split; [exact Hin|]. rewrite Hf. now left.
Qed.

(** The halves of the rows of a hunk are cut from its lines. *)
Lemma hunkRows_halves (lines : list jstring) (nA nB : jsnum) (fA fB : value)
    (h : HunkLineHalf) :
  In h (lefts (hunkRows lines nA nB fA fB)
          ++ rights (hunkRows lines nA nB fA fB)) ->
  exists n l, In l lines /\ h = halfOf n l.
Proof.
  destruct (hunkRows_columns lines nA nB fA fB) as (HL & HR & _).
  rewrite HL, HR. intros H. apply in_app_or in H.
  destruct H as [H|H]; apply halvesFrom_In in H;
    destruct H as (n & l & Hin & ->); exists n, l;
    (split; [|reflexivity]); apply filter_In in Hin; tauto.
Qed.

Section Widths.

Variable cfg : Config.
Variable theme : Theme.
Variable wrap : jstring -> Z -> list jstring.
Variable complete : jstring -> Prop.
Variable width : jstring -> Z.
Hypothesis M : Measured theme complete width.

Local Notation "'sz' s n" := (sized complete width s n)
  (at level 10, s at level 9, n at level 9).

Lemma sized_plain (s : jstring) : plainText s -> sz s (length s).
Proof. apply (measured_plain _ _ _ M). Qed.

Lemma sized_app (s t : jstring) (n m : Z) :
  sz s n -> sz t m -> sz (s ++ t) (n + m).
Proof.
  intros [Cs <-] [Ct <-]. apply (measured_app _ _ _ M); assumption.
Qed.

Lemma sized_color (c : ThemeColor) (s : jstring) (n : Z) :
  In c (themeColors theme) -> sz s n -> sz (c s) n.
Proof.
  intros Hc [Cs <-]. apply (measured_color _ _ _ M); assumption.
Qed.

Lemma sized_eq (s : jstring) (n m : Z) : sz s n -> n = m -> sz s m.
Proof. now intros H <-. Qed.

Ltac theme_color := unfold themeColors; simpl; tauto.

Lemma separator_width :
  sz (HORIZONTAL_SEPARATOR cfg theme) (Z.max 0 (SCREEN_WIDTH cfg)).
Proof.
  unfold HORIZONTAL_SEPARATOR. apply sized_color; [theme_color|].
  eapply sized_eq; [apply sized_plain|].
  - now apply plainText_padStart.
  - rewrite padStart_length. reflexivity.
Qed.

Lemma plainText_app_inv (s t : jstring) :
  plainText (s ++ t) -> plainText s /\ plainText t.
Proof.
  unfold plainText. rewrite forallb_app. intros H.
  now apply andb_true_iff in H.
Qed.

Lemma commit_line_width (line : jstring) :
  plainText line -> isCommitLabel line = false ->
  sz (formatCommitLine cfg theme line)
    (Z.max (SCREEN_WIDTH cfg) (length line)).
Proof.
  intros Hp Hbare.
  assert (Hplain : sz (COMMIT_COLOR theme (padEnd line (SCREEN_WIDTH cfg) SPACE))
                     (Z.max (SCREEN_WIDTH cfg) (length line))).
  { apply sized_color; [theme_color|].
    eapply sized_eq; [apply sized_plain; now apply plainText_padEnd|].
    rewrite padEnd_length. lia. }
  assert (Hlab : forall labelColor, In labelColor (themeColors theme) ->
            isCommitLabel (firstWord line) = true ->
            sz (COMMIT_COLOR theme
                     (firstWord line ++ lit " "
                        ++ labelColor (sliceFrom line (length (firstWord line) + 1))
                        ++ padEnd [] (SCREEN_WIDTH cfg - length line) SPACE))
                  (Z.max (SCREEN_WIDTH cfg) (length line))).
  { intros labelColor Hin Hl.
    destruct (firstWord_cases line) as [E | [rest E]].
    { rewrite E in Hl. congruence. }
    set (label := firstWord line) in *. clearbody label.
    assert (Hs : sliceFrom line (length label + 1) = rest).
    { rewrite E. change (label ++ SPACE :: rest) with (label ++ [SPACE] ++ rest).
      rewrite app_assoc.
      replace (length label + 1) with (length (label ++ [SPACE]))
        by (rewrite length_append; reflexivity).
      apply sliceFrom_app. }
    rewrite Hs.
    assert (Hlen : length line = length label + 1 + length rest).
    { rewrite E. change (label ++ SPACE :: rest) with (label ++ [SPACE] ++ rest).
      rewrite !length_append. change (length [SPACE]) with 1. lia. }
    rewrite E in Hp. apply plainText_app_inv in Hp as [Hpl Hpr].
    change (SPACE :: rest) with ([SPACE] ++ rest) in Hpr.
    apply plainText_app_inv in Hpr as [_ Hpr].
    apply sized_color; [theme_color|].
    eapply sized_eq.
    - apply sized_app; [apply sized_plain; exact Hpl|].
      apply sized_app; [apply sized_plain; reflexivity|].
      apply sized_app; [apply sized_color; [exact Hin|apply sized_plain; exact Hpr]|].
      apply sized_plain. now apply plainText_padEnd.
    - rewrite padEnd_length. change (length (lit " ")) with 1.
      change (length []) with 0.
      pose proof (length_nonneg label). pose proof (length_nonneg rest). lia. }
  unfold formatCommitLine. fold (firstWord line).
  destruct (eqb (firstWord line) (lit "commit")) eqn:E1.
  { apply Hlab; [theme_color|]. unfold isCommitLabel. now rewrite E1. }
  destruct (eqb (firstWord line) (lit "Author:")) eqn:E2.
  { apply Hlab; [theme_color|]. unfold isCommitLabel. now rewrite E1, E2. }
  destruct (eqb (firstWord line) (lit "Date:")) eqn:E3.
  { apply Hlab; [theme_color|]. unfold isCommitLabel. now rewrite E1, E2, E3. }
  exact Hplain.
Qed.

Lemma hunk_header_width (hdr : jstring) :
  WRAP_LINES cfg = false -> 0 <= SCREEN_WIDTH cfg -> plainText hdr ->
  exists h,
    map (fun line =>
           HUNK_HEADER_COLOR theme (padEnd line (SCREEN_WIDTH cfg) SPACE))
      (fitTextToWidth cfg wrap hdr (SCREEN_WIDTH cfg)) = [h]
    /\ sz h (SCREEN_WIDTH cfg).
Proof.
  intros Hw Hsw Hp. unfold fitTextToWidth. rewrite Hw. cbn [map].
  eexists; split; [reflexivity|].
  apply sized_color; [theme_color|].
  eapply sized_eq; [apply sized_plain; now apply plainText_padEnd, plainText_slice|].
  rewrite padEnd_length, slice_prefix_length by assumption. lia.
Qed.

Lemma lineColor_in_theme (half : option HunkLineHalf) :
  In (lineColorForLineHalf theme half) (themeColors theme)
  /\ In (lineNoColorForLineHalf theme half) (themeColors theme).
Proof.
  unfold lineColorForLineHalf, lineNoColorForLineHalf.
  destruct half as [h|]; [|split; theme_color].
  destruct (eqb (prefix h) (lit "-")); [split; theme_color|].
  destruct (eqb (prefix h) (lit "+")); split; theme_color.
Qed.

Lemma hunk_line_half_width (lineNo linePrefix lineText : jstring)
    (lineColor lineNoColor : ThemeColor) :
  In lineColor (themeColors theme) -> In lineNoColor (themeColors theme) ->
  plainText lineNo -> plainText linePrefix -> plainText lineText ->
  length lineNo <= LINE_NUMBER_WIDTH cfg ->
  length linePrefix <= LINE_PREFIX_WIDTH cfg ->
  length lineText <= LINE_TEXT_WIDTH cfg ->
  sz (formatHunkLineHalf cfg lineNo linePrefix lineText lineColor lineNoColor)
     (LINE_WIDTH cfg).
Proof.
  intros Hc Hnc Hn Hp Ht Ln Lp Lt. unfold formatHunkLineHalf.
  eapply sized_eq.
  - apply sized_app; [apply sized_color; [exact Hnc|]|].
    { apply sized_plain. now apply plainText_padStart. }
    apply sized_app; apply sized_color; try exact Hc; apply sized_plain.
    + apply plainText_app; [reflexivity|now apply plainText_padStart].
    + apply plainText_app; [reflexivity|now apply plainText_padEnd].
  - rewrite !length_append, padEnd_length, !padStart_length.
    change (length (lit " ")) with 1.
    rewrite LINE_TEXT_WIDTH_difference in *. lia.
Qed.

Lemma hunk_row_width (lineHalfA lineHalfB : option HunkLineHalf) :
  WRAP_LINES cfg = false ->
  0 <= LINE_NUMBER_WIDTH cfg -> 0 <= LINE_PREFIX_WIDTH cfg ->
  0 <= LINE_TEXT_WIDTH cfg ->
  fitsColumns cfg lineHalfA -> fitsColumns cfg lineHalfB ->
  exists row,
    formatHunkLine cfg theme wrap lineHalfA lineHalfB = [row]
    /\ sz row (2 * LINE_WIDTH cfg).
Proof.
  intros Hw Hn Hp Ht HA HB.
  assert (Hhalf : forall half, fitsColumns cfg half ->
            exists l,
              formatAndFitHunkLineHalf cfg wrap half
                (lineColorForLineHalf theme half)
                (lineNoColorForLineHalf theme half) = [l]
              /\ sz l (LINE_WIDTH cfg)).
  { intros half Hf. unfold formatAndFitHunkLineHalf, fitTextToWidth.
    rewrite Hw. cbn [map]. eexists; split; [reflexivity|].
    destruct (lineColor_in_theme half) as [Hc Hnc].
    assert (Hs : forall t, length (slice t 0 (LINE_TEXT_WIDTH cfg))
                           <= LINE_TEXT_WIDTH cfg)
      by (intros t; rewrite slice_prefix_length by assumption; lia).
    destruct half as [h|].
    - destruct Hf as (P1 & P2 & P3 & L1 & L2).
      apply hunk_line_half_width; auto. now apply plainText_slice.
    - apply hunk_line_half_width; auto;
        try (apply plainText_slice); reflexivity. }
  destruct (Hhalf lineHalfA HA) as (la & Ea & Sa).
  destruct (Hhalf lineHalfB HB) as (lb & Eb & Sb).
  unfold formatHunkLine. rewrite Ea, Eb. cbn [zipLongest map fst snd].
  eexists; split; [reflexivity|].
  eapply sized_eq; [apply sized_app; eassumption|lia].
Qed.

Lemma banner_width (a b : jstring) :
  a = [] \/ b = [] \/ a = b ->
  plainText a -> plainText b ->
  let label := match a with [] => b | _ => a end in
  exists body,
    formatFileName cfg theme (str a) (str b)
    = ([HORIZONTAL_SEPARATOR cfg theme; body; HORIZONTAL_SEPARATOR cfg theme],
       inr tt)
    /\ sz body (Z.max (SCREEN_WIDTH cfg) (length label + 4)).
Proof.
  intros Hab Pa Pb label.
  assert (Hbody : forall indicator,
            sz indicator 2 -> plainText label ->
            sz (bannerBody cfg theme indicator label)
               (Z.max (SCREEN_WIDTH cfg) (length label + 4))).
  { intros indicator Hi Hl. unfold bannerBody. eapply sized_eq.
    - apply sized_app; [apply sized_color; [theme_color|now apply sized_plain]|].
      apply sized_app; [exact Hi|].
      apply sized_color; [theme_color|]. apply sized_plain.
      apply plainText_app; [reflexivity|now apply plainText_padEnd].
    - rewrite length_append, padEnd_length. change (length (lit " ")) with 1. lia. }
  assert (Htwo : forall c, In c (themeColors theme) ->
            sz (c [BLACK_SQUARE; BLACK_SQUARE]) 2).
  { intros c Hc. apply sized_color; [exact Hc|now apply sized_plain]. }
  assert (Hone : sz (DELETED_LINE_COLOR theme [BLACK_SQUARE]
                       ++ INSERTED_LINE_COLOR theme [BLACK_SQUARE]) 2).
  { eapply sized_eq; [apply sized_app; apply sized_color;
                      try (apply sized_plain; reflexivity); theme_color|].
    reflexivity. }
  destruct a as [|c a].
  - eexists; split; [reflexivity|].
    apply Hbody; [apply Htwo; theme_color|exact Pb].
  - destruct b as [|d b].
    + eexists; split; [reflexivity|].
      apply Hbody; [apply Htwo; theme_color|exact Pa].
    + destruct Hab as [H|[H|H]]; try discriminate.
      rewrite <- H. unfold formatFileName, fileNameIndicatorAndLabel.
      cbn [truthy negb strictEq]. rewrite eqb_refl.
      eexists; split; [reflexivity|].
      apply Hbody; [exact Hone|exact Pa].
Qed.

Lemma two_columns_fill_screen :
  Z.even (SCREEN_WIDTH cfg) = true ->
  MIN_LINE_WIDTH cfg <= SCREEN_WIDTH cfg / 2 ->
  2 * LINE_WIDTH cfg = SCREEN_WIDTH cfg.
Proof.
  intros He Hm. destruct (LINE_WIDTH_max cfg) as [-> _].
  rewrite Z.max_l by lia. apply Zeven_bool_iff in He.
  destruct (Zeven_ex _ He) as [k ->]. f_equal.
  rewrite Z.mul_comm. apply Z.div_mul. lia.
Qed.

(** In truncation mode every line of a flushed hunk has its column
    width. *)
Lemma hunk_width (hdr : jstring) (lines : list jstring) (nA nB : jsnum)
    (fA fB : value) :
  WRAP_LINES cfg = false -> 0 <= SCREEN_WIDTH cfg ->
  0 <= LINE_NUMBER_WIDTH cfg -> 1 <= LINE_PREFIX_WIDTH cfg ->
  0 <= LINE_TEXT_WIDTH cfg ->
  plainText hdr -> Forall plainText lines ->
  (forall h, In h (lefts (hunkRows lines nA nB fA fB)
                     ++ rights (hunkRows lines nA nB fA fB)) ->
             length (number h) <= LINE_NUMBER_WIDTH cfg) ->
  exists h body,
    formatHunkSideBySide cfg theme wrap hdr lines nA nB fA fB = h :: body
    /\ sz h (SCREEN_WIDTH cfg)
    /\ Forall (fun l => sz l (2 * LINE_WIDTH cfg)) body.
Proof.
  intros Hw Hsw Hn Hp Ht Hhdr Hlines Hno.
  destruct (hunk_header_width hdr Hw Hsw Hhdr) as (h & Eh & Sh).
  exists h, (flat_map (formatRow cfg theme wrap) (hunkRows lines nA nB fA fB)).
  rewrite formatHunkSideBySide_rows. unfold hunkHeaderLines. rewrite Eh.
  split; [reflexivity|]. split; [exact Sh|].
  assert (Hfit : forall half : HunkLineHalf,
            In half (lefts (hunkRows lines nA nB fA fB)
                       ++ rights (hunkRows lines nA nB fA fB)) ->
            fitsColumns cfg (Some half)).
  { intros half Hin. pose proof (Hno half Hin) as Hlen.
    destruct (hunkRows_halves lines nA nB fA fB half Hin) as (n & l & Hl & ->).
    rewrite Forall_forall in Hlines. specialize (Hlines l Hl).
    cbn [fitsColumns halfOf number prefix text] in *.
    repeat split.
    - apply toString_plain.
    - now apply plainText_slice.
    - now apply plainText_slice.
    - exact Hlen.
    - rewrite slice_prefix_length by lia. lia. }
  apply Forall_flat_map. apply Forall_forall. intros [a b] Hr.
  assert (HA : fitsColumns cfg a).
  { destruct a as [ha|]; [|exact I]. apply Hfit, in_or_app. left.
    now apply (row_left_In _ (Some ha, b)). }
  assert (HB : fitsColumns cfg b).
  { destruct b as [hb|]; [|exact I]. apply Hfit, in_or_app. right.
    now apply (row_right_In _ (a, Some hb)). }
  destruct (hunk_row_width a b Hw Hn ltac:(lia) Ht HA HB) as (row & Er & Sr).
  unfold formatRow. cbn [fst snd]. rewrite Er. now constructor.
Qed.

(** C3, as amended. Widths are counted in code units with the colour
    escapes excluded, on input text that holds no escape sequence. A
    horizontal separator is exactly SCREEN_WIDTH wide. A commit-state line
    other than a bare label is as wide as the larger of SCREEN_WIDTH and
    the length of the line: exactly SCREEN_WIDTH only when the line is no
    longer than that. A banner body whose label is not a rename label is as
    wide as the larger of SCREEN_WIDTH and the length of the label plus 4.
    In truncation mode, with LINE_TEXT_WIDTH non-negative, a prefix column
    and line numbers that fit LINE_NUMBER_WIDTH, the header line of a hunk
    is exactly SCREEN_WIDTH wide and every row of its body exactly twice
    LINE_WIDTH, which is SCREEN_WIDTH when SCREEN_WIDTH is even and
    MIN_LINE_WIDTH is at most its half. *)
Theorem emitted_line_widths :
  sz (HORIZONTAL_SEPARATOR cfg theme) (Z.max 0 (SCREEN_WIDTH cfg))
  /\ (forall line,
        plainText line -> isCommitLabel line = false ->
        sz (formatCommitLine cfg theme line)
           (Z.max (SCREEN_WIDTH cfg) (length line)))
  /\ (forall a b,
        a = [] \/ b = [] \/ a = b -> plainText a -> plainText b ->
        exists body,
          formatFileName cfg theme (str a) (str b)
          = ([HORIZONTAL_SEPARATOR cfg theme; body;
              HORIZONTAL_SEPARATOR cfg theme], inr tt)
          /\ sz body (Z.max (SCREEN_WIDTH cfg)
                        (length (match a with [] => b | _ => a end) + 4)))
  /\ (forall hdr lines nA nB fA fB,
        WRAP_LINES cfg = false -> 0 <= SCREEN_WIDTH cfg ->
        0 <= LINE_NUMBER_WIDTH cfg -> 1 <= LINE_PREFIX_WIDTH cfg ->
        0 <= LINE_TEXT_WIDTH cfg ->
        plainText hdr -> Forall plainText lines ->
        (forall h, In h (lefts (hunkRows lines nA nB fA fB)
                           ++ rights (hunkRows lines nA nB fA fB)) ->
                   length (number h) <= LINE_NUMBER_WIDTH cfg) ->
        exists h body,
          formatHunkSideBySide cfg theme wrap hdr lines nA nB fA fB = h :: body
          /\ sz h (SCREEN_WIDTH cfg)
          /\ Forall (fun l => sz l (2 * LINE_WIDTH cfg)) body)
  /\ (Z.even (SCREEN_WIDTH cfg) = true ->
      MIN_LINE_WIDTH cfg <= SCREEN_WIDTH cfg / 2 ->
      2 * LINE_WIDTH cfg = SCREEN_WIDTH cfg).
Proof.
  split; [exact separator_width|].
  split; [exact commit_line_width|].
  split; [exact banner_width|].
  split; [exact hunk_width|exact two_columns_fill_screen].
Qed.

End Widths.

(** * Further properties *)

(** ** Rows side by side *)

Lemma nth_error_default {A : Type} (l : list A) (i : nat) (d : A) :
  match nth_error l i with Some x => x | None => d end = nth i l d.
Proof.
  revert i; induction l as [|a l IH]; intros [|i]; simpl; auto.
Qed.

Lemma zipLongest_length {A B : Type} (la : list A) (lb : list B) :
  List.length (zipLongest la lb) = Nat.max (List.length la) (List.length lb).
Proof. now rewrite zipLongest_by_position, length_map, length_seq. Qed.

Lemma formatAndFit_length cfg wrap half lineColor lineNoColor :
  List.length (formatAndFitHunkLineHalf cfg wrap half lineColor lineNoColor)
  = List.length
      (fitTextToWidth cfg wrap
         (match half with Some h => text h | None => [] end)
         (LINE_TEXT_WIDTH cfg)).
Proof.
  unfold formatAndFitHunkLineHalf.
  destruct (fitTextToWidth _ _ _ _) as [|first others]; [reflexivity|].
  simpl. now rewrite length_map.
Qed.

(** X1. [formatHunkLine] pairs the fitted lines of the two halves by
    position: line [i] of a row is the [i]-th fitted line of side A followed
    by the [i]-th fitted line of side B, and a side that has run out of
    fitted lines is filled with its own line colour applied to [BLANK_LINE].
    A row therefore has as many lines as the side with more segments, the
    segments being what [fitTextToWidth] returns for the text of the half. *)
Theorem hunk_line_alignment cfg theme wrap (lineHalfA lineHalfB : option HunkLineHalf) :
  let lineColorA := lineColorForLineHalf theme lineHalfA in
  let lineColorB := lineColorForLineHalf theme lineHalfB in
  let formattedLinesA :=
    formatAndFitHunkLineHalf cfg wrap lineHalfA lineColorA
      (lineNoColorForLineHalf theme lineHalfA) in
  let formattedLinesB :=
    formatAndFitHunkLineHalf cfg wrap lineHalfB lineColorB
      (lineNoColorForLineHalf theme lineHalfB) in
  let segments half :=
    fitTextToWidth cfg wrap
      (match half with Some h => text h | None => [] end)
      (LINE_TEXT_WIDTH cfg) in
  formatHunkLine cfg theme wrap lineHalfA lineHalfB
  = map (fun i =>
           nth i formattedLinesA (lineColorA (BLANK_LINE cfg))
             ++ nth i formattedLinesB (lineColorB (BLANK_LINE cfg)))
      (seq 0 (Nat.max (List.length formattedLinesA)
                (List.length formattedLinesB)))
  /\ List.length (formatHunkLine cfg theme wrap lineHalfA lineHalfB)
     = Nat.max (List.length (segments lineHalfA))
         (List.length (segments lineHalfB)).
Proof.
  cbv zeta. split.
  - unfold formatHunkLine. rewrite zipLongest_by_position, map_map.
    apply map_ext. intros i. cbn [fst snd].
    now rewrite !nth_error_default.
  - unfold formatHunkLine.
    now rewrite length_map, zipLongest_length, !formatAndFit_length.
Qed.

(** ** Counting rows *)

Lemma lefts_length_le (rows : list Row) :
  (List.length (lefts rows) <= List.length rows)%nat.
Proof.
  induction rows as [|[[h|] b] rows IH]; simpl; lia.
Qed.

Lemma rights_length_le (rows : list Row) :
  (List.length (rights rows) <= List.length rows)%nat.
Proof.
  induction rows as [|[a [h|]] rows IH]; simpl; lia.
Qed.

Lemma flush_rows_length (ps : list (option jstring * option jstring))
    (acc : HunkAcc Row) :
  List.length (formattedLines (fold_left (flushRow rowEmit) ps acc))
  = (List.length (formattedLines acc) + List.length ps)%nat.
Proof.
  revert acc; induction ps as [|p ps IH]; intros acc; simpl; [lia|].
  rewrite IH. simpl. rewrite List.length_app. simpl. lia.
Qed.

Lemma flushHunkChange_length (acc : HunkAcc Row) :
  List.length (formattedLines (flushHunkChange rowEmit acc))
  = (List.length (formattedLines acc)
     + Nat.max (List.length (linesA acc)) (List.length (linesB acc)))%nat.
Proof.
  unfold flushHunkChange. now rewrite flush_rows_length, zipLongest_length.
Qed.

Lemma accumulate_length (fA fB : value) (lines : list jstring)
    (acc : HunkAcc Row) :
  (List.length
     (formattedLines
        (flushHunkChange rowEmit
           (fold_left (accumulateLine rowEmit fA fB) lines acc)))
   <= List.length (formattedLines acc)
      + Nat.max (List.length (linesA acc)) (List.length (linesB acc))
      + List.length lines)%nat.
Proof.
  revert acc; induction lines as [|l ls IH]; intros acc.
  - cbn [fold_left]. rewrite flushHunkChange_length. simpl. lia.
  - cbn [fold_left]. etransitivity; [apply IH|].
    unfold accumulateLine.
    destruct (startsWith l (lit "-")).
    { cbn [formattedLines linesA linesB]. rewrite List.length_app. simpl. lia. }
    destruct (startsWith l (lit "+")).
    { cbn [formattedLines linesA linesB]. rewrite List.length_app. simpl. lia. }
    cbn [formattedLines linesA linesB]. rewrite flushHunkChange_length.
    destruct (truthy fA), (truthy fB); simpl; lia.
Qed.

Lemma flat_map_length_one {A B : Type} (f : A -> list B) (l : list A) :
  (forall a, List.length (f a) = 1%nat) ->
  List.length (flat_map f l) = List.length l.
Proof.
  intros H. induction l as [|a l IH]; [reflexivity|].
  simpl. rewrite List.length_app, H, IH. reflexivity.
Qed.

Lemma formatRow_truncated cfg theme wrap (r : Row) :
  WRAP_LINES cfg = false ->
  List.length (formatRow cfg theme wrap r) = 1%nat.
Proof.
  intros Hw. unfold formatRow, formatHunkLine.
  rewrite length_map, zipLongest_length, !formatAndFit_length.
  unfold fitTextToWidth. now rewrite Hw.
Qed.

(** X2. A hunk has at least as many rows as it has lines that reach the
    left column, at least as many as reach the right column, and at most as
    many as it has body lines. In truncation mode [formatHunkSideBySide]
    emits one line for the hunk header and then one line per row. *)
Theorem hunk_row_count cfg theme wrap hdr lines nA nB fA fB :
  let rows := hunkRows lines nA nB fA fB in
  (List.length (filter (reachesA fA) lines) <= List.length rows)%nat
  /\ (List.length (filter (reachesB fB) lines) <= List.length rows)%nat
  /\ (List.length rows <= List.length lines)%nat
  /\ (WRAP_LINES cfg = false ->
      List.length (formatHunkSideBySide cfg theme wrap hdr lines nA nB fA fB)
      = S (List.length rows)).
Proof.
  intros rows.
  destruct (hunkRows_columns lines nA nB fA fB) as (HL & HR & _).
  fold rows in HL, HR. repeat split.
  - rewrite <- (halvesFrom_length nA), <- HL. apply lefts_length_le.
  - rewrite <- (halvesFrom_length nB), <- HR. apply rights_length_le.
  - unfold rows, hunkRows, hunkRowsAcc, accumulateHunk.
    etransitivity; [apply accumulate_length|]. simpl. lia.
  - intros Hw. rewrite formatHunkSideBySide_rows, List.length_app.
    fold rows. rewrite (flat_map_length_one _ rows (fun r => formatRow_truncated cfg theme wrap r Hw)).
    unfold hunkHeaderLines, fitTextToWidth. now rewrite Hw.
Qed.

(** ** Files with one side *)

Lemma flush_right_only (lb : list jstring) (acc : HunkAcc Row) :
  let acc' :=
    fold_left (flushRow rowEmit) (map (fun b => (@None jstring, Some b)) lb) acc in
  formattedLines acc'
  = formattedLines acc
      ++ map (fun h => (@None HunkLineHalf, Some h)) (halvesFrom (lineNoB acc) lb)
  /\ lineNoB acc' = advance (lineNoB acc) (List.length lb)
  /\ lineNoA acc' = lineNoA acc.
Proof.
  revert acc; induction lb as [|b lb IH]; intros acc; simpl.
  - now rewrite app_nil_r.
  - destruct (IH (flushRow rowEmit acc (None, Some b))) as (H1 & H2 & H3).
    rewrite H1, H2, H3. simpl. rewrite <- app_assoc. repeat split.
    unfold advance. now rewrite <- Nat.iter_succ_r.
Qed.

Lemma flush_left_only (la : list jstring) (acc : HunkAcc Row) :
  let acc' :=
    fold_left (flushRow rowEmit) (map (fun a => (Some a, @None jstring)) la) acc in
  formattedLines acc'
  = formattedLines acc
      ++ map (fun h => (Some h, @None HunkLineHalf)) (halvesFrom (lineNoA acc) la)
  /\ lineNoA acc' = advance (lineNoA acc) (List.length la)
  /\ lineNoB acc' = lineNoB acc.
Proof.
  revert acc; induction la as [|a la IH]; intros acc; simpl.
  - now rewrite app_nil_r.
  - destruct (IH (flushRow rowEmit acc (Some a, None))) as (H1 & H2 & H3).
    rewrite H1, H2, H3. simpl. rewrite <- app_assoc. repeat split.
    unfold advance. now rewrite <- Nat.iter_succ_r.
Qed.

Lemma accumulate_right_only (fA fB : value) (lines : list jstring)
    (acc : HunkAcc Row) :
  truthy fA = false -> truthy fB = true ->
  forallb (fun l => negb (isDeletion l)) lines = true ->
  linesA acc = [] ->
  formattedLines
    (flushHunkChange rowEmit (fold_left (accumulateLine rowEmit fA fB) lines acc))
  = formattedLines acc
      ++ map (fun h => (@None HunkLineHalf, Some h))
           (halvesFrom (lineNoB acc) (linesB acc ++ lines)).
Proof.
  intros HfA HfB. revert acc; induction lines as [|l ls IH]; intros acc Hl HA.
  - cbn [fold_left]. rewrite app_nil_r. unfold flushHunkChange. rewrite HA.
    cbn [zipLongest]. apply flush_right_only.
  - cbn [forallb] in Hl. apply andb_true_iff in Hl as [Hd Hl].
    apply negb_true_iff in Hd. unfold isDeletion in Hd.
    cbn [fold_left]. rewrite IH; [|exact Hl|].
    + unfold accumulateLine. rewrite Hd, HfA, HfB.
      destruct (startsWith l (lit "+")).
      { cbn [formattedLines linesB lineNoB].
        replace ((linesB acc ++ [l]) ++ ls) with (linesB acc ++ l :: ls)
          by (apply (app_assoc _ [l] ls)).
        reflexivity. }
      cbn [formattedLines linesB lineNoB]. unfold flushHunkChange.
      rewrite HA. cbn [zipLongest].
      destruct (flush_right_only (linesB acc) acc) as (H1 & H2 & _).
      rewrite H1, H2, <- app_assoc, <- map_app. do 2 f_equal.
      now rewrite (halvesFrom_app (lineNoB acc) (linesB acc)).
    + unfold accumulateLine. rewrite Hd, HfA.
      destruct (startsWith l (lit "+")); [exact HA|reflexivity].
Qed.

Lemma zipLongest_nil_right {A B : Type} (la : list A) :
  zipLongest la (@nil B) = map (fun a => (Some a, None)) la.
Proof. destruct la; reflexivity. Qed.

Lemma accumulate_left_only (fA fB : value) (lines : list jstring)
    (acc : HunkAcc Row) :
  truthy fA = true -> truthy fB = false ->
  forallb (fun l => negb (isInsertion l)) lines = true ->
  linesB acc = [] ->
  formattedLines
    (flushHunkChange rowEmit (fold_left (accumulateLine rowEmit fA fB) lines acc))
  = formattedLines acc
      ++ map (fun h => (Some h, @None HunkLineHalf))
           (halvesFrom (lineNoA acc) (linesA acc ++ lines)).
Proof.
  intros HfA HfB. revert acc; induction lines as [|l ls IH]; intros acc Hl HB.
  - cbn [fold_left]. rewrite app_nil_r. unfold flushHunkChange. rewrite HB.
    rewrite zipLongest_nil_right. apply flush_left_only.
  - cbn [forallb] in Hl. apply andb_true_iff in Hl as [Hi Hl].
    apply negb_true_iff in Hi. unfold isInsertion in Hi.
    cbn [fold_left]. rewrite IH; [|exact Hl|].
    + unfold accumulateLine. rewrite Hi, HfA, HfB.
      destruct (startsWith l (lit "-")).
      { cbn [formattedLines linesA lineNoA].
        replace ((linesA acc ++ [l]) ++ ls) with (linesA acc ++ l :: ls)
          by (apply (app_assoc _ [l] ls)).
        reflexivity. }
      cbn [formattedLines linesA lineNoA]. unfold flushHunkChange.
      rewrite HB, zipLongest_nil_right.
      destruct (flush_left_only (linesA acc) acc) as (H1 & H2 & _).
      rewrite H1, H2, <- app_assoc, <- map_app. do 2 f_equal.
      now rewrite (halvesFrom_app (lineNoA acc) (linesA acc)).
    + unfold accumulateLine. rewrite Hi, HfB.
      destruct (startsWith l (lit "-")); [exact HB|reflexivity].
Qed.

(** X3. In the hunk of an added file (old name empty, new name not) that
    holds no deletion, every body line is a row of its own whose left half is
    missing, the right halves being numbered from the start value of side B
    in the order of the lines; and the same with the sides exchanged for a
    deleted file whose hunk holds no insertion. *)
Theorem one_sided_file_rows (lines : list jstring) (nA nB : jsnum)
    (fA fB : value) :
  (truthy fA = false -> truthy fB = true ->
   forallb (fun l => negb (isDeletion l)) lines = true ->
   hunkRows lines nA nB fA fB
   = map (fun h => (None, Some h)) (halvesFrom nB lines))
  /\ (truthy fA = true -> truthy fB = false ->
      forallb (fun l => negb (isInsertion l)) lines = true ->
      hunkRows lines nA nB fA fB
      = map (fun h => (Some h, None)) (halvesFrom nA lines)).
Proof.
  split; intros HfA HfB Hl; unfold hunkRows, hunkRowsAcc, accumulateHunk.
  - rewrite (accumulate_right_only fA fB lines); auto.
  - rewrite (accumulate_left_only fA fB lines); auto.
Qed.

(** ** Hunks without file names, hunks without numbers *)

Lemma filter_ext_bool {A : Type} (f g : A -> bool) (l : list A) :
  (forall a, f a = g a) -> filter f l = filter g l.
Proof. intros H. induction l as [|a l IH]; simpl; [reflexivity|]. now rewrite H, IH. Qed.

Lemma insertion_is_no_deletion (l : jstring) :
  isInsertion l = true -> isDeletion l = false.
Proof.
  unfold isInsertion, isDeletion. destruct l as [|c l]; [discriminate|].
  cbn. rewrite !andb_true_r. intros H. apply N.eqb_eq in H. now subst.
Qed.

Lemma rows_cover (rows : list Row) :
  Forall (fun r : Row => fst r <> None \/ snd r <> None) rows ->
  (List.length rows <= List.length (lefts rows) + List.length (rights rows))%nat.
Proof.
  induction 1 as [|[a b] rows H _ IH]; simpl; [lia|].
  rewrite !List.length_app. cbn [fst snd] in *.
  destruct a, b; simpl; try lia. destruct H; congruence.
Qed.

Lemma zipLongest_covers {A B : Type} (la : list A) (lb : list B) :
  Forall (fun p => fst p <> None \/ snd p <> None) (zipLongest la lb).
Proof.
  revert lb; induction la as [|a la IH]; intros lb.
  - simpl. apply Forall_forall. intros p Hp. apply in_map_iff in Hp.
    destruct Hp as (b & <- & _). right. discriminate.
  - destruct lb as [|b lb].
    + apply Forall_forall. intros p Hp. cbn [zipLongest] in Hp.
      apply in_map_iff in Hp. destruct Hp as (x & <- & _). left. discriminate.
    + simpl. constructor; [left; discriminate|apply IH].
Qed.

Lemma flush_covered (ps : list (option jstring * option jstring))
    (acc : HunkAcc Row) :
  Forall (fun p => fst p <> None \/ snd p <> None) ps ->
  Forall covered (formattedLines acc) ->
  Forall covered (formattedLines (fold_left (flushRow rowEmit) ps acc)).
Proof.
  intros Hps; revert acc; induction Hps as [|p ps Hp _ IH]; intros acc Ha;
    [exact Ha|].
  simpl. apply IH. simpl. apply Forall_app. split; [exact Ha|].
  constructor; [|constructor]. unfold covered. simpl.
  destruct Hp as [Hp|Hp]; [left|right]; destruct p as [[a|] [b|]];
    simpl in *; congruence.
Qed.

Lemma accumulate_covered (fA fB : value) (lines : list jstring)
    (acc : HunkAcc Row) :
  Forall covered (formattedLines acc) ->
  Forall covered
    (formattedLines
       (flushHunkChange rowEmit
          (fold_left (accumulateLine rowEmit fA fB) lines acc))).
Proof.
  revert acc; induction lines as [|l ls IH]; intros acc Ha.
  - apply flush_covered; [apply zipLongest_covers|exact Ha].
  - cbn [fold_left]. apply IH. unfold accumulateLine.
    destruct (startsWith l (lit "-")); [exact Ha|].
    destruct (startsWith l (lit "+")); [exact Ha|].
    cbn [formattedLines]. apply flush_covered; [apply zipLongest_covers|exact Ha].
Qed.

Lemma repeat_map_const {A B : Type} (b : B) (l : list A) :
  map (fun _ => b) l = repeat b (List.length l).
Proof. induction l as [|a l IH]; simpl; [reflexivity|now rewrite IH]. Qed.

Lemma advance_NaN (k : nat) : advance NaN k = NaN.
Proof. induction k as [|k IH]; [reflexivity|]. unfold advance in *. simpl. now rewrite IH. Qed.

(** X4. When both file names are empty, context lines reach neither
    column: the left column is the deletions, the right column the
    insertions, each numbered from its start value, there are no more rows
    than deletions and insertions together, and a hunk of context lines only
    has no row at all. *)
Theorem nameless_hunk_rows (lines : list jstring) (nA nB : jsnum)
    (fA fB : value) :
  truthy fA = false -> truthy fB = false ->
  let rows := hunkRows lines nA nB fA fB in
  lefts rows = halvesFrom nA (filter isDeletion lines)
  /\ rights rows = halvesFrom nB (filter isInsertion lines)
  /\ (List.length rows
      <= List.length (filter isDeletion lines)
         + List.length (filter isInsertion lines))%nat
  /\ (forallb isContext lines = true -> rows = []).
Proof.
  intros HfA HfB rows.
  destruct (hunkRows_columns lines nA nB fA fB) as (HL & HR & _).
  fold rows in HL, HR.
  assert (EA : filter (reachesA fA) lines = filter isDeletion lines).
  { apply filter_ext_bool. intros l. unfold reachesA. rewrite HfA.
    now rewrite andb_false_r, orb_false_r. }
  assert (EB : filter (reachesB fB) lines = filter isInsertion lines).
  { apply filter_ext_bool. intros l. unfold reachesB. rewrite HfB, orb_false_r.
    destruct (isInsertion l) eqn:Ei; [|apply andb_false_r].
    now rewrite (insertion_is_no_deletion l Ei). }
  rewrite EA in HL. rewrite EB in HR.
  assert (Hlen : (List.length rows
                  <= List.length (filter isDeletion lines)
                     + List.length (filter isInsertion lines))%nat).
  { rewrite <- (halvesFrom_length nA (filter isDeletion lines)), <- HL.
    rewrite <- (halvesFrom_length nB (filter isInsertion lines)), <- HR.
    apply rows_cover. apply (accumulate_covered fA fB lines). constructor. }
  repeat split; try assumption.
  intros Hc.
  assert (Hd : filter isDeletion lines = [] /\ filter isInsertion lines = []).
  { clear - Hc. induction lines as [|l ls IH]; [now split|].
    cbn [forallb] in Hc. apply andb_true_iff in Hc as [Hl Hc].
    unfold isContext in Hl. apply andb_true_iff in Hl as [H1 H2].
    apply negb_true_iff in H1, H2. cbn [filter]. rewrite H1, H2. now apply IH. }
  destruct Hd as [Hd Hi]. rewrite Hd, Hi in Hlen. simpl in Hlen.
  destruct rows; [reflexivity|simpl in Hlen; lia].
Qed.

(** X5. When both start values of a hunk are NaN, as after a header
    whose ranges are not numeric, every line number of both columns is the
    text NaN: incrementing NaN gives NaN. *)
Theorem nan_line_numbers (lines : list jstring) (fA fB : value) :
  let rows := hunkRows lines NaN NaN fA fB in
  map number (lefts rows) = repeat (lit "NaN") (List.length (lefts rows))
  /\ map number (rights rows) = repeat (lit "NaN") (List.length (rights rows)).
Proof.
  intros rows.
  destruct (hunkRows_columns lines NaN NaN fA fB) as (HL & HR & _).
  fold rows in HL, HR. rewrite HL, HR, !halvesFrom_length.
  split.
  - rewrite (halvesFrom_numbers NaN _ 0).
    transitivity (map (fun _ : nat => lit "NaN")
                    (seq 0 (List.length (filter (reachesA fA) lines)))).
    + apply map_ext. intros i. now rewrite advance_NaN.
    + now rewrite repeat_map_const, length_seq.
  - rewrite (halvesFrom_numbers NaN _ 0).
    transitivity (map (fun _ : nat => lit "NaN")
                    (seq 0 (List.length (filter (reachesB fB) lines)))).
    + apply map_ext. intros i. now rewrite advance_NaN.
    + now rewrite repeat_map_const, length_seq.
Qed.

(** X6. In truncation mode [fitTextToWidth] yields one segment whatever
    the text: its first [width] units, and for a negative width the text
    without its last [-width] units, as [String.prototype.slice] cuts. *)
Theorem truncation_cut cfg wrap (text : jstring) (width : Z) :
  WRAP_LINES cfg = false ->
  fitTextToWidth cfg wrap text width
  = [firstn (Z.to_nat (if width <? 0 then length text + width else width)) text].
Proof.
  intros Hw. unfold fitTextToWidth, slice, relIndex. rewrite Hw.
  pose proof (length_nonneg text) as Hl.
  replace (0 <? 0) with false by reflexivity.
  rewrite (Z.min_l 0) by lia. cbn [Z.to_nat skipn]. rewrite Z.sub_0_r.
  f_equal. destruct (width <? 0) eqn:E.
  - apply Z.ltb_lt in E. destruct (Z.max_spec (length text + width) 0) as [[H ->]|[H ->]].
    + replace (Z.to_nat (length text + width)) with O by lia. reflexivity.
    + reflexivity.
  - apply Z.ltb_ge in E. destruct (Z.min_spec width (length text)) as [[H ->]|[H ->]].
    + reflexivity.
    + rewrite firstn_all2 by (unfold length in *; lia).
      rewrite firstn_all2 by (unfold length in *; lia). reflexivity.
Qed.

(** ** The binary-files pattern *)

Lemma firstn_skipn_length {A : Type} (n : nat) (l : list A) :
  (n <= List.length l)%nat -> List.length (firstn n l) = n.
Proof. intros H. rewrite length_firstn. lia. Qed.

Lemma matchSideB_sound (s : jstring) (v : value) :
  matchSideB s = Some v ->
  s = sideText (lit "b/") v ++ lit " differ" /\ onOneLine v.
Proof.
  unfold matchSideB. cbv zeta.
  assert (Hnull : (if eqb s (lit "/dev/null differ")
                   then Some undefined else None) = Some v ->
                  s = sideText (lit "b/") v ++ lit " differ" /\ onOneLine v).
  { destruct (eqb s (lit "/dev/null differ")) eqn:E; [|discriminate].
    apply eqb_eq in E. subst s. intros H. injection H as <-. now split. }
  destruct (startsWith s (lit "b/")) eqn:Hb; [|exact Hnull].
  set (r := skipn 2 s) in *.
  set (n := (List.length r - List.length (lit " differ"))%nat) in *.
  destruct ((List.length (lit " differ") <=? List.length r)%nat
            && eqb (skipn n r) (lit " differ") && dotStar (firstn n r)) eqn:Hc;
    [|exact Hnull].
  apply andb_true_iff in Hc as [Hc Hd]. apply andb_true_iff in Hc as [_ Ht].
  intros H. injection H as <-. split; [|exact Hd].
  apply eqb_eq in Ht. cbn [sideText].
  rewrite (startsWith_app _ _ Hb). fold r.
  rewrite <- app_assoc. f_equal.
  rewrite <- Ht. symmetry. apply firstn_skipn.
Qed.

Lemma matchGroupA_attempt_sound (t : jstring) (k : nat) (va vb : value) :
  (if dotStar (firstn k t) && startsWith (skipn k t) (lit " and ")
   then option_map (pair (str (firstn k t))) (matchSideB (skipn (k + 5) t))
   else None) = Some (va, vb) ->
  exists a, va = str a /\ dotStar a = true
            /\ t = a ++ lit " and " ++ sideText (lit "b/") vb ++ lit " differ"
            /\ onOneLine vb.
Proof.
  destruct (dotStar (firstn k t) && startsWith (skipn k t) (lit " and ")) eqn:Hc;
    [|discriminate].
  apply andb_true_iff in Hc as [Hd Hs].
  destruct (matchSideB (skipn (k + 5) t)) as [v|] eqn:Hm; [|discriminate].
  cbn [option_map]. intros H. injection H as <- <-.
  destruct (matchSideB_sound _ _ Hm) as [E Hv].
  exists (firstn k t). split; [reflexivity|]. split; [exact Hd|].
  split; [|exact Hv]. rewrite <- E.
  rewrite <- (firstn_skipn k t) at 1. f_equal.
  rewrite (startsWith_app _ _ Hs) at 1. f_equal.
  rewrite skipn_skipn. f_equal. cbn. lia.
Qed.

Lemma matchGroupA_sound (t : jstring) (k : nat) (va vb : value) :
  matchGroupA t k = Some (va, vb) ->
  exists a, va = str a /\ dotStar a = true
            /\ t = a ++ lit " and " ++ sideText (lit "b/") vb ++ lit " differ"
            /\ onOneLine vb.
Proof.
  induction k as [|k IH]; cbn [matchGroupA]; cbv zeta;
    match goal with
    | |- context [if ?c then ?x else None] =>
        destruct (if c then x else None) as [r|] eqn:Ha
    end.
  - intros H. injection H as ->. now apply (matchGroupA_attempt_sound t 0).
  - discriminate.
  - intros H. injection H as ->. now apply (matchGroupA_attempt_sound t (S k)).
  - exact IH.
Qed.

(** X7. Whenever the binary-files pattern matches a line, the line is
    the words Binary files, side A, the word and, side B, the word differ,
    where a captured name stands behind [a/] (resp. [b/]) and a side without
    a captured name is the null device; a captured name holds no line
    terminator. *)
Theorem binary_files_match_sound (line : jstring) (nameA nameB : value) :
  BINARY_FILES_DIFF_REGEX line = Some (nameA, nameB) ->
  line = binaryFilesLine nameA nameB /\ onOneLine nameA /\ onOneLine nameB.
Proof.
  unfold BINARY_FILES_DIFF_REGEX, binaryFilesLine.
  destruct (startsWith line (lit "Binary files ")) eqn:Hp; [|discriminate].
  pose proof (startsWith_app _ _ Hp) as Hline.
  change (List.length (lit "Binary files ")) with 13%nat in Hline.
  remember (skipn 13 line) as s eqn:Hs. clear Hs Hp. subst line. cbv zeta.
  assert (Hnull : (if startsWith s (lit "/dev/null and ")
                   then option_map (pair undefined) (matchSideB (skipn 14 s))
                   else None) = Some (nameA, nameB) ->
                  lit "Binary files " ++ s
                  = lit "Binary files " ++ sideText (lit "a/") nameA
                      ++ lit " and " ++ sideText (lit "b/") nameB ++ lit " differ"
                  /\ onOneLine nameA /\ onOneLine nameB).
  { destruct (startsWith s (lit "/dev/null and ")) eqn:Hn; [|discriminate].
    destruct (matchSideB (skipn 14 s)) as [v|] eqn:Hm; [|discriminate].
    cbn [option_map]. intros H. injection H as <- <-.
    destruct (matchSideB_sound _ _ Hm) as [E Hv].
    split; [|split; [exact I|exact Hv]]. f_equal.
    rewrite (startsWith_app _ _ Hn) at 1.
    change (List.length (lit "/dev/null and ")) with 14%nat. rewrite E.
    reflexivity. }
  destruct (startsWith s (lit "a/")) eqn:Ha; [|exact Hnull].
  destruct (matchGroupA (skipn 2 s) (List.length (skipn 2 s))) as [[va vb]|] eqn:Hg;
    [|exact Hnull].
  intros H. injection H as <- <-.
  destruct (matchGroupA_sound _ _ _ _ Hg) as (a & -> & Hd & E & Hv).
  split; [|split; [exact Hd|exact Hv]]. f_equal.
  rewrite (startsWith_app _ _ Ha) at 1.
  change (List.length (lit "a/")) with 2%nat. rewrite E.
  cbn [sideText]. now rewrite <- !app_assoc.
Qed.

Lemma matchSideB_path (b : jstring) :
  dotStar b = true -> matchSideB (lit "b/" ++ b ++ lit " differ") = Some (str b).
Proof.
  intros Hd. unfold matchSideB. cbv zeta.
  rewrite startsWith_prefix.
  change (skipn 2 (lit "b/" ++ b ++ lit " differ")) with (b ++ lit " differ").
  rewrite List.length_app.
  replace (List.length b + List.length (lit " differ") - List.length (lit " differ"))%nat
    with (List.length b) by lia.
  rewrite skipn_app_exact, firstn_app_exact, eqb_refl, Hd.
  replace (List.length (lit " differ") <=? List.length b + List.length (lit " differ"))%nat
    with true by (symmetry; apply Nat.leb_le; lia).
  reflexivity.
Qed.

Lemma matchGroupA_unfold (t : jstring) (k : nat) :
  matchGroupA t k
  = match (if dotStar (firstn k t) && startsWith (skipn k t) (lit " and ")
           then option_map (pair (str (firstn k t)))
                  (matchSideB (skipn (k + 5) t))
           else None) with
    | Some r => Some r
    | None => match k with
              | O => None
              | S k' => matchGroupA t k'
              end
    end.
Proof. destruct k; reflexivity. Qed.

Lemma matchGroupA_skip (t : jstring) (n d : nat) :
  (forall j, (n < j)%nat -> startsWith (skipn j t) (lit " and ") = false) ->
  matchGroupA t (n + d) = matchGroupA t n.
Proof.
  intros H. induction d as [|d IH]; [now rewrite Nat.add_0_r|].
  rewrite Nat.add_succ_r, matchGroupA_unfold.
  rewrite (H (S (n + d))) by lia. now rewrite andb_false_r.
Qed.

Lemma matchGroupA_at (a rest : jstring) (vb : value) :
  dotStar a = true -> matchSideB rest = Some vb ->
  matchGroupA (a ++ lit " and " ++ rest) (List.length a) = Some (str a, vb).
Proof.
  intros Hd Hm. rewrite matchGroupA_unfold.
  rewrite firstn_app_exact, skipn_app_exact, Hd, startsWith_prefix.
  replace (skipn (List.length a + 5) (a ++ lit " and " ++ rest)) with rest.
  - now rewrite Hm.
  - rewrite Nat.add_comm, <- skipn_skipn, skipn_app_exact. reflexivity.
Qed.

(** Behind the separator of a binary-files line no other separator is
    found, when the second path holds no space. *)
Lemma no_separator_in_path (b : jstring) (i : nat) :
  forallb (fun c => negb (N.eqb c SPACE)) b = true ->
  startsWith (skipn i (b ++ lit " differ")) (lit " and ") = false.
Proof.
  revert i; induction b as [|c b IH]; intros i Hb.
  - do 8 (destruct i as [|i]; [reflexivity|]). now destruct i.
  - cbn [forallb] in Hb. apply andb_true_iff in Hb as [Hc Hb].
    apply negb_true_iff in Hc. destruct i as [|i]; [|now apply IH].
    change (N.eqb c SPACE && startsWith (b ++ lit " differ") (lit "and ") = false).
    now rewrite Hc.
Qed.

Lemma no_separator_after_path (b : jstring) (j : nat) :
  forallb (fun c => negb (N.eqb c SPACE)) b = true ->
  (0 < j)%nat ->
  startsWith (skipn j (lit " and b/" ++ b ++ lit " differ")) (lit " and ")
  = false.
Proof.
  intros Hb Hj.
  do 7 (destruct j as [|j]; [try lia; try reflexivity|]).
  change (skipn (S (S (S (S (S (S (S j)))))))
            (lit " and b/" ++ b ++ lit " differ"))
    with (skipn j (b ++ lit " differ")).
  now apply no_separator_in_path.
Qed.

Lemma no_separator_after_null (j : nat) :
  (0 < j)%nat ->
  startsWith (skipn j (lit " and /dev/null differ")) (lit " and ") = false.
Proof.
  intros Hj. do 22 (destruct j as [|j]; [try lia; try reflexivity|]).
  now destruct j.
Qed.

Lemma skipn_past {A : Type} (l1 l2 : list A) (j : nat) :
  (List.length l1 < j)%nat ->
  skipn j (l1 ++ l2) = skipn (j - List.length l1) l2.
Proof.
  intros H. rewrite skipn_app, skipn_all2 by lia. reflexivity.
Qed.

Lemma matchGroupA_greedy (a tail : jstring) (vb : value) :
  dotStar a = true ->
  matchSideB (skipn 5 tail) = Some vb ->
  startsWith tail (lit " and ") = true ->
  (forall j, (0 < j)%nat -> startsWith (skipn j tail) (lit " and ") = false) ->
  matchGroupA (a ++ tail) (List.length (a ++ tail)) = Some (str a, vb).
Proof.
  intros Hd Hm Hs Hno. rewrite List.length_app.
  rewrite matchGroupA_skip.
  - rewrite (startsWith_app _ _ Hs). now apply matchGroupA_at.
  - intros j Hj. rewrite skipn_past by exact Hj. apply Hno. lia.
Qed.

Lemma roundtrip_both (a b : jstring) :
  dotStar a = true -> dotStar b = true ->
  forallb (fun c => negb (N.eqb c SPACE)) b = true ->
  BINARY_FILES_DIFF_REGEX (binaryFilesLine (str a) (str b))
  = Some (str a, str b).
Proof.
  intros Ha Hb Hsp. unfold BINARY_FILES_DIFF_REGEX, binaryFilesLine.
  rewrite startsWith_prefix. cbn [sideText].
  change (skipn 13 (lit "Binary files " ++ ?x)) with x.
  rewrite <- (app_assoc (lit "a/")), startsWith_prefix.
  change (skipn 2 (lit "a/" ++ ?x)) with x.
  change (a ++ lit " and " ++ (lit "b/" ++ b) ++ lit " differ")
    with (a ++ lit " and b/" ++ b ++ lit " differ").
  rewrite (matchGroupA_greedy a _ (str b)); auto.
  - now apply matchSideB_path.
  - intros j Hj. now apply no_separator_after_path.
Qed.

Lemma roundtrip_deleted (a : jstring) :
  dotStar a = true ->
  BINARY_FILES_DIFF_REGEX (binaryFilesLine (str a) undefined)
  = Some (str a, undefined).
Proof.
  intros Ha. unfold BINARY_FILES_DIFF_REGEX, binaryFilesLine.
  rewrite startsWith_prefix. cbn [sideText].
  change (skipn 13 (lit "Binary files " ++ ?x)) with x.
  rewrite <- (app_assoc (lit "a/")), startsWith_prefix.
  change (skipn 2 (lit "a/" ++ ?x)) with x.
  change (a ++ lit " and " ++ lit "/dev/null" ++ lit " differ")
    with (a ++ lit " and /dev/null differ").
  rewrite (matchGroupA_greedy a _ undefined); auto.
  intros j Hj. now apply no_separator_after_null.
Qed.

Lemma roundtrip_added (b : jstring) :
  dotStar b = true ->
  BINARY_FILES_DIFF_REGEX (binaryFilesLine undefined (str b))
  = Some (undefined, str b).
Proof.
  intros Hb. unfold BINARY_FILES_DIFF_REGEX, binaryFilesLine.
  rewrite startsWith_prefix. cbn [sideText].
  change (skipn 13 (lit "Binary files " ++ ?x)) with x.
  change (startsWith (lit "/dev/null" ++ ?x) (lit "a/")) with false.
  cbv iota.
  change (startsWith (lit "/dev/null" ++ lit " and " ++ ?x)
            (lit "/dev/null and ")) with true.
  cbv iota.
  change (skipn 14 (lit "/dev/null" ++ lit " and " ++ ?x)) with x.
  rewrite <- app_assoc. now rewrite matchSideB_path.
Qed.

(** X8. The binary-files pattern gives back the names a binary-files
    line was built from: both names when the new name holds no space (and
    neither holds a line terminator), the old name and [undefined] for a
    deleted file, [undefined] and the new name for an added file, and twice
    [undefined] when both sides are the null device. *)
Theorem binary_files_match_names :
  (forall a b,
     dotStar a = true -> dotStar b = true ->
     forallb (fun c => negb (N.eqb c SPACE)) b = true ->
     BINARY_FILES_DIFF_REGEX (binaryFilesLine (str a) (str b))
     = Some (str a, str b))
  /\ (forall a,
        dotStar a = true ->
        BINARY_FILES_DIFF_REGEX (binaryFilesLine (str a) undefined)
        = Some (str a, undefined))
  /\ (forall b,
        dotStar b = true ->
        BINARY_FILES_DIFF_REGEX (binaryFilesLine undefined (str b))
        = Some (undefined, str b))
  /\ BINARY_FILES_DIFF_REGEX (binaryFilesLine undefined undefined)
     = Some (undefined, undefined).
Proof.
  split; [exact roundtrip_both|].
  split; [exact roundtrip_deleted|].
  split; [exact roundtrip_added|reflexivity].
Qed.

(** ** When the banner fails *)

(** X9. [formatFileName] fails with a TypeError, having emitted the
    top separator and nothing else, exactly when the old name is empty or
    undefined and the new name is undefined; in every other case it emits
    three lines, the banner body between two separators, and returns. *)
Theorem banner_failure cfg theme (fileNameA fileNameB : value) :
  (truthy fileNameA = false /\ fileNameB = undefined ->
   formatFileName cfg theme fileNameA fileNameB
   = ([HORIZONTAL_SEPARATOR cfg theme], inl TypeError))
  /\ (~ (truthy fileNameA = false /\ fileNameB = undefined) ->
      exists body,
        formatFileName cfg theme fileNameA fileNameB
        = ([HORIZONTAL_SEPARATOR cfg theme; body;
            HORIZONTAL_SEPARATOR cfg theme], inr tt)).
Proof.
  unfold formatFileName, fileNameIndicatorAndLabel. split.
  - intros [HA ->]. rewrite HA. reflexivity.
  - intros H. destruct (truthy fileNameA) eqn:HA; cbn [negb].
    + destruct fileNameA as [|a]; [discriminate|].
      destruct (truthy fileNameB); cbn [negb]; [|eexists; reflexivity].
      destruct (strictEq (str a) fileNameB); eexists; reflexivity.
    + destruct fileNameB as [|b]; [exfalso; now apply H|].
      eexists; reflexivity.
Qed.

(** ** Hunk headers that fail *)

Lemma header_cut (R rest : jstring) :
  forallb (fun c => negb (N.eqb c AT_SIGN)) R = true ->
  let line := lit "@@ " ++ R ++ lit " @@" ++ rest in
  indexOf line (lit "@@ ") 0 = 0
  /\ indexOf line (lit " @@") 1 = 3 + length R
  /\ slice line 3 (3 + length R) = R.
Proof.
  intros HR line.
  assert (Hlen : length line = 3 + length R + 3 + length rest).
  { unfold line. rewrite !length_append.
    change (length (lit "@@ ")) with 3. change (length (lit " @@")) with 3.
    lia. }
  pose proof (length_nonneg R) as HR0. pose proof (length_nonneg rest) as Hr0.
  split; [|split].
  - unfold indexOf. rewrite Z.max_id, Z.min_l by lia. simpl skipn.
    apply indexOfFrom_here. apply startsWith_prefix.
  - unfold indexOf. rewrite Z.max_l, Z.min_l by lia.
    change (skipn (Z.to_nat 1) line)
      with (AT_SIGN :: (SPACE :: R) ++ lit " @@" ++ rest).
    rewrite indexOfFrom_next by reflexivity.
    rewrite indexOfFrom_closer.
    + unfold length. cbn [List.length]. lia.
    + cbn [forallb]. now rewrite HR.
  - unfold slice, relIndex. rewrite Hlen.
    replace (3 <? 0) with false by reflexivity.
    destruct (3 + length R <? 0) eqn:E; [lia|].
    rewrite !Z.min_l by lia.
    replace (Z.to_nat (3 + length R - 3)) with (List.length R)
      by (unfold length; lia).
    change (skipn (Z.to_nat 3) line) with (R ++ lit " @@" ++ rest).
    apply firstn_app_exact.
Qed.

Lemma indexOfFrom_absent (s p : jstring) (i : Z) :
  (forall k, startsWith (skipn k s) p = false) ->
  indexOfFrom s p i = -1.
Proof.
  revert i; induction s as [|c s IH]; intros i H.
  - pose proof (H O) as H0. cbn [skipn] in H0.
    cbn [indexOfFrom]. now rewrite H0.
  - pose proof (H O) as H0. cbn [skipn] in H0.
    cbn [indexOfFrom]. rewrite H0. apply IH. intros k. apply (H (S k)).
Qed.

Lemma no_closer_without_at_sign (s : jstring) (k : nat) :
  forallb (fun c => negb (N.eqb c AT_SIGN)) s = true ->
  startsWith (skipn k s) (lit " @@") = false.
Proof.
  revert k; induction s as [|c s IH]; intros k Hs.
  - now destruct k.
  - cbn [forallb] in Hs. apply andb_true_iff in Hs as [Hc Hs].
    destruct k as [|k]; [|now apply IH].
    destruct s as [|d s].
    + change (N.eqb c SPACE && false = false). apply andb_false_r.
    + cbn [forallb] in Hs. apply andb_true_iff in Hs as [Hd _].
      apply negb_true_iff in Hd.
      change (N.eqb c SPACE && (N.eqb d AT_SIGN && startsWith s (lit "@")) = false).
      rewrite Hd. apply andb_false_r.
Qed.

Lemma indexOf_nowhere (s p : jstring) :
  ~ occursIn p s -> indexOf s p 0 = -1.
Proof.
  intros H. unfold indexOf. pose proof (length_nonneg s).
  rewrite Z.max_id, Z.min_l by lia. cbn [Z.to_nat skipn].
  apply indexOfFrom_absent. intros k.
  destruct (startsWith (skipn k s) p) eqn:E; [|reflexivity].
  exfalso. apply H. exists (firstn k s), (skipn (List.length p) (skipn k s)).
  rewrite <- (firstn_skipn k s) at 1. f_equal.
  now apply startsWith_app.
Qed.

Lemma unopened_header_fails (line : jstring) :
  ~ occursIn (lit "@@ ") line -> parseHunkHeader line = inl AssertionError.
Proof.
  intros H. unfold parseHunkHeader. now rewrite (indexOf_nowhere _ _ H).
Qed.

(** X10. How a hunk header fails. With a single field, free of spaces and
    at-signs, between the opening marker and the closing marker, the second
    range is missing and reading it is a TypeError. With no at-sign at all
    behind the opening marker there is no closing marker and an assertion
    fails. A line in which the opening marker, two at-signs and a space,
    occurs nowhere fails an assertion too, whatever else it holds. And
    fields after the second one are ignored when no at-sign is in them: the
    header is read as if they were not there. *)
Theorem hunk_header_failures :
  (forall field rest,
     isField field = true ->
     parseHunkHeader (lit "@@ " ++ field ++ lit " @@" ++ rest) = inl TypeError)
  /\ (forall ranges,
        forallb (fun c => negb (N.eqb c AT_SIGN)) ranges = true ->
        parseHunkHeader (lit "@@ " ++ ranges) = inl AssertionError)
  /\ (forall line,
        ~ occursIn (lit "@@ ") line ->
        parseHunkHeader line = inl AssertionError)
  /\ (forall fa fb more rest,
        isField fa = true -> isField fb = true ->
        forallb (fun c => negb (N.eqb c AT_SIGN)) more = true ->
        parseHunkHeader
          (lit "@@ " ++ (fa ++ lit " " ++ fb ++ lit " " ++ more)
             ++ lit " @@" ++ rest)
        = parseHunkHeader (twoFieldHeader fa fb rest)).
Proof.
  split; [|split; [|split]].
  - intros field rest Hf.
    destruct (header_cut field rest (isField_no_at_sign _ Hf)) as (H1 & H2 & H3).
    unfold parseHunkHeader. rewrite H1. change (0 + 1) with 1. rewrite H2.
    change (0 + 3) with 3. rewrite H3.
    pose proof (length_nonneg field).
    replace (0 <=? 0) with true by reflexivity.
    replace (0 <? 3 + length field) with true by (symmetry; apply Z.ltb_lt; lia).
    cbn [negb]. now rewrite split_no_separator by now apply isField_no_space.
  - intros ranges Hr. unfold parseHunkHeader.
    assert (H1 : indexOf (lit "@@ " ++ ranges) (lit "@@ ") 0 = 0).
    { unfold indexOf. pose proof (length_nonneg (lit "@@ " ++ ranges)).
      rewrite Z.max_id, Z.min_l by lia. apply indexOfFrom_here, startsWith_prefix. }
    assert (H2 : indexOf (lit "@@ " ++ ranges) (lit " @@") 1 = -1).
    { unfold indexOf.
      assert (1 <= length (lit "@@ " ++ ranges)).
      { rewrite length_append. change (length (lit "@@ ")) with 3.
        pose proof (length_nonneg ranges). lia. }
      rewrite Z.max_l, Z.min_l by lia.
      change (skipn (Z.to_nat 1) (lit "@@ " ++ ranges))
        with (AT_SIGN :: SPACE :: ranges).
      rewrite indexOfFrom_next by reflexivity.
      apply indexOfFrom_absent. intros k.
      destruct k as [|k].
      2:{ change (startsWith (skipn k ranges) (lit " @@") = false).
          now apply no_closer_without_at_sign. }
      destruct ranges as [|c r]; [reflexivity|].
      cbn [forallb] in Hr. apply andb_true_iff in Hr as [Hc _].
      apply negb_true_iff in Hc.
      change (N.eqb SPACE SPACE && (N.eqb c AT_SIGN && startsWith r (lit "@")) = false).
      now rewrite Hc. }
    rewrite H1. change (0 + 1) with 1. now rewrite H2.
  - exact unopened_header_fails.
  - intros fa fb more rest Ha Hb Hm.
    rewrite parseHunkHeader_two_fields by assumption.
    assert (HR : forallb (fun c => negb (N.eqb c AT_SIGN))
                   (fa ++ lit " " ++ fb ++ lit " " ++ more) = true).
    { repeat apply forallb_app_true; auto using isField_no_at_sign. }
    destruct (header_cut _ rest HR) as (H1 & H2 & H3).
    unfold parseHunkHeader. rewrite H1. change (0 + 1) with 1. rewrite H2.
    change (0 + 3) with 3. rewrite H3.
    pose proof (length_nonneg (fa ++ lit " " ++ fb ++ lit " " ++ more)).
    replace (0 <=? 0) with true by reflexivity.
    match goal with
    | |- context [0 <? ?x] =>
        replace (0 <? x) with true by (symmetry; apply Z.ltb_lt; lia)
    end.
    cbn [negb].
    change (fa ++ lit " " ++ fb ++ lit " " ++ more)
      with (fa ++ SPACE :: fb ++ SPACE :: more).
    rewrite split_at_separator by now apply isField_no_space.
    rewrite split_at_separator by now apply isField_no_space.
    cbv beta iota zeta.
    change (hd [] (split 44 fa)) with (firstPart fa).
    change (hd [] (split 44 fb)) with (firstPart fb).
    change (lit "-") with [45%N]. change (lit "+") with [43%N].
    rewrite !firstPart_startsWith by reflexivity.
    destruct (startsWith fa [45%N]), (startsWith fb [43%N]); reflexivity.
Qed.

Section Streams.

Variable cfg : Config.
Variable theme : Theme.
Variable wrap : jstring -> Z -> list jstring.

(** ** The diff state *)

Lemma setFileNames_same (st : State) :
  setFileNames (fileNameA st) (fileNameB st) st = st.
Proof. now destruct st. Qed.

Lemma handleLine_diff (st : State) (line : jstring) :
  state st = diff ->
  exists a b, handleLine cfg theme st line = ret (setFileNames a b st)
              /\ (isFileHeader line = false ->
                  a = fileNameA st /\ b = fileNameB st).
Proof.
  intros Hst. unfold handleLine, isFileHeader. rewrite Hst.
  destruct (startsWith line (lit "--- a/")); [eexists; eexists; split; [reflexivity|discriminate]|].
  destruct (startsWith line (lit "+++ b/")); [eexists; eexists; split; [reflexivity|discriminate]|].
  destruct (startsWith line (lit "rename from ")); [eexists; eexists; split; [reflexivity|discriminate]|].
  destruct (startsWith line (lit "rename to ")); [eexists; eexists; split; [reflexivity|discriminate]|].
  destruct (startsWith line (lit "Binary files")).
  - destruct (BINARY_FILES_DIFF_REGEX line) as [[a b]|];
      [eexists; eexists; split; [reflexivity|discriminate]|].
    exists (fileNameA st), (fileNameB st). now rewrite setFileNames_same.
  - exists (fileNameA st), (fileNameB st). now rewrite setFileNames_same.
Qed.

(** X11. In the diff state, lines that are no commit, diff or hunk
    marker emit nothing and change nothing but (at most) the two file names;
    lines that are moreover none of the five file-header forms leave the
    machine as it is. *)
Theorem diff_header_silent (st : State) (lines : list jstring) :
  state st = diff ->
  forallb (fun l => negb (isMarker l)) lines = true ->
  (exists a b, feed cfg theme wrap st lines = ret (setFileNames a b st))
  /\ (forallb (fun l => negb (isFileHeader l)) lines = true ->
      feed cfg theme wrap st lines = ret st).
Proof.
  intros Hst Hm.
  assert (H : exists a b,
            feed cfg theme wrap st lines = ret (setFileNames a b st)
            /\ (forallb (fun l => negb (isFileHeader l)) lines = true ->
                a = fileNameA st /\ b = fileNameB st)).
  { revert st Hst; induction lines as [|l ls IH]; intros st Hst.
    - exists (fileNameA st), (fileNameB st). cbn [feed].
      now rewrite setFileNames_same.
    - cbn [forallb] in Hm. apply andb_true_iff in Hm as [Hl Hm].
      apply negb_true_iff in Hl.
      destruct (handleLine_diff st l Hst) as (a & b & Hh & Hk).
      destruct (IH Hm (setFileNames a b st) Hst) as (a' & b' & Hf & Hk').
      exists a', b'. cbn [feed].
      rewrite (step_plain_line cfg theme wrap st l Hl), Hh, bind_ret_l, Hf.
      split; [reflexivity|].
      cbn [forallb]. intros Hn. apply andb_true_iff in Hn as [Hn1 Hn2].
      apply negb_true_iff in Hn1.
      destruct (Hk Hn1) as [-> ->]. destruct (Hk' Hn2) as [-> ->].
      now split. }
  destruct H as (a & b & Hf & Hk). split; [now exists a, b|].
  intros Hn. destruct (Hk Hn) as [-> ->]. now rewrite Hf, setFileNames_same.
Qed.

Lemma run_after_feed (lines out : list jstring) (st : State) :
  feed cfg theme wrap initialState lines = (out, inr st) ->
  iterSideBySideDiff cfg theme wrap lines
  = (out ++ fst (finish cfg theme wrap st), snd (finish cfg theme wrap st)).
Proof. intros H. unfold iterSideBySideDiff. now apply bind_inr. Qed.

Lemma feed_snoc (st st' : State) (lines out : list jstring) (more : list jstring) :
  feed cfg theme wrap st lines = (out, inr st') ->
  feed cfg theme wrap st (lines ++ more)
  = (out ++ fst (feed cfg theme wrap st' more),
     snd (feed cfg theme wrap st' more)).
Proof.
  intros H. rewrite feed_app.
  exact (bind_inr _ (fun s => feed cfg theme wrap s more) _ _ H).
Qed.

Lemma diff_section_opens (st st1 : State) (o : list jstring) (d : jstring) :
  flushPending cfg theme wrap st = (o, inr st1) ->
  startsWith d (lit "diff --git") = true ->
  step cfg theme wrap st d = (o, inr (diffSectionStart st1)).
Proof.
  intros Hf Hd. unfold step.
  replace (startsWith d (lit "commit ")) with false
    by (expose_prefix Hd; reflexivity).
  rewrite Hd, Hf. cbn [bind]. unfold handleLine.
  cbn [state setFileNames setState].
  expose_prefix Hd. cbn. now rewrite app_nil_r.
Qed.

Lemma flushPending_state (st st1 : State) (o : list jstring) :
  flushPending cfg theme wrap st = (o, inr st1) ->
  state st1 = state st /\ fileNameA st1 = fileNameA st
  /\ fileNameB st1 = fileNameB st /\ (bufferIdle st -> hunkLines st1 = []).
Proof.
  unfold flushPending, bufferIdle. destruct (state st) eqn:Hst.
  - intros H. injection H as _ <-. repeat split; auto.
    intros [H|H]; [congruence|exact H].
  - unfold yieldFileName. destruct (formatFileName _ _ _ _) as [o' [e|[]]];
      [discriminate|].
    cbn. intros H. injection H as _ <-. repeat split; auto.
    intros [H|H]; [congruence|exact H].
  - rewrite yieldHunk_flushes. intros H. injection H as _ <-.
    cbn. repeat split; auto.
Qed.

(** The names a diff section ends with, when its header lines are [hs]. *)
Lemma diff_section_run (pre hs out o : list jstring) (st0 st1 : State)
    (d : jstring) (a b : value) :
  feed cfg theme wrap initialState pre = (out, inr st0) ->
  flushPending cfg theme wrap st0 = (o, inr st1) ->
  startsWith d (lit "diff --git") = true ->
  feed cfg theme wrap (diffSectionStart st1) hs
  = ret (setFileNames a b (diffSectionStart st1)) ->
  iterSideBySideDiff cfg theme wrap (pre ++ d :: hs)
  = (out ++ o ++ fst (formatFileName cfg theme a b),
     snd (formatFileName cfg theme a b)).
Proof.
  intros Hpre Hf Hd Hhs.
  assert (H : feed cfg theme wrap initialState (pre ++ d :: hs)
              = (out ++ o, inr (setFileNames a b (diffSectionStart st1)))).
  { rewrite (feed_snoc _ _ _ _ _ Hpre). cbn [feed].
    rewrite (diff_section_opens _ _ _ _ Hf Hd). cbn [bind]. rewrite Hhs.
    cbn. now rewrite app_nil_r. }
  rewrite (run_after_feed _ _ _ H). unfold finish. cbn [state setFileNames].
  unfold yieldFileName. cbn [fileNameA fileNameB setFileNames].
  now rewrite <- app_assoc.
Qed.

Lemma sliceFrom_literal (p name : jstring) (n : Z) :
  n = length p -> sliceFrom (p ++ name) n = name.
Proof. intros ->. apply sliceFrom_app. Qed.

Lemma feed_header_line (st : State) (l : jstring) (ls : list jstring)
    (a b : value) :
  isMarker l = false ->
  handleLine cfg theme st l = ret (setFileNames a b st) ->
  feed cfg theme wrap st (l :: ls)
  = feed cfg theme wrap (setFileNames a b st) ls.
Proof.
  intros Hm Hh. cbn [feed]. now rewrite step_plain_line, Hh, bind_ret_l.
Qed.

Lemma handleLine_old_name (st : State) (name : jstring) :
  state st = diff ->
  handleLine cfg theme st (lit "--- a/" ++ name)
  = ret (setFileNames (str name) (fileNameB st) st).
Proof.
  intros Hst. unfold handleLine. rewrite Hst, startsWith_prefix.
  now rewrite sliceFrom_literal by reflexivity.
Qed.

Lemma handleLine_new_name (st : State) (name : jstring) :
  state st = diff ->
  handleLine cfg theme st (lit "+++ b/" ++ name)
  = ret (setFileNames (fileNameA st) (str name) st).
Proof.
  intros Hst. unfold handleLine. rewrite Hst.
  change (startsWith (lit "+++ b/" ++ name) (lit "--- a/")) with false.
  rewrite startsWith_prefix.
  now rewrite sliceFrom_literal by reflexivity.
Qed.

Lemma handleLine_rename_from (st : State) (name : jstring) :
  state st = diff ->
  handleLine cfg theme st (lit "rename from " ++ name)
  = ret (setFileNames (str name) (fileNameB st) st).
Proof.
  intros Hst. unfold handleLine. rewrite Hst.
  change (startsWith (lit "rename from " ++ name) (lit "--- a/")) with false.
  change (startsWith (lit "rename from " ++ name) (lit "+++ b/")) with false.
  rewrite startsWith_prefix.
  now rewrite sliceFrom_literal by reflexivity.
Qed.

Lemma handleLine_rename_to (st : State) (name : jstring) :
  state st = diff ->
  handleLine cfg theme st (lit "rename to " ++ name)
  = ret (setFileNames (fileNameA st) (str name) st).
Proof.
  intros Hst. unfold handleLine. rewrite Hst.
  change (startsWith (lit "rename to " ++ name) (lit "--- a/")) with false.
  change (startsWith (lit "rename to " ++ name) (lit "+++ b/")) with false.
  change (startsWith (lit "rename to " ++ name) (lit "rename from "))
    with false.
  rewrite startsWith_prefix.
  now rewrite sliceFrom_literal by reflexivity.
Qed.

Lemma handleLine_null_device (st : State) (sign : jstring) :
  state st = diff ->
  sign = lit "--- /dev/null" \/ sign = lit "+++ /dev/null" ->
  handleLine cfg theme st sign
  = ret (setFileNames (fileNameA st) (fileNameB st) st).
Proof.
  intros Hst [-> | ->]; unfold handleLine; rewrite Hst;
    now rewrite setFileNames_same.
Qed.

(** X12. The banner of a diff section shows the names its header lines
    carry. After any accepted prefix of the stream, a diff section that ends
    the input emits what was pending and then the banner of: the names
    behind [--- a/] and [+++ b/]; the names behind [rename from] and
    [rename to]; an empty old name when the old side is the null device; an
    empty new name when the new side is the null device. *)
Theorem file_names_from_headers (pre out o : list jstring) (st0 st1 : State)
    (d a b : jstring) :
  feed cfg theme wrap initialState pre = (out, inr st0) ->
  flushPending cfg theme wrap st0 = (o, inr st1) ->
  startsWith d (lit "diff --git") = true ->
  let run hs := iterSideBySideDiff cfg theme wrap (pre ++ d :: hs) in
  let banner va vb :=
    (out ++ o ++ fst (formatFileName cfg theme va vb),
     snd (formatFileName cfg theme va vb)) in
  run [lit "--- a/" ++ a; lit "+++ b/" ++ b] = banner (str a) (str b)
  /\ run [lit "rename from " ++ a; lit "rename to " ++ b]
     = banner (str a) (str b)
  /\ run [lit "--- /dev/null"; lit "+++ b/" ++ b] = banner (str []) (str b)
  /\ run [lit "--- a/" ++ a; lit "+++ /dev/null"] = banner (str a) (str []).
Proof.
  intros Hpre Hf Hd. cbv zeta.
  repeat split; apply (diff_section_run _ _ _ _ _ _ _ _ _ Hpre Hf Hd).
  - erewrite feed_header_line;
      [|reflexivity|apply handleLine_old_name; reflexivity].
    erewrite feed_header_line;
      [|reflexivity|apply handleLine_new_name; reflexivity].
    reflexivity.
  - erewrite feed_header_line;
      [|reflexivity|apply handleLine_rename_from; reflexivity].
    erewrite feed_header_line;
      [|reflexivity|apply handleLine_rename_to; reflexivity].
    reflexivity.
  - erewrite feed_header_line;
      [|reflexivity|apply handleLine_null_device; [reflexivity|now left]].
    erewrite feed_header_line;
      [|reflexivity|apply handleLine_new_name; reflexivity].
    reflexivity.
  - erewrite feed_header_line;
      [|reflexivity|apply handleLine_old_name; reflexivity].
    erewrite feed_header_line;
      [|reflexivity|apply handleLine_null_device; [reflexivity|now right]].
    reflexivity.
Qed.

Lemma binary_line_names (st : State) (va vb : value) :
  state st = diff ->
  BINARY_FILES_DIFF_REGEX (binaryFilesLine va vb) = Some (va, vb) ->
  feed cfg theme wrap st [binaryFilesLine va vb]
  = ret (setFileNames va vb st).
Proof.
  intros Hst Hm. cbn [feed].
  rewrite step_plain_line by reflexivity.
  unfold handleLine. rewrite Hst.
  change (startsWith (binaryFilesLine va vb) (lit "--- a/")) with false.
  change (startsWith (binaryFilesLine va vb) (lit "+++ b/")) with false.
  change (startsWith (binaryFilesLine va vb) (lit "rename from ")) with false.
  change (startsWith (binaryFilesLine va vb) (lit "rename to ")) with false.
  change (startsWith (binaryFilesLine va vb) (lit "Binary files")) with true.
  cbv iota. now rewrite Hm.
Qed.

(** X13. A diff section that consists of a binary-files line is shown
    with the names of that line: the run emits what was pending and then
    whatever [formatFileName] gives for these names, its failure included
    when the new name is absent and the old one absent too. *)
Theorem binary_diff_banner (pre out o : list jstring) (st0 st1 : State)
    (d : jstring) (va vb : value) :
  feed cfg theme wrap initialState pre = (out, inr st0) ->
  flushPending cfg theme wrap st0 = (o, inr st1) ->
  startsWith d (lit "diff --git") = true ->
  onOneLine va -> onOneLine vb ->
  (forall a b, va = str a -> vb = str b ->
               forallb (fun c => negb (N.eqb c SPACE)) b = true) ->
  iterSideBySideDiff cfg theme wrap (pre ++ [d; binaryFilesLine va vb])
  = (out ++ o ++ fst (formatFileName cfg theme va vb),
     snd (formatFileName cfg theme va vb)).
Proof.
  intros Hpre Hf Hd Ha Hb Hsp.
  apply (diff_section_run _ _ _ _ _ _ _ _ _ Hpre Hf Hd).
  apply binary_line_names; [reflexivity|].
  destruct va as [|a], vb as [|b]; [reflexivity| | |].
  - now apply roundtrip_added.
  - now apply roundtrip_deleted.
  - apply roundtrip_both; auto. now apply (Hsp a b).
Qed.

End Streams.

Section Hunks.

Variable cfg : Config.
Variable theme : Theme.
Variable wrap : jstring -> Z -> list jstring.

(** ** The buffer of a hunk *)

Lemma handleLine_idle (st st' : State) (o : list jstring) (line : jstring) :
  hunkLines st = [] -> state st <> hunk ->
  handleLine cfg theme st line = (o, inr st') ->
  hunkLines st' = [].
Proof.
  intros Hl Hs. unfold handleLine. destruct (state st) eqn:Hst.
  - cbn. intros H. injection H as _ <-. exact Hl.
  - destruct (handleLine_diff cfg theme st line Hst) as (a & b & Hh & _).
    unfold handleLine in Hh. rewrite Hst in Hh. rewrite Hh.
    intros H. injection H as _ <-. exact Hl.
  - congruence.
Qed.

Lemma step_idle (st st' : State) (o : list jstring) (line : jstring) :
  bufferIdle st ->
  step cfg theme wrap st line = (o, inr st') ->
  bufferIdle st'.
Proof.
  intros Hi. unfold step.
  destruct (startsWith line (lit "commit ")) eqn:Hc.
  { assert (H : forall o1 st1,
              match state st with
              | diff => yieldFileName cfg theme st ;;; ret st
              | hunk => st' <- yieldHunk cfg theme wrap st ;;
                        yield (HORIZONTAL_SEPARATOR cfg theme) ;;; ret st'
              | commit => ret st
              end = (o1, inr st1) -> hunkLines st1 = []).
    { intros o1 st1. destruct (state st) eqn:Hst.
      - intros H. injection H as _ <-. destruct Hi; congruence.
      - unfold yieldFileName.
        destruct (formatFileName _ _ _ _) as [o' [e|[]]]; [discriminate|].
        cbn. intros H. injection H as _ <-. destruct Hi; congruence.
      - rewrite yieldHunk_flushes. cbn. intros H. injection H as _ <-.
        reflexivity. }
    destruct (match state st with diff => _ | hunk => _ | commit => _ end)
      as [o1 [e|st1]] eqn:Hf; [unfold bind; intros E; inversion E|].
    specialize (H o1 st1 eq_refl). cbn [bind].
    destruct (handleLine cfg theme (setState commit st1) line)
      as [o2 [e|st2]] eqn:Hh; [intros E; inversion E|].
    intros E. injection E as _ <-. right.
    refine (handleLine_idle (setState commit st1) _ _ _ H _ Hh).
    cbn. discriminate. }
  destruct (startsWith line (lit "diff --git")) eqn:Hd.
  { destruct (flushPending cfg theme wrap st) as [o1 [e|st1]] eqn:Hf;
      [unfold bind; intros E; inversion E|].
    destruct (flushPending_state cfg theme wrap _ _ _ Hf) as (_ & _ & _ & H).
    specialize (H Hi). cbn [bind].
    destruct (handleLine cfg theme _ line) as [o2 [e|st2]] eqn:Hh;
      [intros E; inversion E|].
    intros E. injection E as _ <-. right.
    refine (handleLine_idle
              (setFileNames (str []) (str []) (setState diff st1)) _ _ _ H _ Hh).
    cbn. discriminate. }
  destruct (startsWith line (lit "@@")) eqn:Ha.
  { destruct (flushPending cfg theme wrap st) as [o1 [e|st1]] eqn:Hf;
      [unfold bind; intros E; inversion E|].
    cbn [bind]. destruct (parseHunkHeader line) as [e|[a b]];
      [intros E; inversion E|].
    cbn. intros E. injection E as _ <-. now left. }
  unfold handleLine. destruct (state st) eqn:Hst.
  - cbn. intros H. injection H as _ <-. right. destruct Hi; congruence.
  - destruct (handleLine_diff cfg theme st line Hst) as (a & b & Hh & _).
    unfold handleLine in Hh. rewrite Hst in Hh. rewrite Hh.
    intros H. injection H as _ <-. right. cbn. destruct Hi; congruence.
  - intros H. injection H as _ <-. now left.
Qed.

Lemma feed_idle (lines : list jstring) (st st' : State) (o : list jstring) :
  bufferIdle st ->
  feed cfg theme wrap st lines = (o, inr st') ->
  bufferIdle st'.
Proof.
  revert st o; induction lines as [|l ls IH]; intros st o Hi.
  - cbn. intros H. injection H as _ <-. exact Hi.
  - cbn [feed].
    destruct (step cfg theme wrap st l) as [o1 [e|st1]] eqn:Hs;
      [unfold bind; intros E; inversion E|].
    cbn [bind].
    destruct (feed cfg theme wrap st1 ls) as [o2 [e|st2]] eqn:Hf;
      [intros E; inversion E|].
    intros H. injection H as _ <-.
    apply (IH st1 o2); [apply (step_idle _ _ _ _ Hi Hs)|exact Hf].
Qed.

Lemma hunk_opens (st st1 : State) (o : list jstring) (hdr : jstring)
    (a b : jsnum) :
  bufferIdle st ->
  flushPending cfg theme wrap st = (o, inr st1) ->
  startsWith hdr (lit "@@") = true ->
  parseHunkHeader hdr = inr (a, b) ->
  step cfg theme wrap st hdr = (o, inr (hunkStart st hdr a b)).
Proof.
  intros Hi Hf Hh Hp. unfold step.
  replace (startsWith hdr (lit "commit ")) with false
    by (expose_prefix Hh; reflexivity).
  replace (startsWith hdr (lit "diff --git")) with false
    by (expose_prefix Hh; reflexivity).
  rewrite Hh, Hf, Hp. cbn [bind ret].
  destruct (flushPending_state cfg theme wrap _ _ _ Hf) as (_ & HA & HB & Hl).
  rewrite HA, HB, (Hl Hi), app_nil_r. reflexivity.
Qed.

(** X14. A hunk is rendered from its own header and body lines only.
    After any accepted prefix of the stream, a hunk header that parses,
    followed by body lines that are no marker, makes the run emit what was
    pending before the header and then [formatHunkSideBySide] of exactly
    this header, these body lines, the parsed start values and the file
    names current at the header; lines buffered by an earlier hunk never
    reappear. *)
Theorem hunk_rendered_from_its_lines (pre body out o : list jstring)
    (st0 st1 : State) (hdr : jstring) (a b : jsnum) :
  feed cfg theme wrap initialState pre = (out, inr st0) ->
  flushPending cfg theme wrap st0 = (o, inr st1) ->
  startsWith hdr (lit "@@") = true ->
  parseHunkHeader hdr = inr (a, b) ->
  forallb (fun l => negb (isMarker l)) body = true ->
  iterSideBySideDiff cfg theme wrap (pre ++ hdr :: body)
  = (out ++ o
       ++ formatHunkSideBySide cfg theme wrap hdr body a b
            (fileNameA st0) (fileNameB st0),
     inr tt).
Proof.
  intros Hpre Hf Hh Hp Hb.
  assert (Hi : bufferIdle st0).
  { apply (feed_idle pre initialState st0 out); [now right|exact Hpre]. }
  assert (H : feed cfg theme wrap initialState (pre ++ hdr :: body)
              = (out ++ o,
                 inr {| state := hunk;
                        fileNameA := fileNameA st0;
                        fileNameB := fileNameB st0;
                        startA := a;
                        startB := b;
                        hunkHeaderLine := hdr;
                        hunkLines := body |})).
  { rewrite (feed_snoc _ _ _ _ _ _ _ _ Hpre). cbn [feed].
    rewrite (hunk_opens _ _ _ _ _ _ Hi Hf Hh Hp). cbn [bind].
    rewrite (feed_hunk_body cfg theme wrap (hunkStart st0 hdr a b) body eq_refl Hb).
    cbn. now rewrite app_nil_r. }
  rewrite (run_after_feed _ _ _ _ _ _ H). unfold finish. cbn [state].
  rewrite yieldHunk_flushes. cbn. now rewrite !app_nil_r, <- app_assoc.
Qed.

(** ** Commit logs *)

Lemma setState_commit (st : State) : state st = commit -> setState commit st = st.
Proof. intros <-. now destruct st. Qed.

Lemma feed_commit_lines (st : State) (lines : list jstring) :
  state st = commit ->
  forallb (fun l => negb (startsWith l (lit "diff --git"))
                    && negb (startsWith l (lit "@@"))) lines = true ->
  feed cfg theme wrap st lines
  = (map (formatCommitLine cfg theme) lines, inr st).
Proof.
  intros Hst. induction lines as [|l ls IH]; intros Hl; [reflexivity|].
  cbn [forallb] in Hl. apply andb_true_iff in Hl as [H Hl].
  apply andb_true_iff in H as [Hd Ha]. apply negb_true_iff in Hd, Ha.
  cbn [feed map].
  assert (Hs : step cfg theme wrap st l
               = ([formatCommitLine cfg theme l], inr st)).
  { unfold step. rewrite Hd, Ha, Hst.
    destruct (startsWith l (lit "commit ")).
    - rewrite bind_ret_l, (setState_commit st Hst).
      unfold handleLine. now rewrite Hst.
    - unfold handleLine. now rewrite Hst. }
  rewrite Hs. cbn [bind]. now rewrite (IH Hl).
Qed.

(** X16. A stream without diff and hunk markers is a commit log: the
    run emits one line per input line, [formatCommitLine] of that line, and
    returns. *)
Theorem commit_log_line_by_line (lines : list jstring) :
  forallb (fun l => negb (startsWith l (lit "diff --git"))
                    && negb (startsWith l (lit "@@"))) lines = true ->
  iterSideBySideDiff cfg theme wrap lines
  = (map (formatCommitLine cfg theme) lines, inr tt).
Proof.
  intros Hl. unfold iterSideBySideDiff.
  rewrite (feed_commit_lines initialState lines eq_refl Hl).
  cbn. now rewrite app_nil_r.
Qed.

Lemma padEnd_empty (n : Z) : padEnd [] n SPACE = repeat SPACE (Z.to_nat n).
Proof. unfold padEnd. change (length []) with 0. now rewrite Z.sub_0_r. Qed.

Lemma labelled_line (label rest : jstring) :
  firstWord (label ++ lit " " ++ rest) = label ->
  let line := label ++ lit " " ++ rest in
  let labelled (labelColor : ThemeColor) :=
    COMMIT_COLOR theme
      (label ++ lit " " ++ labelColor rest
         ++ repeat SPACE (Z.to_nat (SCREEN_WIDTH cfg - length line))) in
  formatCommitLine cfg theme line
  = if eqb label (lit "commit") then labelled (COMMIT_SHA_COLOR theme)
    else if eqb label (lit "Author:") then labelled (COMMIT_AUTHOR_COLOR theme)
    else if eqb label (lit "Date:") then labelled (COMMIT_DATE_COLOR theme)
    else COMMIT_COLOR theme (padEnd line (SCREEN_WIDTH cfg) SPACE).
Proof.
  intros H. cbv zeta. unfold formatCommitLine.
  change (hd [] (firstn 1 (split SPACE (label ++ lit " " ++ rest))))
    with (firstWord (label ++ lit " " ++ rest)).
  rewrite H, padEnd_empty.
  replace (sliceFrom (label ++ lit " " ++ rest) (length label + 1)) with rest;
    [reflexivity|].
  symmetry. rewrite (app_assoc label (lit " ") rest).
  apply sliceFrom_literal. rewrite length_append. reflexivity.
Qed.

(** X17. A line that begins with the word commit, Author: or Date: and
    a space is emitted as the label, a space, the rest of the line in the
    colour of the label (sha, author, date), and as many spaces as the whole
    line lacks to the screen width, all inside the commit colour; the rest
    is coloured as it stands, spaces included. *)
Theorem commit_label_colours (rest : jstring) :
  let labelled label labelColor :=
    COMMIT_COLOR theme
      (label ++ lit " " ++ labelColor rest
         ++ repeat SPACE
              (Z.to_nat (SCREEN_WIDTH cfg - length (label ++ lit " " ++ rest)))) in
  formatCommitLine cfg theme (lit "commit" ++ lit " " ++ rest)
  = labelled (lit "commit") (COMMIT_SHA_COLOR theme)
  /\ formatCommitLine cfg theme (lit "Author:" ++ lit " " ++ rest)
     = labelled (lit "Author:") (COMMIT_AUTHOR_COLOR theme)
  /\ formatCommitLine cfg theme (lit "Date:" ++ lit " " ++ rest)
     = labelled (lit "Date:") (COMMIT_DATE_COLOR theme).
Proof.
  cbv zeta.
  assert (H1 : firstWord (lit "commit" ++ lit " " ++ rest) = lit "commit")
    by (unfold firstWord; cbn; now destruct (split SPACE rest)).
  assert (H2 : firstWord (lit "Author:" ++ lit " " ++ rest) = lit "Author:")
    by (unfold firstWord; cbn; now destruct (split SPACE rest)).
  assert (H3 : firstWord (lit "Date:" ++ lit " " ++ rest) = lit "Date:")
    by (unfold firstWord; cbn; now destruct (split SPACE rest)).
  repeat split.
  - exact (labelled_line _ _ H1).
  - exact (labelled_line _ _ H2).
  - exact (labelled_line _ _ H3).
Qed.

End Hunks.

Section FittedWidths.

Variable cfg : Config.
Variable theme : Theme.
Variable wrap : jstring -> Z -> list jstring.
Variable complete : jstring -> Prop.
Variable width : jstring -> Z.
Hypothesis M : Measured theme complete width.

Lemma zipLongest_Forall {A B : Type} (P : A -> Prop) (Q : B -> Prop)
    (la : list A) (lb : list B) :
  Forall P la -> Forall Q lb ->
  Forall (fun p => match fst p with Some a => P a | None => True end
                   /\ match snd p with Some b => Q b | None => True end)
    (zipLongest la lb).
Proof.
  intros Ha; revert lb; induction Ha as [|a la Pa Ha IH]; intros lb Hb.
  - cbn [zipLongest]. apply Forall_map.
    eapply Forall_impl; [|exact Hb]. now intros b Qb.
  - destruct Hb as [|b lb Qb Hb].
    + cbn [zipLongest]. apply Forall_map. constructor; [now split|].
      eapply Forall_impl; [|exact Ha]. now intros a' Pa'.
    + cbn [zipLongest]. constructor; [now split|]. now apply IH.
Qed.

Lemma blank_line_width (c : ThemeColor) :
  In c (themeColors theme) -> 0 <= LINE_WIDTH cfg ->
  sized complete width (c (BLANK_LINE cfg)) (LINE_WIDTH cfg).
Proof.
  intros Hc Hw. apply (sized_color theme complete width M); [exact Hc|].
  eapply sized_eq; [apply (sized_plain theme complete width M)|].
  - unfold BLANK_LINE. now apply plainText_padStart.
  - unfold BLANK_LINE. rewrite padStart_length.
    change (length []) with 0. lia.
Qed.

Lemma fitted_half_width (half : option HunkLineHalf) :
  0 <= LINE_NUMBER_WIDTH cfg -> 0 <= LINE_PREFIX_WIDTH cfg ->
  fitsColumns cfg half ->
  Forall (segmentFits cfg)
    (fitTextToWidth cfg wrap (halfText half) (LINE_TEXT_WIDTH cfg)) ->
  Forall (fun l => sized complete width l (LINE_WIDTH cfg))
    (formatAndFitHunkLineHalf cfg wrap half
       (lineColorForLineHalf theme half) (lineNoColorForLineHalf theme half)).
Proof.
  intros Hn Hp Hf Hs. unfold formatAndFitHunkLineHalf.
  fold (halfText half).
  destruct (lineColor_in_theme theme half) as [Hc Hnc].
  destruct Hs as [|first others [P1 L1] Hs]; [constructor|].
  constructor.
  - destruct half as [h|].
    + destruct Hf as (Pn & Pp & _ & Ln & Lp).
      now apply (hunk_line_half_width cfg theme complete width M).
    + now apply (hunk_line_half_width cfg theme complete width M).
  - apply Forall_map. eapply Forall_impl; [|exact Hs].
    intros t [Pt Lt].
    now apply (hunk_line_half_width cfg theme complete width M).
Qed.

(** X18. In either mode, when the two halves of a row fit their number
    and prefix columns and the segments [fitTextToWidth] returns for their
    texts are plain and no wider than the text column, every line emitted
    for the row is [2 * LINE_WIDTH] wide, the lines completed with
    [BLANK_LINE] for the shorter side included. *)
Theorem fitted_row_widths (lineHalfA lineHalfB : option HunkLineHalf) :
  0 <= LINE_NUMBER_WIDTH cfg -> 0 <= LINE_PREFIX_WIDTH cfg ->
  0 <= LINE_TEXT_WIDTH cfg ->
  fitsColumns cfg lineHalfA -> fitsColumns cfg lineHalfB ->
  Forall (segmentFits cfg)
    (fitTextToWidth cfg wrap (halfText lineHalfA) (LINE_TEXT_WIDTH cfg)) ->
  Forall (segmentFits cfg)
    (fitTextToWidth cfg wrap (halfText lineHalfB) (LINE_TEXT_WIDTH cfg)) ->
  Forall (fun row => sized complete width row (2 * LINE_WIDTH cfg))
    (formatHunkLine cfg theme wrap lineHalfA lineHalfB).
Proof.
  intros Hn Hp Ht FA FB SA SB.
  assert (Hw : 0 <= LINE_WIDTH cfg)
    by (rewrite LINE_TEXT_WIDTH_difference in Ht; lia).
  pose proof (fitted_half_width lineHalfA Hn Hp FA SA) as HA.
  pose proof (fitted_half_width lineHalfB Hn Hp FB SB) as HB.
  destruct (lineColor_in_theme theme lineHalfA) as [CA _].
  destruct (lineColor_in_theme theme lineHalfB) as [CB _].
  unfold formatHunkLine. apply Forall_map.
  eapply Forall_impl; [|exact (zipLongest_Forall _ _ _ _ HA HB)].
  intros [[la|] [lb|]] [Ha Hb]; cbn [fst snd] in *;
    (eapply sized_eq;
     [apply (sized_app theme complete width M)|]);
    try eassumption; try (now apply blank_line_width); lia.
Qed.

End FittedWidths.

(** ** The end of the input *)

Section EndOfInput.

Variable cfg : Config.
Variable theme : Theme.
Variable wrap : jstring -> Z -> list jstring.




End EndOfInput.

(** ** Lines of the commit state *)

Section CommitLines.

Variable cfg : Config.
Variable theme : Theme.
Variable wrap : jstring -> Z -> list jstring.

Lemma step_commit_state (st : State) (line : jstring) :
  state st = commit ->
  startsWith line (lit "diff --git") = false ->
  startsWith line (lit "@@") = false ->
  step cfg theme wrap st line = ([formatCommitLine cfg theme line], inr st).
Proof.
  intros Hst Hd Hh. unfold step. rewrite Hd, Hh, Hst.
  destruct (startsWith line (lit "commit ")).
  - rewrite bind_ret_l, (setState_commit st Hst).
    unfold handleLine. now rewrite Hst.
  - unfold handleLine. now rewrite Hst.
Qed.

Lemma sliceFrom_past (s : jstring) : sliceFrom s (length s + 1) = [].
Proof.
  unfold sliceFrom, slice, relIndex. pose proof (length_nonneg s).
  destruct (length s + 1 <? 0) eqn:E1; [lia|].
  destruct (length s <? 0) eqn:E2; [lia|].
  rewrite !Z.min_r by lia. now rewrite Z.sub_diag.
Qed.

Lemma sliceFrom_word (label rest : jstring) :
  sliceFrom (label ++ SPACE :: rest) (length label + 1) = rest.
Proof.
  change (label ++ SPACE :: rest) with (label ++ [SPACE] ++ rest).
  rewrite app_assoc.
  replace (length label + 1) with (length (label ++ [SPACE]))
    by (rewrite length_append; reflexivity).
  apply sliceFrom_app.
Qed.

(** A line whose first word is a label is emitted with the rest behind the
    label in the colour of the label. *)
Lemma formatCommitLine_label (line : jstring) :
  isCommitLabel (firstWord line) = true ->
  exists labelColor,
    In labelColor [COMMIT_SHA_COLOR theme; COMMIT_AUTHOR_COLOR theme;
                   COMMIT_DATE_COLOR theme]
    /\ formatCommitLine cfg theme line
       = COMMIT_COLOR theme
           (firstWord line ++ lit " "
              ++ labelColor (sliceFrom line (length (firstWord line) + 1))
              ++ repeat SPACE (Z.to_nat (SCREEN_WIDTH cfg - length line))).
Proof.
  unfold formatCommitLine, isCommitLabel. fold (firstWord line).
  rewrite padEnd_empty. intros H.
  destruct (eqb (firstWord line) (lit "commit"));
    [eexists; split; [|reflexivity]; simpl; tauto|].
  destruct (eqb (firstWord line) (lit "Author:"));
    [eexists; split; [|reflexivity]; simpl; tauto|].
  destruct (eqb (firstWord line) (lit "Date:"));
    [eexists; split; [|reflexivity]; simpl; tauto|discriminate].
Qed.

(** C10. In the commit state a line that is no diff-section or hunk-header
    marker is emitted as one line, [formatCommitLine] of it. When its first
    word is no commit label, that is the line itself padded with spaces up
    to SCREEN_WIDTH and never cut: a line longer than SCREEN_WIDTH is
    emitted in full, a line of at most SCREEN_WIDTH units is padded to
    exactly SCREEN_WIDTH. When its first word is a commit label, it is the
    label, a space, the rest of the line in the colour of the label, and
    SCREEN_WIDTH minus the length of the line spaces: apart from the
    colours, a line of at most SCREEN_WIDTH units that has a space behind
    its label is padded to exactly SCREEN_WIDTH, but a line that is the
    bare label is emitted SCREEN_WIDTH + 1 units wide. *)
Theorem commit_line_not_fitted (st : State) (line : jstring) :
  state st = commit ->
  startsWith line (lit "diff --git") = false ->
  startsWith line (lit "@@") = false ->
  let pad := repeat SPACE (Z.to_nat (SCREEN_WIDTH cfg - length line)) in
  step cfg theme wrap st line = ([formatCommitLine cfg theme line], inr st)
  /\ (isCommitLabel (firstWord line) = false ->
      formatCommitLine cfg theme line
      = COMMIT_COLOR theme (padEnd line (SCREEN_WIDTH cfg) SPACE)
      /\ (SCREEN_WIDTH cfg <= length line ->
          padEnd line (SCREEN_WIDTH cfg) SPACE = line)
      /\ (length line <= SCREEN_WIDTH cfg ->
          padEnd line (SCREEN_WIDTH cfg) SPACE = line ++ pad
          /\ length (line ++ pad) = SCREEN_WIDTH cfg))
  /\ (isCommitLabel (firstWord line) = true ->
      exists labelColor rest,
        In labelColor [COMMIT_SHA_COLOR theme; COMMIT_AUTHOR_COLOR theme;
                       COMMIT_DATE_COLOR theme]
        /\ formatCommitLine cfg theme line
           = COMMIT_COLOR theme
               (firstWord line ++ lit " " ++ labelColor rest ++ pad)
        /\ (line = firstWord line ++ lit " " ++ rest
            /\ (length line <= SCREEN_WIDTH cfg ->
                length (firstWord line ++ lit " " ++ rest ++ pad)
                = SCREEN_WIDTH cfg)
            \/ line = firstWord line /\ rest = []
               /\ (length line <= SCREEN_WIDTH cfg ->
                   length (firstWord line ++ lit " " ++ rest ++ pad)
                   = SCREEN_WIDTH cfg + 1))).
Proof.
  intros Hst Hd Hh pad.
  split; [now apply step_commit_state|]. split.
  - intros Hl. split; [|split].
    + unfold formatCommitLine. fold (firstWord line).
      unfold isCommitLabel in Hl.
      apply orb_false_iff in Hl as [Hl H3].
      apply orb_false_iff in Hl as [H1 H2].
      now rewrite H1, H2, H3.
    + apply padEnd_short.
    + intros H. split; [reflexivity|].
      unfold pad. rewrite length_append, length_of_repeat. lia.
  - intros Hl.
    destruct (formatCommitLine_label line Hl) as (labelColor & Hin & Hf).
    exists labelColor, (sliceFrom line (length (firstWord line) + 1)).
    split; [exact Hin|]. split; [exact Hf|].
    destruct (firstWord_cases line) as [E | [rest E]].
    + right. rewrite E, sliceFrom_past.
      split; [reflexivity|]. split; [reflexivity|].
      intros H. unfold pad.
      rewrite !length_append, length_of_repeat.
      change (length (lit " ")) with 1. change (length []) with 0. lia.
    + left. set (label := firstWord line) in *.
      assert (Hs : sliceFrom line (length label + 1) = rest)
        by (rewrite E; apply sliceFrom_word).
      rewrite Hs. split; [exact E|].
      intros H. unfold pad.
      rewrite !length_append, length_of_repeat.
      rewrite E in H |- *. rewrite length_append in H |- *.
      change (length (SPACE :: rest)) with (length ([SPACE] ++ rest)) in *.
      rewrite length_append in H |- *.
      change (length (lit " ")) with 1. change (length [SPACE]) with 1 in *.
      lia.
Qed.

End CommitLines.

(** * Instances *)

(** The scenarios of the specification, run on the embedding. *)

Example scenario_change_block :
  hunkRows (map lit ["-foo"; "+bar"; "+baz"; " qux"]%string) (Num 1) (Num 1)
    (str (lit "f")) (str (lit "f"))
  = [(Some {| number := lit "1"; prefix := lit "-"; text := lit "foo" |},
      Some {| number := lit "1"; prefix := lit "+"; text := lit "bar" |});
     (None,
      Some {| number := lit "2"; prefix := lit "+"; text := lit "baz" |});
     (Some {| number := lit "2"; prefix := lit " "; text := lit "qux" |},
      Some {| number := lit "3"; prefix := lit " "; text := lit "qux" |})].
Proof. reflexivity. Qed.

Example scenario_truncate :
  fitTextToWidth screen24 noWrap (lit "abcdefgh") 5 = [lit "abcde"].
Proof. reflexivity. Qed.

Example scenario_binary :
  BINARY_FILES_DIFF_REGEX (lit "Binary files a/img.png and b/img.png differ")
  = Some (str (lit "img.png"), str (lit "img.png")).
Proof. reflexivity. Qed.

Example scenario_binary_added :
  BINARY_FILES_DIFF_REGEX (lit "Binary files /dev/null and b/a and b differ")
  = Some (undefined, str (lit "a and b")).
Proof. reflexivity. Qed.

Example scenario_side_by_side :
  formatHunkSideBySide screen24 plainTheme noWrap (lit "@@ -1,2 +1,3 @@")
    (map lit ["-foo"; "+bar"; "+baz"; " qux"]%string) (Num 1) (Num 1)
    (str (lit "f")) (str (lit "f"))
  = map lit ["@@ -1,2 +1,3 @@         ";
             " 1 - foo     1 + bar    ";
             "             2 + baz    ";
             " 2   qux     3   qux    "]%string.
Proof. reflexivity. Qed.

Lemma plainTheme_measured : Measured plainTheme (fun _ => True) length.
Proof.
  split.
  - intros s _. now split.
  - intros s t _ _. split; [exact I|apply length_append].
  - intros c Hc s _. split; [exact I|].
    simpl in Hc.
    repeat (destruct Hc as [<- | Hc]; [reflexivity|]). contradiction.
Qed.

(** C1 at a hunk with a deletion, a context line and an insertion, both
    file names being "f". *)
Lemma context_line_rows_witness :
  Spec.contextOnBothSides (map lit ["-a"; " c"; "+b"]%string)
    (Num 1) (Num 1) (str (lit "f")) (str (lit "f")).
Proof.
  exact (proj1 (proj1 (context_line_rows screen24 plainTheme noWrap []
                         (map lit ["-a"; " c"; "+b"]%string)
                         (Num 1) (Num 1) (str (lit "f")) (str (lit "f")))
                  eq_refl eq_refl)).
Defined.

(** C1 as stated fails for a file that is added: with [fileNameA] empty the
    context line is a row of the right side only. *)
Lemma context_line_one_sided :
  hunkRows [lit " c"] (Num 1) (Num 1) (str []) (str (lit "f"))
  = [(None, Some (halfOf (Num 1) (lit " c")))]
  /\ ~ Spec.contextOnBothSides [lit " c"] (Num 1) (Num 1)
         (str []) (str (lit "f")).
Proof.
  split; [reflexivity|]. unfold Spec.contextOnBothSides.
  vm_compute. discriminate.
Qed.

(** C3 at the long commit line, colours switched off. *)
Lemma emitted_line_widths_witness :
  Measured plainTheme (fun _ => True) length
  /\ length (formatCommitLine screen24 plainTheme longLine) = 37.
Proof.
  split; [exact plainTheme_measured|].
  destruct (emitted_line_widths screen24 plainTheme noWrap (fun _ => True)
              length plainTheme_measured) as (_ & H & _).
  exact (proj2 (H longLine eq_refl eq_refl)).
Defined.

(** C3 as stated fails: a commit message line of 37 units is emitted 37
    units wide on a screen of 24. *)
Lemma long_commit_line_overflows :
  Spec.validConfig screen24
  /\ Measured plainTheme (fun _ => True) length
  /\ iterSideBySideDiff screen24 plainTheme noWrap [longLine]
     = ([longLine], inr tt)
  /\ ~ Spec.everyLineFillsScreen screen24 plainTheme noWrap length [longLine].
Proof.
  split; [unfold Spec.validConfig; simpl; lia|].
  split; [exact plainTheme_measured|].
  split; [reflexivity|].
  unfold Spec.everyLineFillsScreen.
  change (fst (iterSideBySideDiff screen24 plainTheme noWrap [longLine]))
    with [longLine].
  intros H. apply Forall_inv in H. vm_compute in H. discriminate.
Qed.



(** C5 at a hunk with a deletion, an insertion and a context line. *)
Lemma line_number_law_witness :
  map number
    (lefts (hunkRows (map lit ["-foo"; "+bar"; " qux"]%string) (Num 1) (Num 7)
              (str (lit "f")) (str (lit "f"))))
  = [lit "1"; lit "2"]
  /\ map number
       (rights (hunkRows (map lit ["-foo"; "+bar"; " qux"]%string) (Num 1) (Num 7)
                  (str (lit "f")) (str (lit "f"))))
     = [lit "7"; lit "8"].
Proof.
  destruct (line_number_law screen24 plainTheme noWrap (lit "@@ -1,2 +7,2 @@")
              (map lit ["-foo"; "+bar"; " qux"]%string) 1 7
              (str (lit "f")) (str (lit "f"))
              ltac:(vm_compute; discriminate) ltac:(vm_compute; discriminate)
              ltac:(vm_compute; discriminate) ltac:(vm_compute; discriminate))
    as (_ & _ & _ & HA & HB & _).
  split; [exact HA|exact HB].
Defined.

(** C5 as stated fails from 2^53 on, where a double no longer counts by
    one: in a hunk whose header gives the start 9007199254740992, two
    deletions are both numbered 9007199254740992. *)
Lemma line_numbers_stall :
  parseHunkHeader (lit "@@ -9007199254740992,2 +1,0 @@")
  = inr (Num (2 ^ 53), Num 1)
  /\ map number
       (lefts (hunkRows (map lit ["-foo"; "-bar"]%string) (Num (2 ^ 53)) (Num 1)
                 (str (lit "f")) (str (lit "f"))))
     = [lit "9007199254740992"; lit "9007199254740992"]
  /\ decimalDigits (2 ^ 53 + 1) = lit "9007199254740993"
  /\ lit "9007199254740992" <> decimalDigits (2 ^ 53 + 1).
Proof.
  split; [vm_compute; reflexivity|].
  split; [vm_compute; reflexivity|].
  split; [vm_compute; reflexivity|].
  vm_compute. discriminate.
Qed.



(** C7 at a rename. *)
Lemma file_name_banner_witness :
  formatFileName screen24 plainTheme (str (lit "old.txt")) (str (lit "new.txt"))
  = ([HORIZONTAL_SEPARATOR screen24 plainTheme;
      bannerBody screen24 plainTheme [BLACK_SQUARE; BLACK_SQUARE]
        (lit "old.txt -> new.txt");
      HORIZONTAL_SEPARATOR screen24 plainTheme], inr tt).
Proof.
  destruct (file_name_banner screen24 plainTheme noWrap
              (str (lit "old.txt")) (str (lit "new.txt")))
    as (_ & _ & _ & _ & H & _).
  apply (H (lit "old.txt") (lit "new.txt") eq_refl eq_refl); discriminate.
Defined.

(** C9 at the sample state and a commit line. *)
Lemma commit_boundary_separator_witness :
  state sampleState = hunk
  /\ fst (step screen24 plainTheme noWrap sampleState (lit "commit abc"))
     = formatHunkSideBySide screen24 plainTheme noWrap
         (lit "@@ -1,2 +1,3 @@") [lit "-foo"] (Num 1) (Num 1)
         (str (lit "f")) (str (lit "f"))
       ++ [HORIZONTAL_SEPARATOR screen24 plainTheme;
           formatCommitLine screen24 plainTheme (lit "commit abc")].
Proof.
  split; [reflexivity|].
  exact (proj1 (commit_boundary_separator screen24 plainTheme noWrap
                  sampleState (lit "commit abc") eq_refl) eq_refl).
Defined.

(** C10 at the long commit line. *)
Lemma commit_line_not_fitted_witness :
  SCREEN_WIDTH screen24 < length longLine
  /\ step screen24 plainTheme noWrap initialState longLine
     = ([longLine], inr initialState).
Proof.
  split; [reflexivity|].
  exact (proj1 (commit_line_not_fitted screen24 plainTheme noWrap initialState
                  longLine eq_refl eq_refl eq_refl)).
Defined.

(** C10 at a bare label: the line [Date:], five units long, is emitted 25
    units wide on a screen of 24. *)
Example bare_label_overflows :
  step screen24 plainTheme noWrap initialState (lit "Date:")
  = ([lit "Date:                    "], inr initialState)
  /\ length (lit "Date:                    ") = SCREEN_WIDTH screen24 + 1.
Proof. split; reflexivity. Qed.

(** The further properties at concrete inputs. *)

(** X2 at a hunk of an insertion and a context line. *)
Lemma hunk_row_count_witness :
  List.length
    (formatHunkSideBySide screen24 plainTheme noWrap (lit "@@ -1,2 +1,3 @@")
       sampleBody (Num 1) (Num 1) (str (lit "f")) (str (lit "f")))
  = S (List.length
         (hunkRows sampleBody (Num 1) (Num 1) (str (lit "f")) (str (lit "f")))).
Proof.
  exact (proj2 (proj2 (proj2
           (hunk_row_count screen24 plainTheme noWrap (lit "@@ -1,2 +1,3 @@")
              sampleBody (Num 1) (Num 1) (str (lit "f")) (str (lit "f")))))
           eq_refl).
Defined.

(** X3 at the hunk of an added file. *)
Lemma one_sided_file_rows_witness :
  hunkRows sampleBody (Num 0) (Num 1) (str []) (str (lit "f"))
  = [(None, Some {| number := lit "1"; prefix := lit "+"; text := lit "bar" |});
     (None, Some {| number := lit "2"; prefix := lit " "; text := lit "qux" |})].
Proof.
  exact (proj1 (one_sided_file_rows sampleBody (Num 0) (Num 1)
                  (str []) (str (lit "f")))
           eq_refl eq_refl eq_refl).
Defined.

(** X4 at a hunk of context lines, without file names. *)
Lemma nameless_hunk_rows_witness :
  hunkRows (map lit [" foo"; " bar"]%string) (Num 1) (Num 1) (str []) (str [])
  = [].
Proof.
  exact (proj2 (proj2 (proj2
           (nameless_hunk_rows (map lit [" foo"; " bar"]%string) (Num 1) (Num 1)
              (str []) (str []) eq_refl eq_refl)))
           eq_refl).
Defined.

(** X6 at a negative width: the text loses its last three units. *)
Lemma truncation_cut_witness :
  fitTextToWidth screen24 noWrap (lit "abcdefgh") (-3) = [lit "abcde"].
Proof.
  exact (truncation_cut screen24 noWrap (lit "abcdefgh") (-3) eq_refl).
Defined.

(** X7 at the line of a deleted binary file. *)
Lemma binary_files_match_sound_witness :
  lit "Binary files a/x.png and /dev/null differ"
  = binaryFilesLine (str (lit "x.png")) undefined
  /\ onOneLine (str (lit "x.png")) /\ onOneLine undefined.
Proof.
  exact (binary_files_match_sound
           (lit "Binary files a/x.png and /dev/null differ")
           (str (lit "x.png")) undefined eq_refl).
Defined.

(** X8 at a changed binary file. *)
Lemma binary_files_match_names_witness :
  BINARY_FILES_DIFF_REGEX
    (binaryFilesLine (str (lit "x y.png")) (str (lit "z.png")))
  = Some (str (lit "x y.png"), str (lit "z.png")).
Proof.
  exact (proj1 binary_files_match_names (lit "x y.png") (lit "z.png")
           eq_refl eq_refl eq_refl).
Defined.

(** X9 at an added binary file whose name was not captured. *)
Lemma banner_failure_witness :
  formatFileName screen24 plainTheme (str []) undefined
  = ([HORIZONTAL_SEPARATOR screen24 plainTheme], inl TypeError).
Proof.
  exact (proj1 (banner_failure screen24 plainTheme (str []) undefined)
           (conj eq_refl eq_refl)).
Defined.

(** X10 at a header with one range. *)
Lemma hunk_header_failures_witness :
  parseHunkHeader (lit "@@ " ++ lit "-1,2" ++ lit " @@" ++ lit " f()")
  = inl TypeError.
Proof.
  exact (proj1 hunk_header_failures (lit "-1,2") (lit " f()") eq_refl).
Defined.

(** X11 at the index line of a diff section. *)
Lemma diff_header_silent_witness :
  feed screen24 plainTheme noWrap sampleSectionState
    [lit "index 83db48f..bf269f4 100644"]
  = ret sampleSectionState.
Proof.
  exact (proj2 (diff_header_silent screen24 plainTheme noWrap
                  sampleSectionState [lit "index 83db48f..bf269f4 100644"]
                  eq_refl eq_refl)
           eq_refl).
Defined.

(** X12 at the first diff section of a stream. *)
Lemma file_names_from_headers_witness :
  iterSideBySideDiff screen24 plainTheme noWrap
    ([] ++ lit "diff --git a/f b/f"
        :: [lit "--- a/" ++ lit "f"; lit "+++ b/" ++ lit "f"])
  = (sampleBanner, inr tt).
Proof.
  exact (proj1 (file_names_from_headers screen24 plainTheme noWrap
                  [] [] [] initialState initialState
                  (lit "diff --git a/f b/f") (lit "f") (lit "f")
                  eq_refl eq_refl eq_refl)).
Defined.

(** X13 at a deleted binary file. *)
Lemma binary_diff_banner_witness :
  iterSideBySideDiff screen24 plainTheme noWrap
    ([] ++ [lit "diff --git a/x.png b/x.png";
            binaryFilesLine (str (lit "x.png")) undefined])
  = (fst (formatFileName screen24 plainTheme (str (lit "x.png")) undefined),
     inr tt).
Proof.
  refine (binary_diff_banner screen24 plainTheme noWrap
            [] [] [] initialState initialState
            (lit "diff --git a/x.png b/x.png") (str (lit "x.png")) undefined
            eq_refl eq_refl eq_refl eq_refl I _).
  intros a b _ H. discriminate H.
Defined.

(** X14 at a hunk that ends the input. *)
Lemma hunk_rendered_from_its_lines_witness :
  iterSideBySideDiff screen24 plainTheme noWrap
    (sampleSection ++ lit "@@ -1,2 +1,3 @@" :: sampleBody)
  = ([] ++ sampleBanner
        ++ formatHunkSideBySide screen24 plainTheme noWrap
             (lit "@@ -1,2 +1,3 @@") sampleBody (Num 1) (Num 1)
             (str (lit "f")) (str (lit "f")),
     inr tt).
Proof.
  exact (hunk_rendered_from_its_lines screen24 plainTheme noWrap
           sampleSection sampleBody [] sampleBanner
           sampleSectionState sampleSectionState
           (lit "@@ -1,2 +1,3 @@") (Num 1) (Num 1)
           eq_refl eq_refl eq_refl eq_refl eq_refl).
Defined.

(** X16 at a commit header and a message line. *)
Lemma commit_log_line_by_line_witness :
  iterSideBySideDiff screen24 plainTheme noWrap [lit "commit 1"; longLine]
  = ([lit "commit 1                "; longLine], inr tt).
Proof.
  exact (commit_log_line_by_line screen24 plainTheme noWrap
           [lit "commit 1"; longLine] eq_refl).
Defined.

(** X18 in wrap mode: a deletion cut in two beside a missing half. *)
Lemma fitted_row_widths_witness :
  Forall (fun row => sized (fun _ => True) length row 24)
    (formatHunkLine wrapScreen24 plainTheme cutInTwo
       (Some {| number := lit "1"; prefix := lit "-";
                text := lit "foo bar baz" |})
       None).
Proof.
  apply (fitted_row_widths wrapScreen24 plainTheme cutInTwo
           (fun _ => True) length plainTheme_measured).
  - vm_compute; discriminate.
  - vm_compute; discriminate.
  - vm_compute; discriminate.
  - repeat split; vm_compute; discriminate.
  - exact I.
  - repeat constructor; vm_compute; discriminate.
  - repeat constructor; vm_compute; discriminate.
Defined.
